(** * evidence-gate: a shallow embedding of the statistical core

    The TypeScript sources under [src/] compute on JavaScript [number]s.
    The embedding is written once, over an interface [JSNumber] holding the
    arithmetic, the comparisons and the [Math] built-ins the sources call,
    and is read at two instances:

    - [Float64]: IEEE-754 binary64 ([PrimFloat]), the numbers the program
      really runs on; every definition evaluates there, rounding, infinities
      and NaN included;
    - [Exact]: the real numbers, the reading without rounding, used where the
      argument is algebraic.

    Each module below follows one source file. *)

From Stdlib Require Import ZArith List Bool Lia String Ascii Permutation Sorted.
From Stdlib Require Import Decimal DecimalZ DecimalString.
From Stdlib Require Import Floats.
From Stdlib Require Import Reals Lra.
Import ListNotations.

(* ================================================================== *)
(** * Numeric literals *)
(* ================================================================== *)

(** A decimal literal of the source, kept exact: [lit_mant * 10 ^ lit_expo].
    Each instance of [JSNumber] decides how a literal becomes a number. *)
Record Lit : Set := mkLit { lit_mant : Z; lit_expo : Z }.

Definition lit_of_decimal (d : Decimal.decimal) : Lit :=
  match d with
  | Decimal.Decimal i f =>
      mkLit (Z.of_int (Decimal.app_int i f)) (- Z.of_nat (Decimal.nb_digits f))
  | Decimal.DecimalExp i f e =>
      mkLit (Z.of_int (Decimal.app_int i f))
            (Z.of_int e - Z.of_nat (Decimal.nb_digits f))
  end.

Definition lit_of_number (n : Number.number) : option Lit :=
  match n with
  | Number.Decimal d => Some (lit_of_decimal d)
  | Number.Hexadecimal _ => None
  end.

Definition number_of_lit (l : Lit) : Number.number :=
  Number.Decimal
    (Decimal.DecimalExp (Z.to_int (lit_mant l)) Decimal.Nil (Z.to_int (lit_expo l))).

Declare Scope js_scope.
Delimit Scope js_scope with js.
Number Notation Lit lit_of_number number_of_lit : js_scope.

(* ================================================================== *)
(** * The interface of JavaScript numbers *)
(* ================================================================== *)

(** Operations are named after what the sources write: [num_lt] is [<],
    [num_le] is [<=], [num_eq] is [===] on numbers, [Math_pow] also serves
    the [**] operator. *)
Class JSNumber : Type := {
  number : Type;
  of_lit : Lit -> number;
  of_nat : nat -> number;
  num_add : number -> number -> number;
  num_sub : number -> number -> number;
  num_mul : number -> number -> number;
  num_div : number -> number -> number;
  num_neg : number -> number;
  num_lt : number -> number -> bool;
  num_le : number -> number -> bool;
  num_eq : number -> number -> bool;
  isNaN : number -> bool;
  Math_abs : number -> number;
  Math_sqrt : number -> number;
  Math_exp : number -> number;
  Math_log : number -> number;
  Math_sin : number -> number;
  Math_pow : number -> number -> number;
  Math_max : number -> number -> number;
  Math_min : number -> number -> number;
  Math_PI : number;
}.

Bind Scope js_scope with number.
#[warning="-uniform-inheritance"]
Coercion of_lit : Lit >-> number.

Notation "x + y" := (num_add x y) : js_scope.
Notation "x - y" := (num_sub x y) : js_scope.
Notation "x * y" := (num_mul x y) : js_scope.
Notation "x / y" := (num_div x y) : js_scope.
Notation "- x" := (num_neg x) : js_scope.
Notation "x <? y" := (num_lt x y) (at level 70, no associativity) : js_scope.
Notation "x <=? y" := (num_le x y) (at level 70, no associativity) : js_scope.
Notation "x >? y" := (num_lt y x) (at level 70, no associativity) : js_scope.
Notation "x >=? y" := (num_le y x) (at level 70, no associativity) : js_scope.
Notation "x === y" := (num_eq x y) (at level 70, no associativity) : js_scope.
Notation "x ** y" := (Math_pow x y) (at level 30, right associativity) : js_scope.

(** The few facts about comparisons and sign that the proofs use; both
    instances of [JSNumber] in this file satisfy them. *)
Class JSNumberLaws (N : JSNumber) : Prop := {
  num_eq_refl : forall x, isNaN x = false -> num_eq x x = true;
  num_lt_le : forall x y, num_lt x y = true -> num_le x y = true;
  num_le_refl : forall x, isNaN x = false -> num_le x x = true;
  num_not_lt_ge : forall x y,
    isNaN x = false -> isNaN y = false ->
    (num_lt x y = false <-> num_le y x = true);
  num_le_0_1 : num_le (of_lit (mkLit 0 0)) (of_lit (mkLit 1 0)) = true;
  num_lit_0_number : isNaN (of_lit (mkLit 0 0)) = false;
  num_lit_1_number : isNaN (of_lit (mkLit 1 0)) = false;
  num_neg_pos : forall x,
    num_lt (of_lit (mkLit 0 0)) x = true ->
    num_le (of_lit (mkLit 0 0)) (num_neg x) = false;
  num_mul_neg_neg : forall x y, num_mul (num_neg x) (num_neg y) = num_mul x y;
  Math_max_spec : forall x y,
    isNaN (Math_max x y) = true \/
    ((Math_max x y = x \/ Math_max x y = y) /\
     num_le x (Math_max x y) = true /\ num_le y (Math_max x y) = true);
  Math_min_spec : forall x y,
    isNaN (Math_min x y) = true \/
    ((Math_min x y = x \/ Math_min x y = y) /\
     num_le (Math_min x y) x = true /\ num_le (Math_min x y) y = true);
}.

(* ================================================================== *)
(** * Instance 1: IEEE-754 binary64 *)
(* ================================================================== *)

Module F64.

Local Open Scope float_scope.

(** ** Literals and integers *)

(** The double nearest to [num / den] (ties to even), for [0 <= num] and
    [0 < den]: the quotient is taken with enough extra bits that one sticky
    bit decides the rounding, which [binary_normalize] then performs. *)
Definition of_ratio (neg : bool) (num den : Z) : float :=
  if (num =? 0)%Z then (if neg then neg_zero else zero)
  else
    let s := Z.max 0 (60 + Z.log2 den - Z.log2 num) in
    let n := Z.shiftl num s in
    let sticky := if (n mod den =? 0)%Z then 0%Z else 1%Z in
    SF2Prim (binary_normalize prec emax
               (cond_Zopp neg (2 * (n / den) + sticky)) (- s - 1) neg).

(** A source literal denotes the nearest double, as in ECMAScript. *)
Definition of_lit (l : Lit) : float :=
  let m := lit_mant l in
  let e := lit_expo l in
  if (0 <=? e)%Z then of_ratio (m <? 0)%Z (Z.abs m * 10 ^ e) 1
  else of_ratio (m <? 0)%Z (Z.abs m) (10 ^ (- e)).

Definition of_Z (z : Z) : float := of_ratio (z <? 0)%Z (Z.abs z) 1.

Definition of_nat (n : nat) : float := of_Z (Z.of_nat n).

(** Integer part (towards zero) of a finite float; 0 on NaN and infinities. *)
Definition trunc_Z (f : float) : Z :=
  match Prim2SF f with
  | S754_finite s m e => cond_Zopp s (Z.shiftl (Zpos m) e)
  | _ => 0%Z
  end.

Definition is_integer (f : float) : bool :=
  is_finite f && (of_Z (trunc_Z f) =? f).

Definition is_odd_integer (f : float) : bool :=
  is_integer f && Z.odd (trunc_Z f).

(** ** [Math.max], [Math.min] (ECMAScript 21.3.2.24/25): NaN if an argument
    is NaN, and [+0] counts as larger than [-0]. *)
Definition max (x y : float) : float :=
  if is_nan x || is_nan y then nan
  else if x <? y then y
  else if y <? x then x
  else if is_zero x && get_sign x then y else x.

Definition min (x y : float) : float :=
  if is_nan x || is_nan y then nan
  else if x <? y then x
  else if y <? x then y
  else if is_zero x && get_sign x then x else y.

(** ** [Math.exp], [Math.log], [Math.sin], [Math.pow]

    ECMAScript fixes these functions at their special points (NaN, the
    zeros, the infinities, domain errors) and leaves the other values
    "implementation-approximated".  The definitions below take the fixed
    points from the standard and, elsewhere, a fixed approximation by
    argument reduction and a truncated series, accurate to a few units in
    the last place.  Results on which a statement below relies at a
    particular input only use the fixed points. *)

Definition ln2_hi : float := of_lit 6.93147180369123816490e-01%js.
Definition ln2_lo : float := of_lit 1.90821492927058770002e-10%js.
Definition inv_ln2 : float := of_lit 1.44269504088896338700e+00%js.

Definition round_Z (t : float) : Z :=
  trunc_Z (if t <? 0 then t - 0.5 else t + 0.5).

(** [1 + r/1 (1 + r/2 (1 + ... (1 + r/n)))], the Taylor polynomial of exp. *)
Fixpoint exp_series (r : float) (i : nat) (n : nat) : float :=
  match n with
  | O => 1
  | S n' => 1 + r / F64.of_nat i * exp_series r (S i) n'
  end.

Definition exp (x : float) : float :=
  if is_nan x then nan
  else if x =? 0 then 1
  else if x =? infinity then infinity
  else if x =? neg_infinity then 0
  else if of_lit 709.782712893384%js <? x then infinity
  else if x <? of_lit (-745.1332191019412)%js then 0
  else
    let k := round_Z (x * inv_ln2) in
    let kf := of_Z k in
    let r := (x - kf * ln2_hi) - kf * ln2_lo in
    Z.ldexp (exp_series r 1 16) k.

(** [1/(2i+1) + s2 (1/(2i+3) + ...)], the series of [atanh s / s]. *)
Fixpoint atanh_series (s2 : float) (i : nat) (n : nat) : float :=
  match n with
  | O => 0
  | S n' => 1 / F64.of_nat (2 * i + 1) + s2 * atanh_series s2 (S i) n'
  end.

Definition log (x : float) : float :=
  if is_nan x then nan
  else if x <? 0 then nan
  else if x =? 0 then neg_infinity
  else if x =? infinity then infinity
  else
    let (m0, e0) := Z.frexp x in
    let (m, e) := if m0 <? of_lit 0.70710678118654752%js then (2 * m0, (e0 - 1)%Z)
                  else (m0, e0) in
    let f := m - 1 in
    let s := f / (2 + f) in
    let ef := of_Z e in
    ef * ln2_hi + (2 * s * atanh_series (s * s) 0 14 + ef * ln2_lo).

Definition pi_hi : float := of_lit 3.141592653589793%js.
Definition half_pi_hi : float := of_lit 1.5707963267341256%js.
Definition half_pi_lo : float := of_lit 6.077100506506192e-11%js.

(** Alternating Taylor series: [1 - r2/(i(i+1)) (1 - r2/((i+2)(i+3)) ...)]. *)
Fixpoint trig_series (r2 : float) (i : nat) (n : nat) : float :=
  match n with
  | O => 1
  | S n' => 1 - r2 / F64.of_nat (i * (i + 1)) * trig_series r2 (i + 2) n'
  end.

Definition sin (x : float) : float :=
  if is_nan x || is_infinity x then nan
  else if x =? 0 then x
  else
    let k := round_Z (x / (half_pi_hi + half_pi_lo)) in
    let kf := of_Z k in
    let r := (x - kf * half_pi_hi) - kf * half_pi_lo in
    let r2 := r * r in
    let s := r * trig_series r2 2 10 in
    let c := trig_series r2 1 10 in
    match (k mod 4)%Z with
    | 0%Z => s
    | 1%Z => c
    | 2%Z => - s
    | _ => - c
    end.

(** [x ^ n] by repeated squaring, for a small non-negative integer [n]. *)
Fixpoint pow_pos (x : float) (n : positive) : float :=
  match n with
  | xH => x
  | xO n' => let y := pow_pos x n' in y * y
  | xI n' => let y := pow_pos x n' in x * (y * y)
  end.

(** [Number::exponentiate] (ECMAScript 6.1.6.1.3): the special cases in the
    standard's order, then the approximated general case. *)
Definition pow (x y : float) : float :=
  if is_nan y then nan
  else if y =? 0 then 1
  else if is_nan x then nan
  else if x =? infinity then (if 0 <? y then infinity else 0)
  else if x =? neg_infinity then
    (if 0 <? y then (if is_odd_integer y then neg_infinity else infinity)
     else (if is_odd_integer y then neg_zero else 0))
  else if x =? 0 then
    (if get_sign x then
       (if 0 <? y then (if is_odd_integer y then neg_zero else 0)
        else (if is_odd_integer y then neg_infinity else infinity))
     else (if 0 <? y then 0 else infinity))
  else if y =? infinity then
    (if 1 <? abs x then infinity else if abs x =? 1 then nan else 0)
  else if y =? neg_infinity then
    (if 1 <? abs x then 0 else if abs x =? 1 then nan else infinity)
  else if (x <? 0) && negb (is_integer y) then nan
  else if is_integer y && (abs y <=? 64) then
    match trunc_Z y with
    | Zpos n => pow_pos x n
    | Zneg n => 1 / pow_pos x n
    | Z0 => 1
    end
  else
    let m := exp (y * log (abs x)) in
    if (x <? 0) && is_odd_integer y then - m else m.

End F64.

(** JavaScript numbers as they are: binary64, round to nearest even. *)
#[global] Instance Float64 : JSNumber := {|
  number := float;
  of_lit := F64.of_lit;
  of_nat := F64.of_nat;
  num_add := PrimFloat.add;
  num_sub := PrimFloat.sub;
  num_mul := PrimFloat.mul;
  num_div := PrimFloat.div;
  num_neg := PrimFloat.opp;
  num_lt := PrimFloat.ltb;
  num_le := PrimFloat.leb;
  num_eq := PrimFloat.eqb;
  isNaN := PrimFloat.is_nan;
  Math_abs := PrimFloat.abs;
  Math_sqrt := PrimFloat.sqrt;
  Math_exp := F64.exp;
  Math_log := F64.log;
  Math_sin := F64.sin;
  Math_pow := F64.pow;
  Math_max := F64.max;
  Math_min := F64.min;
  Math_PI := F64.pi_hi;
|}.

(** The non-finite numbers, which only binary64 has. *)
Class JSNonFinite (N : JSNumber) : Type := {
  Infinity : number;
  NaN : number;
}.

#[global] Instance Float64_nonfinite : JSNonFinite Float64 := {|
  Infinity := PrimFloat.infinity;
  NaN := PrimFloat.nan;
|}.

(** [Number.prototype.toFixed] and the conversion [`${x}`] of a number in a
    template string, used by the warning and interpretation strings. *)
Class JSFormat (N : JSNumber) : Type := {
  toFixed : number -> nat -> string;
  numberToString : number -> string;
}.

(** The functions the sources import from the [simple-statistics] package
    ([import * as ss from 'simple-statistics']).  The package is not part of
    this repository: the embedding takes it as an interface, and
    [SimpleStatistics7] below gives the instance used for evaluation. *)
Class SimpleStatistics (N : JSNumber) : Type := {
  ss_mean : list number -> number;
  ss_sampleVariance : list number -> number;
  ss_sampleStandardDeviation : list number -> number;
  ss_min : list number -> number;
  ss_max : list number -> number;
  ss_quantile : list number -> number -> number;
}.

(** A default parameter value ([f(x, alpha = 0.05)]) and the [??] operator:
    an absent argument is [None]. *)
Definition orDefault {A : Type} (o : option A) (d : A) : A :=
  match o with
  | Some x => x
  | None => d
  end.

(* ================================================================== *)
(** * src/types.ts *)
(* ================================================================== *)

Inductive Verdict : Set :=
  | significant | not_significant | insufficient_data | data_quality_issue.

Inductive Recommendation : Set := proceed | caution | use_nonparametric.

Inductive EffectSizeLabel : Set := negligible | small | medium | large.

Inductive DataQuality : Set := good | acceptable | poor.

Inductive TestUsed : Set := welch_t_test | mann_whitney_u.

Section Types.
Context {N : JSNumber}.

Record WelchTestResult : Type := {
  w_t : number;
  w_df : number;
  w_pValue : number;
  w_significant : bool;
  w_effectSize : number;
  w_effectSizeLabel : EffectSizeLabel;
  w_meanDiff : number;
  w_ci95 : number * number;
}.

Record MannWhitneyResult : Type := {
  mw_U : number;
  mw_pValue : number;
  mw_significant : bool;
  mw_effectSize : number;
  mw_effectSizeLabel : EffectSizeLabel;
}.

Record NormalityTestResult : Type := {
  nt_W : number;
  nt_pValue : number;
  nt_isNormal : bool;
  nt_interpretation : string;
  nt_n : nat;
}.

(** [count] and the [indices] are array lengths and positions: naturals. *)
Record OutlierResult : Type := {
  o_indices : list nat;
  o_values : list number;
  o_cleaned : list number;
  o_count : nat;
  o_tooMany : bool;
  o_zScores : list number;
}.

Record SampleDiagnostics : Type := {
  sd_n : nat;
  sd_mean : number;
  sd_stdDev : number;
  sd_min : number;
  sd_max : number;
  sd_outliers : OutlierResult;
  sd_normality : NormalityTestResult;
}.

Record DiagnosticsResult : Type := {
  dr_sample : SampleDiagnostics;
  dr_recommendation : Recommendation;
  dr_summary : string;
}.

(** [DiagnosticsConfig] *)
Record DiagnosticsConfig : Type := {
  dc_outlierThreshold : option number;
}.

Record Evidence : Type := {
  ev_meanA : number;
  ev_meanB : number;
  ev_difference : number;
  ev_differencePercent : number;
  ev_pValue : number;
  ev_testStatistic : number;
  ev_degreesOfFreedom : number;
  ev_effectSize : number;
  ev_effectSizeLabel : EffectSizeLabel;
  ev_ci95 : option (number * number);
  ev_testUsed : TestUsed;
}.

Record ComparisonDiagnostics : Type := {
  cd_sampleA : SampleDiagnostics;
  cd_sampleB : SampleDiagnostics;
  cd_overallQuality : DataQuality;
  cd_warnings : list string;
}.

(** [Required<CompareConfig>]: the configuration with its defaults filled. *)
Record FullConfig : Type := {
  practicalThreshold : number;
  alpha : number;
  effectSizeMinimum : number;
  outlierThreshold : number;
  labels : string * string;
}.

(** [CompareConfig]: every field but [practicalThreshold] is optional. *)
Record CompareConfig : Type := {
  cfg_practicalThreshold : number;
  cfg_alpha : option number;
  cfg_effectSizeMinimum : option number;
  cfg_outlierThreshold : option number;
  cfg_labels : option (string * string);
}.

Record CompareResult : Type := {
  verdict : Verdict;
  recommendation : Recommendation;
  evidence : Evidence;
  diagnostics : ComparisonDiagnostics;
  interpretation : string;
  config : FullConfig;
}.

End Types.

(* ================================================================== *)
(** * src/core/welch-t-test.ts *)
(* ================================================================== *)

Module Welch.
Section Welch.
Context {N : JSNumber} {NF : JSNonFinite N} {SS : SimpleStatistics N}.
Local Open Scope js_scope.

(** ** Special functions

    [erf], [normalCDF] and [normalQuantile] are repeated verbatim in
    mann-whitney.ts and normality.ts; the three copies are this one. *)

Definition erf (x : number) : number :=
  let sign : number := if x >=? 0 then 1 else -1 in
  let x := Math_abs x in
  let a1 : number := 0.254829592 in
  let a2 : number := -0.284496736 in
  let a3 : number := 1.421413741 in
  let a4 : number := -1.453152027 in
  let a5 : number := 1.061405429 in
  let p : number := 0.3275911 in
  let t := 1.0 / (1.0 + p * x) in
  let y := 1.0 - (((((a5 * t + a4) * t) + a3) * t + a2) * t + a1) * t
                 * Math_exp (- x * x) in
  sign * y.

Definition normalCDF (x : number) : number :=
  0.5 * (1 + erf (x / Math_sqrt 2)).

(** The rational approximation on [(0, 0.5]], the body of [normalQuantile]
    below its three guards. *)
Definition normalQuantile_lower (p : number) : number :=
  let t := Math_sqrt (-2 * Math_log p) in
  let c0 : number := 2.515517 in
  let c1 : number := 0.802853 in
  let c2 : number := 0.010328 in
  let d1 : number := 1.432788 in
  let d2 : number := 0.189269 in
  let d3 : number := 0.001308 in
  - (t - (c0 + c1 * t + c2 * t * t) / (1 + d1 * t + d2 * t * t + d3 * t * t * t)).

(** [normalQuantile] calls itself once, on [1 - p], when [p > 0.5].  The
    inner call is written out with its two boundary guards; its third test
    cannot succeed, [1 - p] not being above [0.5] when [p] is. *)
Definition normalQuantile (p : number) : number :=
  if p <=? 0 then - Infinity
  else if p >=? 1 then Infinity
  else if p >? 0.5 then
    let q := 1 - p in
    - (if q <=? 0 then - Infinity
       else if q >=? 1 then Infinity
       else normalQuantile_lower q)
  else normalQuantile_lower p.

Definition lanczos_coefficients : list number :=
  [ 0.99999999999980993 : number;
    676.5203681218851 : number;
    -1259.1392167224028 : number;
    771.32342877765313 : number;
    -176.61502916214059 : number;
    12.507343278686905 : number;
    -0.13857109526572012 : number;
    9.9843695780195716e-6 : number;
    1.5056327351493116e-7 : number ].

(** The Lanczos sum, the part of [logGamma] after the reflection test:
    [a] starts at the first coefficient and takes [coefficients[i]/(x+i)]
    for [i = 1 .. g+1]. *)
Definition logGamma_lanczos (x : number) : number :=
  let g : number := 7 in
  let x := x - 1 in
  let a :=
    fold_left (fun a ic => a + snd ic / (x + of_nat (fst ic)))
              (combine (seq 1 8) (tl lanczos_coefficients))
              (hd (0 : number) lanczos_coefficients) in
  let t := x + g + 0.5 in
  0.5 * Math_log (2 * Math_PI) + (x + 0.5) * Math_log t - t + Math_log a.

(** [logGamma] calls itself once, on [1 - x], when [x < 0.5].  The inner
    call cannot reflect again: [1 - x] is not below [0.5] when [x] is (the
    subtraction rounds monotonically), so it is the Lanczos sum. *)
Definition logGamma (x : number) : number :=
  if x <? 0.5 then
    Math_log (Math_PI / Math_sin (Math_PI * x)) - logGamma_lanczos (1 - x)
  else logGamma_lanczos x.

(** One pass of the loop of [betaCF], [m] counting from 1; [fuel] is the
    number of passes left out of [maxIter = 100]. *)
Fixpoint betaCF_loop (fuel m : nat) (x a b c d h : number) : number :=
  match fuel with
  | O => h
  | S fuel' =>
      let eps : number := 1e-10 in
      let qab := a + b in
      let qap := a + 1 in
      let qam := a - 1 in
      let mm := of_nat m in
      let m2 := 2 * mm in
      let aa := mm * (b - mm) * x / ((qam + m2) * (a + m2)) in
      let d := 1 + aa * d in
      let d := if Math_abs d <? eps then eps else d in
      let c := 1 + aa / c in
      let c := if Math_abs c <? eps then eps else c in
      let d := 1 / d in
      let h := h * (d * c) in
      let aa := - (a + mm) * (qab + mm) * x / ((a + m2) * (qap + m2)) in
      let d := 1 + aa * d in
      let d := if Math_abs d <? eps then eps else d in
      let c := 1 + aa / c in
      let c := if Math_abs c <? eps then eps else c in
      let d := 1 / d in
      let del := d * c in
      let h := h * del in
      if Math_abs (del - 1) <? eps then h
      else betaCF_loop fuel' (S m) x a b c d h
  end.

Definition betaCF (x a b : number) : number :=
  let maxIter := 100%nat in
  let eps : number := 1e-10 in
  let qab := a + b in
  let qap := a + 1 in
  let c : number := 1 in
  let d := 1 - qab * x / qap in
  let d := if Math_abs d <? eps then eps else d in
  let d := 1 / d in
  let h := d in
  betaCF_loop maxIter 1 x a b c d h.

Definition incompleteBeta (x a b : number) : number :=
  if x === 0 then 0
  else if x === 1 then 1
  else
    let bt := Math_exp (logGamma (a + b) - logGamma a - logGamma b
                        + a * Math_log x + b * Math_log (1 - x)) in
    if x <? (a + 1) / (a + b + 2) then bt * betaCF x a b / a
    else 1 - bt * betaCF (1 - x) b a / b.

(** ** t-distribution *)

Definition tDistPDF (t df : number) : number :=
  let coef := Math_exp (logGamma ((df + 1) / 2) - logGamma (df / 2)
                        - 0.5 * Math_log (df * Math_PI)) in
  coef * Math_pow (1 + (t * t) / df) (- (df + 1) / 2).

Definition tDistCDF (t df : number) : number :=
  if df >? 200 then normalCDF t
  else
    let x := df / (df + t * t) in
    let a := df / 2 in
    let b : number := 0.5 in
    let beta := incompleteBeta x a b in
    if t >=? 0 then 1 - beta / 2 else beta / 2.

(** The Newton-Raphson loop of [tDistQuantile]: at most [fuel] passes, left
    early when the density underflows. *)
Fixpoint tDistQuantile_loop (fuel : nat) (p df x : number) : number :=
  match fuel with
  | O => x
  | S fuel' =>
      let cdf := tDistCDF x df in
      let pdf := tDistPDF x df in
      if pdf <? 1e-10 then x
      else tDistQuantile_loop fuel' p df (x - (cdf - p) / pdf)
  end.

Definition tDistQuantile (p df : number) : number :=
  if df >? 200 then normalQuantile p
  else tDistQuantile_loop 10 p df (normalQuantile p).

(** ** The test *)

Definition getEffectSizeLabel (d : number) : EffectSizeLabel :=
  let absD := Math_abs d in
  if absD <? 0.2 then negligible
  else if absD <? 0.5 then small
  else if absD <? 0.8 then medium
  else large.

Definition welchTTest (sampleA sampleB : list number) (alpha : option number)
  : WelchTestResult :=
  let alpha := orDefault alpha (0.05 : number) in
  let n1 := of_nat (List.length sampleA) in
  let n2 := of_nat (List.length sampleB) in
  let m1 := ss_mean sampleA in
  let m2 := ss_mean sampleB in
  let v1 := ss_sampleVariance sampleA in
  let v2 := ss_sampleVariance sampleB in
  let se := Math_sqrt (v1 / n1 + v2 / n2) in
  let t := (m1 - m2) / se in
  let num := Math_pow (v1 / n1 + v2 / n2) 2 in
  let denom := Math_pow (v1 / n1) 2 / (n1 - 1) + Math_pow (v2 / n2) 2 / (n2 - 1) in
  let df := num / denom in
  let pValue := 2 * (1 - tDistCDF (Math_abs t) df) in
  let pooledStd := Math_sqrt (((n1 - 1) * v1 + (n2 - 1) * v2) / (n1 + n2 - 2)) in
  let effectSize := (m1 - m2) / pooledStd in
  let tCrit := tDistQuantile (1 - alpha / 2) df in
  let meanDiff := m1 - m2 in
  let ci95 := (meanDiff - tCrit * se, meanDiff + tCrit * se) in
  {| w_t := t;
     w_df := df;
     w_pValue := pValue;
     w_significant := pValue <? alpha;
     w_effectSize := effectSize;
     w_effectSizeLabel := getEffectSizeLabel effectSize;
     w_meanDiff := meanDiff;
     w_ci95 := ci95 |}.

End Welch.
End Welch.

(* ================================================================== *)
(** * Arrays *)
(* ================================================================== *)

(** [Array.prototype.sort(comparefn)].  ECMAScript requires the sort to be
    stable and leaves the order open only for inconsistent comparators; for
    a consistent one every stable sort returns the same array, here the one
    of insertion sort.  As in [SortCompare], a comparator result that is not
    above zero (NaN included) leaves the earlier element first. *)
Section ArraySort.
Context {N : JSNumber} {A : Type}.
Variable comparefn : A -> A -> number.
Local Open Scope js_scope.

Fixpoint sort_insert (x : A) (l : list A) : list A :=
  match l with
  | [] => [x]
  | y :: l' => if comparefn x y >? 0 then y :: sort_insert x l' else x :: l
  end.

Fixpoint Array_sort (l : list A) : list A :=
  match l with
  | [] => []
  | x :: l' => sort_insert x (Array_sort l')
  end.

End ArraySort.

(** [arr.join(', ')] *)
Fixpoint join (sep : string) (l : list string) : string :=
  match l with
  | [] => EmptyString
  | [s] => s
  | s :: l' => (s ++ sep ++ join sep l')%string
  end.

(** [`${n}`] for a length, a count or an index. *)
Definition string_of_nat (n : nat) : string :=
  DecimalString.NilZero.string_of_uint (Nat.to_uint n).

(* ================================================================== *)
(** * src/core/mann-whitney.ts *)
(* ================================================================== *)

Module MannWhitney.
Section MannWhitney.
Context {N : JSNumber}.
Local Open Scope js_scope.

Inductive Group : Set := A | B.

(** The inner [while] of [assignRanks]: how far [j] advances over values
    [===] to [currentValue]. *)
Fixpoint tie_run (currentValue : number) (values : list number) : nat :=
  match values with
  | v :: values' =>
      if v === currentValue then S (tie_run currentValue values') else O
  | [] => O
  end.

(** The outer [while] of [assignRanks], at position [i] with [rest] the
    values from [i] on.  A pass that does not advance ([j = i], which
    happens when [values[i]] is NaN) repeats for ever in the source: the
    fuel then runs out and the result is [None]. *)
Fixpoint assignRanks_loop (fuel i : nat) (rest : list number)
  : option (list number) :=
  match rest with
  | [] => Some []
  | currentValue :: _ =>
      match fuel with
      | O => None
      | S fuel' =>
          let run := tie_run currentValue rest in
          let j := (i + run)%nat in
          let avgRank := of_nat (i + 1 + j) / 2 in
          match assignRanks_loop fuel' j (skipn run rest) with
          | Some ranks => Some (repeat avgRank run ++ ranks)
          | None => None
          end
      end
  end.

Definition assignRanks (values : list number) : option (list number) :=
  assignRanks_loop (List.length values) 0 values.

Definition getEffectSizeLabelRankBiserial (r : number) : EffectSizeLabel :=
  let absR := Math_abs r in
  if absR <? 0.1 then negligible
  else if absR <? 0.3 then small
  else if absR <? 0.5 then medium
  else large.

Definition normalCDF := @Welch.normalCDF N.

(** The rank sums [R1] and [R2], accumulated in array order. *)
Definition rankSums (combined : list (number * Group)) (ranks : list number)
  : number * number :=
  fold_left
    (fun (R : number * number) (ir : (number * Group) * number) =>
       let '(item, rank) := ir in
       match snd item with
       | A => (fst R + rank, snd R)
       | B => (fst R, snd R + rank)
       end)
    (combine combined ranks) (0 : number, 0 : number).

(** [mannWhitneyU] from the ranking on: [combined] is the sorted array of
    tagged values, [values] the array [combined.map(c => c.value)], [n1]
    and [n2] the two sample sizes. *)
Definition mannWhitneyU_ranked (n1 n2 alpha : number)
  (combined : list (number * Group)) (values : list number)
  : option MannWhitneyResult :=
  match assignRanks values with
  | None => None
  | Some ranks =>
      let '(R1, R2) := rankSums combined ranks in
      let U1 := R1 - (n1 * (n1 + 1)) / 2 in
      let U2 := R2 - (n2 * (n2 + 1)) / 2 in
      let U := Math_min U1 U2 in
      let meanU := (n1 * n2) / 2 in
      let stdU := Math_sqrt ((n1 * n2 * (n1 + n2 + 1)) / 12) in
      let z := (U - meanU + 0.5) / stdU in
      let pValue := 2 * normalCDF (- Math_abs z) in
      let effectSize := 1 - (2 * U) / (n1 * n2) in
      Some {| mw_U := U;
              mw_pValue := pValue;
              mw_significant := pValue <? alpha;
              mw_effectSize := effectSize;
              mw_effectSizeLabel := getEffectSizeLabelRankBiserial effectSize |}
  end.

Definition mannWhitneyU (sampleA sampleB : list number)
  (alpha : option number) : option MannWhitneyResult :=
  let alpha := orDefault alpha (0.05 : number) in
  let n1 := of_nat (List.length sampleA) in
  let n2 := of_nat (List.length sampleB) in
  let combined :=
    map (fun value => (value, A)) sampleA ++
    map (fun value => (value, B)) sampleB in
  let combined := Array_sort (fun a b => fst a - fst b) combined in
  mannWhitneyU_ranked n1 n2 alpha combined (map fst combined).

End MannWhitney.
End MannWhitney.

(* ================================================================== *)
(** * src/core/normality.ts *)
(* ================================================================== *)

Module Normality.
Section Normality.
Context {N : JSNumber} {NF : JSNonFinite N} {F : JSFormat N}
        {SS : SimpleStatistics N}.
Local Open Scope js_scope.

Definition normalCDF := @Welch.normalCDF N.
Definition normalQuantile := @Welch.normalQuantile N NF.

(** Calculate p-value for Shapiro-Wilk W statistic (Royston 1992). *)
Definition shapiroWilkPValue (W : number) (n : nat) : number :=
  let nn := of_nat n in
  if W >=? 1 then 1
  else if W <=? 0 then 0
  else
    let finish (z : number) : number :=
      let pValue := 1 - normalCDF z in
      Math_max 0 (Math_min 1 pValue) in
    if (n <=? 11)%nat then
      let gamma := 0.459 * nn - 2.273 in
      let inner := gamma - Math_log (1 - W) in
      if inner <=? 0 then 0
      else
        let w := - Math_log inner in
        let mu := -0.0006714 * nn ** 3 + 0.025054 * nn ** 2 - 0.39978 * nn
                  + 0.5440 in
        let sigma := Math_exp (-0.0020322 * nn ** 3 + 0.062767 * nn ** 2
                               - 0.77857 * nn + 1.3822) in
        finish ((w - mu) / sigma)
    else
      let logN := Math_log nn in
      if W >=? 1 then 1
      else
        let w := Math_log (1 - W) in
        let mu := 0.0038915 * logN ** 3 - 0.083751 * logN ** 2
                  - 0.31082 * logN - 1.5861 in
        let sigma := Math_exp (0.0030302 * logN ** 2 - 0.082676 * logN
                               - 0.4803) in
        finish ((w - mu) / sigma).

(** Approximate Shapiro-Wilk coefficients from Blom's order statistics. *)
Definition approximateCoefficients (n : nat) : list number :=
  let halfN := Nat.div2 n in
  let m := map (fun i => normalQuantile ((of_nat i - 0.375) / (of_nat n + 0.25)))
               (seq 1 n) in
  let mSumSq := fold_left (fun sum mi => sum + mi * mi) m (0 : number) in
  let mNorm := Math_sqrt mSumSq in
  let a :=
    flat_map (fun i =>
                match nth_error m i, nth_error m (n - 1 - i) with
                | Some mLow, Some mHigh => [(mHigh - mLow) / (2 * mNorm)]
                | _, _ => []
                end)
             (seq 0 halfN) in
  let aSumSq := fold_left (fun sum ai => sum + ai * ai) a (0 : number) in
  let aNorm := Math_sqrt aSumSq in
  if aNorm >? 0 then map (fun ai => ai / aNorm) a else a.

(** Tabulated coefficients for [3 <= n <= 11], the approximation beyond. *)
Definition getShapiroWilkCoefficients (n : nat) : list number :=
  match n with
  | 3%nat => [0.7071 : number]
  | 4%nat => [0.6872 : number; 0.1677 : number]
  | 5%nat => [0.6646 : number; 0.2413 : number]
  | 6%nat => [0.6431 : number; 0.2806 : number; 0.0875 : number]
  | 7%nat => [0.6233 : number; 0.3031 : number; 0.1401 : number]
  | 8%nat => [0.6052 : number; 0.3164 : number; 0.1743 : number;
              0.0561 : number]
  | 9%nat => [0.5888 : number; 0.3244 : number; 0.1976 : number;
              0.0947 : number]
  | 10%nat => [0.5739 : number; 0.3291 : number; 0.2141 : number;
               0.1224 : number; 0.0399 : number]
  | 11%nat => [0.5601 : number; 0.3315 : number; 0.2260 : number;
               0.1429 : number; 0.0695 : number]
  | _ => approximateCoefficients n
  end.

(** The numerator sum [b] over the first [floor(n/2)] pairs. *)
Definition pairSum (a sorted : list number) (n : nat) : number :=
  fold_left
    (fun b i =>
       match nth_error a i, nth_error sorted (n - 1 - i), nth_error sorted i with
       | Some ai, Some xHigh, Some xLow => b + ai * (xHigh - xLow)
       | _, _, _ => b
       end)
    (seq 0 (Nat.div2 n)) (0 : number).

(** [shapiroWilkTest] from the sorted copy on. *)
Definition shapiroWilkTest_sorted (n : nat) (sorted : list number)
  : NormalityTestResult :=
  let mean := ss_mean sorted in
  let sumSquaredDev :=
    fold_left (fun sum x => sum + (x - mean) ** 2) sorted (0 : number) in
  if sumSquaredDev <? 1e-10 then
    {| nt_W := 1; nt_pValue := 1; nt_isNormal := true;
       nt_interpretation := "All values identical - trivially normal";
       nt_n := n |}
  else
    let a := getShapiroWilkCoefficients n in
    let b := pairSum a sorted n in
    let W := (b * b) / sumSquaredDev in
    let W := Math_max 0 (Math_min 1 W) in
    let pValue := shapiroWilkPValue W n in
    let isNormal := pValue >=? 0.05 in
    let stats :=
      ("(W=" ++ toFixed W 4 ++ ", p=" ++ toFixed pValue 4 ++ ")")%string in
    let interpretation :=
      if pValue >=? 0.10 then
        ("Data appears normally distributed " ++ stats)%string
      else if pValue >=? 0.05 then
        ("Marginal normality " ++ stats ++ " - proceed with caution")%string
      else if pValue >=? 0.01 then
        ("Non-normal distribution " ++ stats
         ++ " - consider non-parametric test")%string
      else
        ("Strongly non-normal " ++ stats
         ++ " - use non-parametric test")%string in
    {| nt_W := W; nt_pValue := pValue; nt_isNormal := isNormal;
       nt_interpretation := interpretation; nt_n := n |}.

(** The two early returns of [shapiroWilkTest], taken before any copy. *)
Definition shapiroWilkTest_guard (n : nat) : option NormalityTestResult :=
  if (n <? 3)%nat then
    Some {| nt_W := 1; nt_pValue := 1; nt_isNormal := true;
            nt_interpretation :=
              "Insufficient data (n < 3) - cannot test normality";
            nt_n := n |}
  else if (5000 <? n)%nat then
    Some {| nt_W := 0; nt_pValue := 0; nt_isNormal := false;
            nt_interpretation :=
              "Sample too large (n > 5000) - Shapiro-Wilk not applicable";
            nt_n := n |}
  else None.

Definition shapiroWilkTest (samples : list number) : NormalityTestResult :=
  let n := List.length samples in
  match shapiroWilkTest_guard n with
  | Some result => result
  | None =>
      let sorted := Array_sort (fun a b => a - b) samples in
      shapiroWilkTest_sorted n sorted
  end.

End Normality.
End Normality.

(* ================================================================== *)
(** * src/core/outliers.ts *)
(* ================================================================== *)

Module Outliers.
Section Outliers.
Context {N : JSNumber} {NF : JSNonFinite N} {SS : SimpleStatistics N}.
Local Open Scope js_scope.

(** The [forEach] that splits a sample: [flagged index sample] decides, a
    flagged element is pushed on [indices] and [values], another on
    [cleaned].  The state is [(indices, values, cleaned)]. *)
Definition splitOutliers (flagged : nat -> number -> bool)
  (samples : list number) : list nat * list number * list number :=
  fold_left
    (fun (st : list nat * list number * list number) (item : nat * number) =>
       let '(indices, values, cleaned) := st in
       let '(index, sample) := item in
       if flagged index sample
       then (indices ++ [index], values ++ [sample], cleaned)
       else (indices, values, cleaned ++ [sample]))
    (combine (seq 0 (List.length samples)) samples) ([], [], []).

(** The early return of [detectOutliers]: no outlier, [cleaned] a copy of
    the input ([[...samples]]), a zero for every element
    ([samples.map(() => 0)]). *)
Definition noOutliers (cleaned zScores : list number) : OutlierResult :=
  {| o_indices := []; o_values := []; o_cleaned := cleaned;
     o_count := 0; o_tooMany := false; o_zScores := zScores |}.

(** [detectOutliers] from the z-scores on. *)
Definition detectOutliers_scored (samples zScores : list number)
  (threshold : number) : OutlierResult :=
  let '(indices, values, cleaned) :=
    splitOutliers
      (fun index _ =>
         match nth_error zScores index with
         | Some z => Math_abs z >? threshold
         | None => false
         end)
      samples in
  {| o_indices := indices; o_values := values; o_cleaned := cleaned;
     o_count := List.length indices;
     o_tooMany :=
       of_nat (List.length indices) / of_nat (List.length samples) >? 0.1;
     o_zScores := zScores |}.

(** Detect outliers using the z-score (standard deviation) method. *)
Definition detectOutliers (samples : list number) (threshold : option number)
  : OutlierResult :=
  let threshold := orDefault threshold (2.5 : number) in
  if (List.length samples <? 3)%nat then
    noOutliers samples (map (fun _ => 0 : number) samples)
  else
    let mean := ss_mean samples in
    let stdDev := ss_sampleStandardDeviation samples in
    if stdDev <? 1e-10 then
      noOutliers samples (map (fun _ => 0 : number) samples)
    else
      let zScores := map (fun s => (s - mean) / stdDev) samples in
      detectOutliers_scored samples zScores threshold.

(** IQR-based outlier result ([Omit<OutlierResult, 'zScores'>] extended). *)
Record IQROutlierResult : Type := {
  iqr_indices : list nat;
  iqr_values : list number;
  iqr_cleaned : list number;
  iqr_count : nat;
  iqr_tooMany : bool;
  iqr_Q1 : number;
  iqr_Q3 : number;
  iqr_IQR : number;
  iqr_lowerFence : number;
  iqr_upperFence : number;
}.

(** The early return of the detectors on a short sample; [cleaned] is a
    copy of the input. *)
Definition detectOutliersIQR_short (samples cleaned : list number)
  : IQROutlierResult :=
  {| iqr_indices := []; iqr_values := []; iqr_cleaned := cleaned;
     iqr_count := 0; iqr_tooMany := false;
     iqr_Q1 := hd (0 : number) samples;
     iqr_Q3 := last samples (0 : number);
     iqr_IQR := 0;
     iqr_lowerFence := - Infinity;
     iqr_upperFence := Infinity |}.

(** [detectOutliersIQR] from the sorted copy on. *)
Definition detectOutliersIQR_sorted (samples sorted : list number)
  (multiplier : number) : IQROutlierResult :=
  let Q1 := ss_quantile sorted 0.25 in
  let Q3 := ss_quantile sorted 0.75 in
  let IQR := Q3 - Q1 in
  let lowerFence := Q1 - multiplier * IQR in
  let upperFence := Q3 + multiplier * IQR in
  let '(indices, values, cleaned) :=
    splitOutliers
      (fun _ sample => (sample <? lowerFence) || (sample >? upperFence))
      samples in
  {| iqr_indices := indices; iqr_values := values; iqr_cleaned := cleaned;
     iqr_count := List.length indices;
     iqr_tooMany :=
       of_nat (List.length indices) / of_nat (List.length samples) >? 0.1;
     iqr_Q1 := Q1; iqr_Q3 := Q3; iqr_IQR := IQR;
     iqr_lowerFence := lowerFence; iqr_upperFence := upperFence |}.

(** Detect outliers using the IQR (Tukey fence) method. *)
Definition detectOutliersIQR (samples : list number)
  (multiplier : option number) : IQROutlierResult :=
  let multiplier := orDefault multiplier (1.5 : number) in
  if (List.length samples <? 4)%nat then
    detectOutliersIQR_short samples samples
  else
    let sorted := Array_sort (fun a b => a - b) samples in
    detectOutliersIQR_sorted samples sorted multiplier.

Inductive Method : Set := z_score | iqr.

Record CombinedOutlierResult : Type := {
  co_zScore : OutlierResult;
  co_iqr : IQROutlierResult;
  co_recommended : Method;
  co_reason : string;
  co_outliers : list number;
}.

(** Detect outliers with both methods and recommend one. *)
Definition detectOutliersCombined (samples : list number)
  (zThreshold iqrMultiplier : option number) : CombinedOutlierResult :=
  let zThreshold := orDefault zThreshold (2.5 : number) in
  let iqrMultiplier := orDefault iqrMultiplier (1.5 : number) in
  let zScore := detectOutliers samples (Some zThreshold) in
  let iqr_ := detectOutliersIQR samples (Some iqrMultiplier) in
  let '(recommended, reason) :=
    if (o_count zScore =? 0)%nat && (0 <? iqr_count iqr_)%nat then
      (iqr,
       "Z-score method found no outliers but IQR did - possible masking effect"%string)
    else if (iqr_count iqr_ * 2 <? o_count zScore)%nat
            && (0 <? iqr_count iqr_)%nat then
      (iqr, "Z-score flagged many more values - data may be non-normal"%string)
    else if (List.length samples <? 20)%nat then
      (iqr, "Small sample size (n < 20) - IQR is more robust"%string)
    else
      (z_score, "Standard recommendation for larger samples"%string) in
  {| co_zScore := zScore; co_iqr := iqr_;
     co_recommended := recommended; co_reason := reason;
     co_outliers :=
       match recommended with
       | z_score => o_values zScore
       | iqr => iqr_values iqr_
       end |}.

End Outliers.
End Outliers.

(* ================================================================== *)
(** * src/diagnostics/sample-quality.ts *)
(* ================================================================== *)

Module SampleQuality.
Section SampleQuality.
Context {N : JSNumber} {NF : JSNonFinite N} {F : JSFormat N}
        {SS : SimpleStatistics N}.
Local Open Scope js_scope.

Definition detectOutliers := @Outliers.detectOutliers N SS.
Definition shapiroWilkTest := @Normality.shapiroWilkTest N NF F SS.

(** Determine recommendation based on outliers and normality. *)
Definition determineRecommendation (tooManyOutliers isNormal : bool)
  : Recommendation :=
  if tooManyOutliers then use_nonparametric
  else if negb isNormal then use_nonparametric
  else proceed.

(** [values.map(v => v.toFixed(1)).join(', ')] *)
Definition listValues (values : list number) : string :=
  join ", " (map (fun v => toFixed v 1) values).

(** Build human-readable summary. *)
Definition buildSummary (outliers : OutlierResult)
  (normality : NormalityTestResult) (recommendation : Recommendation)
  : string :=
  let part1 :=
    if (o_count outliers =? 0)%nat then "No outliers detected."%string
    else if o_tooMany outliers then
      ("Warning: " ++ string_of_nat (o_count outliers)
       ++ " outliers detected (>10% of data).")%string
    else
      (string_of_nat (o_count outliers) ++ " outlier(s) detected: ["
       ++ listValues (o_values outliers) ++ "].")%string in
  let part2 :=
    if nt_isNormal normality then "Data appears normally distributed."%string
    else
      ("Data deviates from normality (W=" ++ toFixed (nt_W normality) 3
       ++ ", p=" ++ toFixed (nt_pValue normality) 4 ++ ").")%string in
  let part3 :=
    match recommendation with
    | proceed => "Recommendation: Proceed with parametric test (t-test)."
    | caution =>
        "Recommendation: Proceed with caution, interpret results carefully."
    | use_nonparametric =>
        "Recommendation: Use non-parametric test (Mann-Whitney U)."
    end%string in
  join " " [part1; part2; part3].

(** Run full diagnostics on a single sample. *)
Definition runDiagnostics (samples : list number)
  (config : option DiagnosticsConfig) : DiagnosticsResult :=
  let config := orDefault config {| dc_outlierThreshold := None |} in
  let outlierThreshold := orDefault (dc_outlierThreshold config) (2.5 : number) in
  let n := List.length samples in
  if (n <? 3)%nat then
    {| dr_sample :=
         {| sd_n := n;
            sd_mean := if (0 <? n)%nat then ss_mean samples else 0;
            sd_stdDev :=
              if (1 <? n)%nat then ss_sampleStandardDeviation samples else 0;
            sd_min := if (0 <? n)%nat then ss_min samples else 0;
            sd_max := if (0 <? n)%nat then ss_max samples else 0;
            sd_outliers :=
              {| o_indices := []; o_values := []; o_cleaned := samples;
                 o_count := 0; o_tooMany := false; o_zScores := [] |};
            sd_normality :=
              {| nt_W := 1; nt_pValue := 1; nt_isNormal := true;
                 nt_interpretation := "Insufficient data (n < 3)";
                 nt_n := n |} |};
       dr_recommendation := caution;
       dr_summary :=
         ("Insufficient data (n=" ++ string_of_nat n
          ++ "). Need at least 3 observations for meaningful analysis.")%string |}
  else
    let mean := ss_mean samples in
    let stdDev := ss_sampleStandardDeviation samples in
    let min := ss_min samples in
    let max := ss_max samples in
    let outliers := detectOutliers samples (Some outlierThreshold) in
    let normality := shapiroWilkTest samples in
    let recommendation :=
      determineRecommendation (o_tooMany outliers) (nt_isNormal normality) in
    let summary := buildSummary outliers normality recommendation in
    {| dr_sample :=
         {| sd_n := n; sd_mean := mean; sd_stdDev := stdDev;
            sd_min := min; sd_max := max;
            sd_outliers := outliers; sd_normality := normality |};
       dr_recommendation := recommendation;
       dr_summary := summary |}.

(** Get sample diagnostics (without recommendation logic). *)
Definition getSampleDiagnostics (samples : list number)
  (outlierThreshold : option number) : SampleDiagnostics :=
  let outlierThreshold := orDefault outlierThreshold (2.5 : number) in
  let n := List.length samples in
  if (n =? 0)%nat then
    {| sd_n := 0; sd_mean := 0; sd_stdDev := 0; sd_min := 0; sd_max := 0;
       sd_outliers :=
         {| o_indices := []; o_values := []; o_cleaned := [];
            o_count := 0; o_tooMany := false; o_zScores := [] |};
       sd_normality :=
         {| nt_W := 1; nt_pValue := 1; nt_isNormal := true;
            nt_interpretation := "No data"; nt_n := 0 |} |}
  else
    {| sd_n := n;
       sd_mean := ss_mean samples;
       sd_stdDev :=
         if (1 <? n)%nat then ss_sampleStandardDeviation samples else 0;
       sd_min := ss_min samples;
       sd_max := ss_max samples;
       sd_outliers := detectOutliers samples (Some outlierThreshold);
       sd_normality := shapiroWilkTest samples |}.

End SampleQuality.
End SampleQuality.

(* ================================================================== *)
(** * src/compare.ts *)
(* ================================================================== *)

Module Compare.
Section Compare.
Context {N : JSNumber} {NF : JSNonFinite N} {F : JSFormat N}
        {SS : SimpleStatistics N}.
Local Open Scope js_scope.

(** The two tests [compare.ts] imports from [./core]. *)
Variable welchTTest :
  list number -> list number -> option number -> WelchTestResult.
Variable mannWhitneyU :
  list number -> list number -> option number -> option MannWhitneyResult.

Definition getSampleDiagnostics := @SampleQuality.getSampleDiagnostics N NF F SS.

Definition listValues := @SampleQuality.listValues N F.

(** Assess overall data quality from both samples.  The source pushes on
    [warnings] and reassigns [recommendation] in four steps; each step is
    one binding here. *)
Definition assessDataQuality (diagA diagB : SampleDiagnostics)
  (labels : string * string) : DataQuality * list string * Recommendation :=
  let warnings : list string := [] in
  let recommendation := proceed in
  (* Check outliers *)
  let '(warnings, recommendation) :=
    if o_tooMany (sd_outliers diagA) then
      (warnings ++
         [(fst labels ++ " has >10% outliers ("
           ++ string_of_nat (o_count (sd_outliers diagA)) ++ "/"
           ++ string_of_nat (sd_n diagA) ++ ").")%string],
       use_nonparametric)
    else if (0 <? o_count (sd_outliers diagA))%nat then
      (warnings ++
         [(fst labels ++ " has " ++ string_of_nat (o_count (sd_outliers diagA))
           ++ " outlier(s): [" ++ listValues (o_values (sd_outliers diagA))
           ++ "].")%string],
       match recommendation with proceed => caution | r => r end)
    else (warnings, recommendation) in
  let '(warnings, recommendation) :=
    if o_tooMany (sd_outliers diagB) then
      (warnings ++
         [(snd labels ++ " has >10% outliers ("
           ++ string_of_nat (o_count (sd_outliers diagB)) ++ "/"
           ++ string_of_nat (sd_n diagB) ++ ").")%string],
       use_nonparametric)
    else if (0 <? o_count (sd_outliers diagB))%nat then
      (warnings ++
         [(snd labels ++ " has " ++ string_of_nat (o_count (sd_outliers diagB))
           ++ " outlier(s): [" ++ listValues (o_values (sd_outliers diagB))
           ++ "].")%string],
       match recommendation with proceed => caution | r => r end)
    else (warnings, recommendation) in
  (* Check normality *)
  let '(warnings, recommendation) :=
    if negb (nt_isNormal (sd_normality diagA)) then
      (warnings ++
         [(fst labels ++ " deviates from normality (W="
           ++ toFixed (nt_W (sd_normality diagA)) 3 ++ ", p="
           ++ toFixed (nt_pValue (sd_normality diagA)) 4 ++ ").")%string],
       use_nonparametric)
    else (warnings, recommendation) in
  let '(warnings, recommendation) :=
    if negb (nt_isNormal (sd_normality diagB)) then
      (warnings ++
         [(snd labels ++ " deviates from normality (W="
           ++ toFixed (nt_W (sd_normality diagB)) 3 ++ ", p="
           ++ toFixed (nt_pValue (sd_normality diagB)) 4 ++ ").")%string],
       use_nonparametric)
    else (warnings, recommendation) in
  (* Determine overall quality *)
  let overallQuality :=
    match recommendation with
    | use_nonparametric => poor
    | caution => acceptable
    | proceed => good
    end in
  (overallQuality, warnings, recommendation).

(** Determine verdict using three-gate framework. *)
Definition determineVerdict (isStatisticallySignificant : bool)
  (absEffectSize absDifference : number) (config : FullConfig)
  (isRankBiserial : bool) : Verdict :=
  (* Gate 1: Statistical significance *)
  if negb isStatisticallySignificant then not_significant
  else
    (* Gate 2: Effect size *)
    let effectThreshold : number :=
      if isRankBiserial then 0.3 else effectSizeMinimum config in
    if absEffectSize <? effectThreshold then not_significant
    (* Gate 3: Practical significance *)
    else if absDifference <? practicalThreshold config then not_significant
    (* All gates passed *)
    else significant.

(** The record that [createInsufficientDataResult] returns, from the two
    diagnostics and the two lengths. *)
Definition insufficientDataResult (nA nB : nat)
  (diagA diagB : SampleDiagnostics) (config : FullConfig) : CompareResult :=
  {| verdict := insufficient_data;
     recommendation := caution;
     evidence :=
       {| ev_meanA := sd_mean diagA;
          ev_meanB := sd_mean diagB;
          ev_difference := sd_mean diagA - sd_mean diagB;
          ev_differencePercent := 0;
          ev_pValue := 1;
          ev_testStatistic := 0;
          ev_degreesOfFreedom := 0;
          ev_effectSize := 0;
          ev_effectSizeLabel := negligible;
          ev_ci95 := None;
          ev_testUsed := welch_t_test |};
     diagnostics :=
       {| cd_sampleA := diagA;
          cd_sampleB := diagB;
          cd_overallQuality := poor;
          cd_warnings :=
            [("Insufficient data: " ++ fst (labels config) ++ " has "
              ++ string_of_nat nA ++ " samples, "
              ++ snd (labels config) ++ " has "
              ++ string_of_nat nB
              ++ " samples. Need at least 3 each.")%string] |};
     interpretation :=
       ("Cannot perform comparison: need at least 3 samples per condition. "
        ++ fst (labels config) ++ " has "
        ++ string_of_nat nA ++ ", "
        ++ snd (labels config) ++ " has "
        ++ string_of_nat nB ++ ".")%string;
     config := config |}.

(** Create result for insufficient data. *)
Definition createInsufficientDataResult (sampleA sampleB : list number)
  (config : FullConfig) : CompareResult :=
  let diagA := getSampleDiagnostics sampleA (Some (outlierThreshold config)) in
  let diagB := getSampleDiagnostics sampleB (Some (outlierThreshold config)) in
  insufficientDataResult (List.length sampleA) (List.length sampleB)
    diagA diagB config.

(** [`${evidence.effectSizeLabel}`] *)
Definition label_string (l : EffectSizeLabel) : string :=
  match l with
  | negligible => "negligible"
  | small => "small"
  | medium => "medium"
  | large => "large"
  end.

(** The two non-ASCII characters of the verdict sentences, in UTF-8:
    U+2265 (greater-than or equal to) and U+0394 (capital delta). *)
Definition ge_sign : string :=
  String "226"%char (String "137"%char (String "165"%char EmptyString)).
Definition delta_sign : string :=
  String "206"%char (String "148"%char EmptyString).

(** Build human-readable interpretation. *)
Definition buildInterpretation (evidence : Evidence) (verdict : Verdict)
  (recommendation : Recommendation) (config : FullConfig) : string :=
  let '(labelA, labelB) := labels config in
  let diff := ev_difference evidence in
  let absDiff := Math_abs diff in
  let direction := if diff >? 0 then "higher"%string else "lower"%string in
  let pct := toFixed (Math_abs (ev_differencePercent evidence)) 1 in
  let thresholds :=
    ("p < " ++ numberToString (alpha config) ++ ", effect " ++ ge_sign ++ " "
     ++ numberToString (effectSizeMinimum config) ++ ", " ++ delta_sign ++ " "
     ++ ge_sign ++ " " ++ numberToString (practicalThreshold config)
     ++ ").")%string in
  (* Main finding *)
  let parts :=
    [(labelA ++ " is " ++ toFixed absDiff 1 ++ " " ++ direction ++ " than "
      ++ labelB ++ " (" ++ pct ++ "% difference).")%string] in
  (* Statistical details *)
  let parts :=
    match ev_testUsed evidence with
    | welch_t_test =>
        let parts :=
          parts ++
          [("Welch's t-test: t=" ++ toFixed (ev_testStatistic evidence) 3
            ++ ", p=" ++ toFixed (ev_pValue evidence) 4 ++ ", Cohen's d="
            ++ toFixed (ev_effectSize evidence) 2 ++ " ("
            ++ label_string (ev_effectSizeLabel evidence) ++ ").")%string] in
        match ev_ci95 evidence with
        | Some ci95 =>
            parts ++
            [("95% CI: [" ++ toFixed (fst ci95) 1 ++ ", "
              ++ toFixed (snd ci95) 1 ++ "].")%string]
        | None => parts
        end
    | mann_whitney_u =>
        parts ++
        [("Mann-Whitney U: U=" ++ toFixed (ev_testStatistic evidence) 1
          ++ ", p=" ++ toFixed (ev_pValue evidence) 4 ++ ", r="
          ++ toFixed (ev_effectSize evidence) 2 ++ " ("
          ++ label_string (ev_effectSizeLabel evidence) ++ ").")%string]
    end in
  (* Verdict explanation *)
  let parts :=
    parts ++
    [match verdict with
     | significant =>
         ("VERDICT: Significant difference. All three gates passed ("
          ++ thresholds)%string
     | not_significant =>
         ("VERDICT: Not significant. Failed one or more gates (threshold: "
          ++ thresholds)%string
     | data_quality_issue =>
         "VERDICT: Used non-parametric test due to data quality issues. Interpret with caution."%string
     | insufficient_data =>
         "VERDICT: Cannot determine - insufficient data."%string
     end] in
  (* Recommendation *)
  let parts :=
    match recommendation with
    | proceed => parts
    | caution =>
        parts ++ ["Note: Data quality is acceptable but with warnings."%string]
    | use_nonparametric => parts ++ ["Note: Data quality is poor."%string]
    end in
  join " " parts.

(** The first statement of [compareConditions]: merge config with
    defaults. *)
Definition mergeConfig (config : CompareConfig) : FullConfig :=
  {| practicalThreshold := cfg_practicalThreshold config;
     alpha := orDefault (cfg_alpha config) (0.05 : number);
     effectSizeMinimum := orDefault (cfg_effectSizeMinimum config) (0.5 : number);
     outlierThreshold := orDefault (cfg_outlierThreshold config) (2.5 : number);
     labels := orDefault (cfg_labels config) ("A"%string, "B"%string) |}.

(** The end of [compareConditions]: the result record, from the evidence
    and the verdict of the test that ran. *)
Definition buildResult (fullConfig : FullConfig)
  (diagA diagB : SampleDiagnostics) (overallQuality : DataQuality)
  (warnings : list string) (recommendation : Recommendation)
  (evidence : Evidence) (testVerdict : Verdict) : CompareResult :=
  let diagnostics :=
    {| cd_sampleA := diagA; cd_sampleB := diagB;
       cd_overallQuality := overallQuality; cd_warnings := warnings |} in
  let interpretation :=
    buildInterpretation evidence testVerdict recommendation fullConfig in
  {| verdict := testVerdict;
     recommendation := recommendation;
     evidence := evidence;
     diagnostics := diagnostics;
     interpretation := interpretation;
     config := fullConfig |}.

(** The Mann-Whitney branch of [compareConditions], from the test result. *)
Definition mannWhitneyBranch (fullConfig : FullConfig)
  (diagA diagB : SampleDiagnostics) (result : MannWhitneyResult)
  : Evidence * Verdict :=
  let evidence :=
    {| ev_meanA := sd_mean diagA;
       ev_meanB := sd_mean diagB;
       ev_difference := sd_mean diagA - sd_mean diagB;
       ev_differencePercent :=
         if negb (sd_mean diagB === 0)
         then ((sd_mean diagA - sd_mean diagB) / sd_mean diagB) * 100
         else 0;
       ev_pValue := mw_pValue result;
       ev_testStatistic := mw_U result;
       ev_degreesOfFreedom := NaN;
       ev_effectSize := mw_effectSize result;
       ev_effectSizeLabel := mw_effectSizeLabel result;
       ev_ci95 := None;
       ev_testUsed := mann_whitney_u |} in
  let testVerdict :=
    determineVerdict (mw_significant result)
      (Math_abs (mw_effectSize result))
      (Math_abs (sd_mean diagA - sd_mean diagB))
      fullConfig true in
  (evidence, testVerdict).

(** The Welch branch of [compareConditions], from the test result. *)
Definition welchBranch (fullConfig : FullConfig)
  (diagA diagB : SampleDiagnostics) (result : WelchTestResult)
  : Evidence * Verdict :=
  let evidence :=
    {| ev_meanA := sd_mean diagA;
       ev_meanB := sd_mean diagB;
       ev_difference := w_meanDiff result;
       ev_differencePercent :=
         if negb (sd_mean diagB === 0)
         then (w_meanDiff result / sd_mean diagB) * 100
         else 0;
       ev_pValue := w_pValue result;
       ev_testStatistic := w_t result;
       ev_degreesOfFreedom := w_df result;
       ev_effectSize := w_effectSize result;
       ev_effectSizeLabel := w_effectSizeLabel result;
       ev_ci95 := Some (w_ci95 result);
       ev_testUsed := welch_t_test |} in
  let testVerdict :=
    determineVerdict (w_significant result)
      (Math_abs (w_effectSize result))
      (Math_abs (w_meanDiff result))
      fullConfig false in
  (evidence, testVerdict).

(** Compare two conditions with full statistical analysis and practical
    significance.  The result is [None] when the Mann-Whitney test does not
    return (see [MannWhitney.assignRanks_loop]). *)
Definition compareConditions_with (sampleA sampleB : list number)
  (config : CompareConfig) : option CompareResult :=
  (* Merge config with defaults *)
  let fullConfig := mergeConfig config in
  (* Check for insufficient data *)
  if (List.length sampleA <? 3)%nat || (List.length sampleB <? 3)%nat then
    Some (createInsufficientDataResult sampleA sampleB fullConfig)
  else
    (* Run diagnostics on both samples *)
    let diagA := getSampleDiagnostics sampleA (Some (outlierThreshold fullConfig)) in
    let diagB := getSampleDiagnostics sampleB (Some (outlierThreshold fullConfig)) in
    (* Determine overall data quality and recommendation *)
    let '(overallQuality, warnings, recommendation) :=
      assessDataQuality diagA diagB (labels fullConfig) in
    (* Choose test based on data quality *)
    let useNonParametric :=
      match recommendation with use_nonparametric => true | _ => false end in
    let finish (ev : Evidence * Verdict) : CompareResult :=
      buildResult fullConfig diagA diagB overallQuality warnings
        recommendation (fst ev) (snd ev) in
    if useNonParametric then
      (* Mann-Whitney U test *)
      match mannWhitneyU sampleA sampleB (Some (alpha fullConfig)) with
      | None => None
      | Some result =>
          Some (finish (mannWhitneyBranch fullConfig diagA diagB result))
      end
    else
      (* Welch's t-test *)
      let result := welchTTest sampleA sampleB (Some (alpha fullConfig)) in
      Some (finish (welchBranch fullConfig diagA diagB result)).

End Compare.

(** [compare.ts] linked with the two tests it imports. *)
Definition compareConditions {N : JSNumber} {NF : JSNonFinite N}
  {F : JSFormat N} {SS : SimpleStatistics N}
  : list number -> list number -> CompareConfig -> option CompareResult :=
  compareConditions_with Welch.welchTTest MannWhitney.mannWhitneyU.

End Compare.

(* ================================================================== *)
(** * Arrays in the store *)
(* ================================================================== *)

(** The modules above take an array as the list of its elements, which is
    all that the value a function returns depends on.  What a function does
    to its arguments is not visible there: a JavaScript array is an object
    that the caller and the callee share, and [arr.sort] sorts it in place.
    This module runs the public operations on a store of arrays, with every
    copy ([[...arr]], [arr.map]) an allocation and every [sort] an update
    of the array it is called on.  The functions of simple-statistics are
    functions of the contents of the array they are given: [mean],
    [sampleVariance], [sampleStandardDeviation], [min] and [max] read it,
    [quantile] works on a copy.  Arrays that a function fills itself
    ([indices], [values], [cleaned], [ranks], the coefficients) are reachable
    from nowhere else and stay lists. *)

Module Store.
Section Store.
Context {N : JSNumber} {NF : JSNonFinite N} {F : JSFormat N}
        {SS : SimpleStatistics N}.
Local Open Scope js_scope.

(** An array of numbers, or an array of the objects [{ value, group }] of
    mann-whitney.ts. *)
Inductive Cell : Type :=
| Numbers (elements : list number)
| Items (elements : list (number * MannWhitney.Group)).

Definition Ref : Set := nat.
Definition Heap : Type := list Cell.

Definition numbers_at (h : Heap) (r : Ref) : list number :=
  match nth_error h r with
  | Some (Numbers l) => l
  | _ => []
  end.

Definition items_at (h : Heap) (r : Ref) : list (number * MannWhitney.Group) :=
  match nth_error h r with
  | Some (Items l) => l
  | _ => []
  end.

Fixpoint update (h : Heap) (r : Ref) (c : Cell) : Heap :=
  match h, r with
  | [], _ => []
  | _ :: h', O => c :: h'
  | c' :: h', S r' => c' :: update h' r' c
  end.

(** Computations on the store. *)
Definition M (T : Type) : Type := Heap -> T * Heap.

Definition ret {T : Type} (x : T) : M T := fun h => (x, h).

Definition bind {T U : Type} (m : M T) (k : T -> M U) : M U :=
  fun h => let '(x, h') := m h in k x h'.

Notation "x <- m ;; k" := (bind m (fun x => k))
  (at level 61, m at next level, right associativity).

Definition alloc (c : Cell) : M Ref := fun h => (List.length h, h ++ [c]).
Definition read_numbers (r : Ref) : M (list number) :=
  fun h => (numbers_at h r, h).
Definition read_items (r : Ref) : M (list (number * MannWhitney.Group)) :=
  fun h => (items_at h r, h).
Definition write (r : Ref) (c : Cell) : M unit :=
  fun h => (tt, update h r c).

(** [[...arr]] *)
Definition spread (arr : Ref) : M Ref :=
  l <- read_numbers arr ;; alloc (Numbers l).

(** [arr.map(callbackfn)], to numbers. *)
Definition Array_map (callbackfn : number -> number) (arr : Ref) : M Ref :=
  l <- read_numbers arr ;; alloc (Numbers (map callbackfn l)).

(** [arr.map(value => ({ value, group }))] *)
Definition Array_map_tag (group : MannWhitney.Group) (arr : Ref) : M Ref :=
  l <- read_numbers arr ;; alloc (Items (map (fun value => (value, group)) l)).

(** [arr.map(c => c.value)] *)
Definition Array_map_value (arr : Ref) : M Ref :=
  l <- read_items arr ;; alloc (Numbers (map fst l)).

(** [[...x, ...y]], of two arrays of objects. *)
Definition spread2 (x y : Ref) : M Ref :=
  lx <- read_items x ;; ly <- read_items y ;; alloc (Items (lx ++ ly)).

(** [arr.sort(comparefn)]: sorts [arr] in place and returns it. *)
Definition Array_sort_numbers (comparefn : number -> number -> number)
  (arr : Ref) : M Ref :=
  l <- read_numbers arr ;;
  _ <- write arr (Numbers (Array_sort comparefn l)) ;;
  ret arr.

Definition Array_sort_items
  (comparefn : number * MannWhitney.Group -> number * MannWhitney.Group -> number)
  (arr : Ref) : M Ref :=
  l <- read_items arr ;;
  _ <- write arr (Items (Array_sort comparefn l)) ;;
  ret arr.

(** ** welch-t-test.ts *)

Definition welchTTest (sampleA sampleB : Ref) (alpha : option number)
  : M WelchTestResult :=
  a <- read_numbers sampleA ;;
  b <- read_numbers sampleB ;;
  ret (Welch.welchTTest a b alpha).

(** ** mann-whitney.ts *)

Definition mannWhitneyU (sampleA sampleB : Ref) (alpha : option number)
  : M (option MannWhitneyResult) :=
  let alpha := orDefault alpha (0.05 : number) in
  a <- read_numbers sampleA ;;
  b <- read_numbers sampleB ;;
  let n1 := of_nat (List.length a) in
  let n2 := of_nat (List.length b) in
  taggedA <- Array_map_tag MannWhitney.A sampleA ;;
  taggedB <- Array_map_tag MannWhitney.B sampleB ;;
  combined <- spread2 taggedA taggedB ;;
  _ <- Array_sort_items (fun a b => fst a - fst b) combined ;;
  values <- Array_map_value combined ;;
  vs <- read_numbers values ;;
  cs <- read_items combined ;;
  ret (MannWhitney.mannWhitneyU_ranked n1 n2 alpha cs vs).

(** ** normality.ts *)

Definition shapiroWilkTest (samples : Ref) : M NormalityTestResult :=
  s <- read_numbers samples ;;
  let n := List.length s in
  match Normality.shapiroWilkTest_guard n with
  | Some result => ret result
  | None =>
      copy <- spread samples ;;
      sorted <- Array_sort_numbers (fun a b => a - b) copy ;;
      l <- read_numbers sorted ;;
      ret (Normality.shapiroWilkTest_sorted n l)
  end.

(** ** outliers.ts *)

Definition noOutliers (samples : Ref) : M OutlierResult :=
  cleaned <- spread samples ;;
  zScores <- Array_map (fun _ => 0) samples ;;
  c <- read_numbers cleaned ;;
  z <- read_numbers zScores ;;
  ret (Outliers.noOutliers c z).

Definition detectOutliers (samples : Ref) (threshold : option number)
  : M OutlierResult :=
  let threshold := orDefault threshold (2.5 : number) in
  s <- read_numbers samples ;;
  if (List.length s <? 3)%nat then noOutliers samples
  else
    let mean := ss_mean s in
    let stdDev := ss_sampleStandardDeviation s in
    if stdDev <? 1e-10 then noOutliers samples
    else
      zScores <- Array_map (fun s => (s - mean) / stdDev) samples ;;
      z <- read_numbers zScores ;;
      (* [samples.forEach] *)
      s <- read_numbers samples ;;
      ret (Outliers.detectOutliers_scored s z threshold).

Definition detectOutliersIQR (samples : Ref) (multiplier : option number)
  : M Outliers.IQROutlierResult :=
  let multiplier := orDefault multiplier (1.5 : number) in
  s <- read_numbers samples ;;
  if (List.length s <? 4)%nat then
    cleaned <- spread samples ;;
    c <- read_numbers cleaned ;;
    ret (Outliers.detectOutliersIQR_short s c)
  else
    copy <- spread samples ;;
    sorted <- Array_sort_numbers (fun a b => a - b) copy ;;
    l <- read_numbers sorted ;;
    (* [samples.forEach] *)
    s <- read_numbers samples ;;
    ret (Outliers.detectOutliersIQR_sorted s l multiplier).

(** ** sample-quality.ts *)

Definition runDiagnostics (samples : Ref) (config : option DiagnosticsConfig)
  : M DiagnosticsResult :=
  let config := orDefault config {| dc_outlierThreshold := None |} in
  let outlierThreshold := orDefault (dc_outlierThreshold config) (2.5 : number) in
  s <- read_numbers samples ;;
  let n := List.length s in
  if (n <? 3)%nat then
    cleaned <- spread samples ;;
    c <- read_numbers cleaned ;;
    ret {| dr_sample :=
             {| sd_n := n;
                sd_mean := if (0 <? n)%nat then ss_mean s else 0;
                sd_stdDev :=
                  if (1 <? n)%nat then ss_sampleStandardDeviation s else 0;
                sd_min := if (0 <? n)%nat then ss_min s else 0;
                sd_max := if (0 <? n)%nat then ss_max s else 0;
                sd_outliers :=
                  {| o_indices := []; o_values := []; o_cleaned := c;
                     o_count := 0; o_tooMany := false; o_zScores := [] |};
                sd_normality :=
                  {| nt_W := 1; nt_pValue := 1; nt_isNormal := true;
                     nt_interpretation := "Insufficient data (n < 3)";
                     nt_n := n |} |};
           dr_recommendation := caution;
           dr_summary :=
             ("Insufficient data (n=" ++ string_of_nat n
              ++ "). Need at least 3 observations for meaningful analysis.")%string |}
  else
    let mean := ss_mean s in
    let stdDev := ss_sampleStandardDeviation s in
    let min := ss_min s in
    let max := ss_max s in
    outliers <- detectOutliers samples (Some outlierThreshold) ;;
    normality <- shapiroWilkTest samples ;;
    let recommendation :=
      SampleQuality.determineRecommendation
        (o_tooMany outliers) (nt_isNormal normality) in
    let summary := SampleQuality.buildSummary outliers normality recommendation in
    ret {| dr_sample :=
             {| sd_n := n; sd_mean := mean; sd_stdDev := stdDev;
                sd_min := min; sd_max := max;
                sd_outliers := outliers; sd_normality := normality |};
           dr_recommendation := recommendation;
           dr_summary := summary |}.

Definition getSampleDiagnostics (samples : Ref)
  (outlierThreshold : option number) : M SampleDiagnostics :=
  let outlierThreshold := orDefault outlierThreshold (2.5 : number) in
  s <- read_numbers samples ;;
  let n := List.length s in
  if (n =? 0)%nat then
    ret {| sd_n := 0; sd_mean := 0; sd_stdDev := 0; sd_min := 0; sd_max := 0;
           sd_outliers :=
             {| o_indices := []; o_values := []; o_cleaned := [];
                o_count := 0; o_tooMany := false; o_zScores := [] |};
           sd_normality :=
             {| nt_W := 1; nt_pValue := 1; nt_isNormal := true;
                nt_interpretation := "No data"; nt_n := 0 |} |}
  else
    let mean := ss_mean s in
    let stdDev := if (1 <? n)%nat then ss_sampleStandardDeviation s else 0 in
    let min := ss_min s in
    let max := ss_max s in
    outliers <- detectOutliers samples (Some outlierThreshold) ;;
    normality <- shapiroWilkTest samples ;;
    ret {| sd_n := n; sd_mean := mean; sd_stdDev := stdDev;
           sd_min := min; sd_max := max;
           sd_outliers := outliers; sd_normality := normality |}.

(** ** compare.ts *)

Definition createInsufficientDataResult (sampleA sampleB : Ref)
  (config : FullConfig) : M CompareResult :=
  diagA <- getSampleDiagnostics sampleA (Some (outlierThreshold config)) ;;
  diagB <- getSampleDiagnostics sampleB (Some (outlierThreshold config)) ;;
  a <- read_numbers sampleA ;;
  b <- read_numbers sampleB ;;
  ret (Compare.insufficientDataResult (List.length a) (List.length b)
         diagA diagB config).

Definition compareConditions (sampleA sampleB : Ref) (config : CompareConfig)
  : M (option CompareResult) :=
  let fullConfig := Compare.mergeConfig config in
  a <- read_numbers sampleA ;;
  b <- read_numbers sampleB ;;
  if (List.length a <? 3)%nat || (List.length b <? 3)%nat then
    result <- createInsufficientDataResult sampleA sampleB fullConfig ;;
    ret (Some result)
  else
    diagA <- getSampleDiagnostics sampleA (Some (outlierThreshold fullConfig)) ;;
    diagB <- getSampleDiagnostics sampleB (Some (outlierThreshold fullConfig)) ;;
    let '(overallQuality, warnings, recommendation) :=
      Compare.assessDataQuality diagA diagB (labels fullConfig) in
    let useNonParametric :=
      match recommendation with use_nonparametric => true | _ => false end in
    let finish (ev : Evidence * Verdict) : CompareResult :=
      Compare.buildResult fullConfig diagA diagB overallQuality warnings
        recommendation (fst ev) (snd ev) in
    if useNonParametric then
      result <- mannWhitneyU sampleA sampleB (Some (alpha fullConfig)) ;;
      ret (match result with
           | None => None
           | Some result =>
               Some (finish (Compare.mannWhitneyBranch fullConfig diagA diagB result))
           end)
    else
      result <- welchTTest sampleA sampleB (Some (alpha fullConfig)) ;;
      ret (Some (finish (Compare.welchBranch fullConfig diagA diagB result))).

(** [m], run in [h], returns [x] and leaves the store [h] with fresh arrays
    after it: no array of [h] has been written. *)
Definition runs {T : Type} (m : M T) (h : Heap) (x : T) : Prop :=
  fst (m h) = x /\ exists new, snd (m h) = h ++ new.

(** What it is for a call to leave its arguments alone: [m], run in [h],
    returns [x]; the store it leaves is [h] with fresh arrays after it; and
    the arrays at [sampleA] and [sampleB] are what they were. *)
Definition call {T : Type} (m : M T) (h : Heap) (sampleA sampleB : Ref)
  (x : T) : Prop :=
  let '(result, h') := m h in
  result = x /\
  (exists new, h' = h ++ new) /\
  nth_error h' sampleA = nth_error h sampleA /\
  nth_error h' sampleB = nth_error h sampleB.

End Store.
End Store.

(* ================================================================== *)
(** * Number-to-string conversions at binary64 *)
(* ================================================================== *)

Module F64Format.

Local Open Scope Z_scope.

Definition digits (z : Z) : string :=
  DecimalString.NilZero.string_of_uint (N.to_uint (Z.to_N z)).

Definition zeros (n : Z) : string :=
  string_of_list_ascii (repeat "0"%char (Z.to_nat n)).

(** The magnitude of a finite non-zero double as an exact fraction. *)
Definition magnitude (x : float) : option (Z * Z) :=
  match Prim2SF x with
  | S754_finite _ m e =>
      if 0 <=? e then Some (Zpos m * 2 ^ e, 1) else Some (Zpos m, 2 ^ (- e))
  | _ => None
  end.

(** [num / den] divided by [10 ^ j], as a fraction. *)
Definition scale10 (num den j : Z) : Z * Z :=
  if 0 <=? j then (num, den * 10 ^ j) else (num * 10 ^ (- j), den).

(** The [n] with [10^(n-1) <= num/den < 10^n], found from an estimate by
    the binary logarithm and corrected by at most a few steps. *)
Fixpoint decimal_exponent (fuel : nat) (num den n : Z) : Z :=
  match fuel with
  | O => n
  | S fuel' =>
      let '(a, b) := scale10 num den n in
      if b <=? a then decimal_exponent fuel' num den (n + 1)
      else
        let '(a', b') := scale10 num den (n - 1) in
        if a' <? b' then decimal_exponent fuel' num den (n - 1) else n
  end.

(** The candidate of [k] digits next to [num/den], if it reads back as [x]:
    the digits [s] and the exponent [n] of [s * 10^(n-k)]. *)
Definition candidate (x : float) (num den n k : Z) : option (Z * Z) :=
  let '(a, b) := scale10 num den (n - k) in
  let lo := a / b in
  let r := a mod b in
  let reads (s : Z) : bool :=
    let j := n - k in
    PrimFloat.eqb x
      (if 0 <=? j then F64.of_ratio false (s * 10 ^ j) 1
       else F64.of_ratio false s (10 ^ (- j))) in
  let up := if lo + 1 =? 10 ^ k then (10 ^ (k - 1), n + 1) else (lo + 1, n) in
  let lo_ok := reads lo in
  let up_ok := reads (lo + 1) in
  let lo_first := (2 * r <? b) || ((2 * r =? b) && Z.even lo) in
  if lo_ok && (lo_first || negb up_ok) then Some (lo, n)
  else if up_ok then Some up
  else None.

Fixpoint shortest (fuel : nat) (x : float) (num den n k : Z) : Z * Z * Z :=
  match fuel with
  | O => (0, n, k)
  | S fuel' =>
      match candidate x num den n k with
      | Some (s, n') => (s, n', k)
      | None => shortest fuel' x num den n (k + 1)
      end
  end.

(** [Number::toString] (ECMAScript 6.1.6.1.20), radix 10. *)
Definition toString_pos (x : float) : string :=
  match magnitude x with
  | None => "0"
  | Some (num, den) =>
      let n0 := decimal_exponent 8 num den
                  (((Z.log2 num - Z.log2 den) * 30103) / 100000) in
      let '(s, n, k) := shortest 17 x num den n0 1 in
      let ds := digits s in
      if (k <=? n) && (n <=? 21) then (ds ++ zeros (n - k))%string
      else if (0 <? n) && (n <=? 21) then
        (substring 0 (Z.to_nat n) ds ++ "."
         ++ substring (Z.to_nat n) (Z.to_nat (k - n)) ds)%string
      else if (-6 <? n) && (n <=? 0) then
        ("0." ++ zeros (- n) ++ ds)%string
      else
        let e := n - 1 in
        let sign := if e <? 0 then "-"%string else "+"%string in
        let es := (sign ++ digits (Z.abs e))%string in
        if k =? 1 then (ds ++ "e" ++ es)%string
        else (substring 0 1 ds ++ "." ++ substring 1 (Z.to_nat (k - 1)) ds
              ++ "e" ++ es)%string
  end.

Definition toString (x : float) : string :=
  if PrimFloat.is_nan x then "NaN"
  else if PrimFloat.is_zero x then "0"
  else if PrimFloat.ltb x 0 then
    (if PrimFloat.is_infinity x then "-Infinity"
     else ("-" ++ toString_pos (PrimFloat.opp x))%string)
  else if PrimFloat.is_infinity x then "Infinity"
  else toString_pos x.

(** [Number.prototype.toFixed] (ECMAScript 21.1.3.3). *)
Definition toFixed (x : float) (fractionDigits : nat) : string :=
  let f := Z.of_nat fractionDigits in
  if negb (PrimFloat.is_finite x) then toString x
  else
    let neg := PrimFloat.ltb x 0 in
    let x := if neg then PrimFloat.opp x else x in
    let m :=
      if PrimFloat.leb (F64.of_lit (mkLit 1 21)) x then toString x
      else
        let n :=
          match magnitude x with
          | Some (num, den) => (2 * num * 10 ^ f + den) / (2 * den)
          | None => 0
          end in
        let m := digits n in
        if f =? 0 then m
        else
          let k := Z.of_nat (String.length m) in
          let m := if k <=? f then (zeros (f + 1 - k) ++ m)%string else m in
          let k := Z.of_nat (String.length m) in
          (substring 0 (Z.to_nat (k - f)) m ++ "."
           ++ substring (Z.to_nat (k - f)) (Z.to_nat f) m)%string in
    if neg then ("-" ++ m)%string else m.

End F64Format.

#[global] Instance Float64_format : JSFormat Float64 := {|
  toFixed := F64Format.toFixed;
  numberToString := F64Format.toString;
|}.

(* ================================================================== *)
(** * The simple-statistics package *)
(* ================================================================== *)

(** The functions of [simple-statistics] (version 7) that the sources call,
    after the package's own source: [sum] is the Kahan-Babuska compensated
    sum, [sampleVariance] divides the squared deviations from [mean] by
    [n - 1].  The package throws on arrays too short for the statistic
    (empty for [mean], [min], [max], [quantile]; fewer than two elements for
    the sample variance); these definitions are total and meant for the
    arrays on which the package returns. *)
Module SimpleStatistics7.
Section Generic.
Context {N : JSNumber}.
Local Open Scope js_scope.

Definition sum (x : list number) : number :=
  match x with
  | [] => 0
  | x0 :: rest =>
      let '(sum, correction) :=
        fold_left
          (fun (st : number * number) (xi : number) =>
             let '(sum, correction) := st in
             let transition := sum + xi in
             let correction :=
               if Math_abs sum >=? Math_abs xi
               then correction + (sum - transition + xi)
               else correction + (xi - transition + sum) in
             (transition, correction))
          rest (x0, 0 : number) in
      sum + correction
  end.

Definition mean (x : list number) : number :=
  sum x / of_nat (List.length x).

Definition sumNthPowerDeviations2 (x : list number) : number :=
  let meanValue := mean x in
  fold_left
    (fun sum xi => let tempValue := xi - meanValue in sum + tempValue * tempValue)
    x (0 : number).

Definition sampleVariance (x : list number) : number :=
  let sumSquaredDeviationsValue := sumNthPowerDeviations2 x in
  let besselsCorrection := of_nat (List.length x) - 1 in
  sumSquaredDeviationsValue / besselsCorrection.

Definition sampleStandardDeviation (x : list number) : number :=
  Math_sqrt (sampleVariance x).

Definition min (x : list number) : number :=
  match x with
  | [] => 0
  | x0 :: rest => fold_left (fun value xi => if xi <? value then xi else value) rest x0
  end.

Definition max (x : list number) : number :=
  match x with
  | [] => 0
  | x0 :: rest => fold_left (fun value xi => if xi >? value then xi else value) rest x0
  end.

End Generic.

(** [quantileSorted]; [quantile] returns the same on an array that is
    already sorted, which is how outliers.ts calls it. *)
Definition quantileSorted (x : list float) (p : float) : float :=
  let n := List.length x in
  let idx := PrimFloat.mul (F64.of_nat n) p in
  let at_ (i : Z) := nth (Z.to_nat i) x PrimFloat.nan in
  if PrimFloat.eqb p 1 then at_ (Z.of_nat n - 1)%Z
  else if PrimFloat.eqb p 0 then at_ 0%Z
  else if negb (F64.is_integer idx) then at_ (F64.trunc_Z idx + 1 - 1)%Z
  else if Nat.even n then
    PrimFloat.div (PrimFloat.add (at_ (F64.trunc_Z idx - 1)%Z)
                                 (at_ (F64.trunc_Z idx))) 2
  else at_ (F64.trunc_Z idx).

End SimpleStatistics7.

#[global] Instance Float64_ss : SimpleStatistics Float64 := {|
  ss_mean := SimpleStatistics7.mean;
  ss_sampleVariance := SimpleStatistics7.sampleVariance;
  ss_sampleStandardDeviation := SimpleStatistics7.sampleStandardDeviation;
  ss_min := SimpleStatistics7.min;
  ss_max := SimpleStatistics7.max;
  ss_quantile := SimpleStatistics7.quantileSorted;
|}.

(* ================================================================== *)
(** * Instance 2: exact arithmetic *)
(* ================================================================== *)

(** The same operations over the real numbers: no rounding, no overflow,
    no NaN.  Comparisons are decided classically.  The reals have no
    infinities, so this instance gives [JSNumber] only (not [JSNonFinite]),
    and a quotient by zero, which binary64 answers with an infinity or NaN,
    has no counterpart here: statements read at this instance establish
    that their divisors are not zero. *)
Module ExactR.

Local Open Scope R_scope.

Definition of_lit (l : Lit) : R := IZR (lit_mant l) * powerRZ 10 (lit_expo l).

Definition ltb (x y : R) : bool := if Rlt_dec x y then true else false.
Definition leb (x y : R) : bool := if Rle_dec x y then true else false.
Definition eqb (x y : R) : bool := if Req_dec_T x y then true else false.

(** [x ** y]: an integer power for an integer exponent, [exp (y ln x)] for
    a positive base. *)
Definition pow (x y : R) : R :=
  if Req_dec_T y (IZR (Int_part y)) then powerRZ x (Int_part y)
  else if Rlt_dec 0 x then Rpower x y
  else 0.

End ExactR.

#[global] Instance Exact : JSNumber := {|
  number := R;
  of_lit := ExactR.of_lit;
  of_nat := INR;
  num_add := Rplus;
  num_sub := Rminus;
  num_mul := Rmult;
  num_div := Rdiv;
  num_neg := Ropp;
  num_lt := ExactR.ltb;
  num_le := ExactR.leb;
  num_eq := ExactR.eqb;
  isNaN := fun _ => false;
  Math_abs := Rabs;
  Math_sqrt := sqrt;
  Math_exp := exp;
  Math_log := ln;
  Math_sin := sin;
  Math_pow := ExactR.pow;
  Math_max := Rmax;
  Math_min := Rmin;
  Math_PI := PI;
|}.

(* ================================================================== *)
(** * Vocabulary of the statements *)
(* ================================================================== *)

(** For outliers.ts. *)
Module OutliersSpec.
Section OutliersSpec.
Context {N : JSNumber}.
Local Open Scope js_scope.

(** A sample with its positions: [(0, x0); (1, x1); ...]. *)
Definition indexed (samples : list number) : list (nat * number) :=
  combine (seq 0 (List.length samples)) samples.

End OutliersSpec.
End OutliersSpec.

(** For mann-whitney.ts. *)
Module MannWhitneySpec.
Section MannWhitneySpec.
Context {N : JSNumber}.
Local Open Scope js_scope.

(** A sample of numbers: no element is NaN. *)
Definition numeric (sample : list number) : Prop :=
  Forall (fun x => isNaN x = false) sample.

End MannWhitneySpec.
End MannWhitneySpec.

(** For normality.ts. *)
Module NormalitySpec.
Section NormalitySpec.
Context {N : JSNumber}.
Local Open Scope js_scope.

(** A number of the unit interval, or no number at all. *)
Definition unit_or_NaN (x : number) : Prop :=
  isNaN x = true \/ ((0 <=? x) = true /\ (x <=? 1) = true).

End NormalitySpec.
End NormalitySpec.

(** For compare.ts: the data-quality assessment, as the specification words
    it. *)
Module CompareSpec.
Section CompareSpec.
Context {N : JSNumber} {NF : JSNonFinite N} {F : JSFormat N}
        {SS : SimpleStatistics N}.
Local Open Scope js_scope.

(** The warning that the outlier check of one sample contributes. *)
Definition outlierWarning (label : string) (diag : SampleDiagnostics)
  : list string :=
  if o_tooMany (sd_outliers diag) then
    [(label ++ " has >10% outliers ("
      ++ string_of_nat (o_count (sd_outliers diag)) ++ "/"
      ++ string_of_nat (sd_n diag) ++ ").")%string]
  else if (0 <? o_count (sd_outliers diag))%nat then
    [(label ++ " has " ++ string_of_nat (o_count (sd_outliers diag))
      ++ " outlier(s): ["
      ++ SampleQuality.listValues (o_values (sd_outliers diag))
      ++ "].")%string]
  else [].

(** The warning that the normality check of one sample contributes. *)
Definition normalityWarning (label : string) (diag : SampleDiagnostics)
  : list string :=
  if nt_isNormal (sd_normality diag) then []
  else
    [(label ++ " deviates from normality (W="
      ++ toFixed (nt_W (sd_normality diag)) 3 ++ ", p="
      ++ toFixed (nt_pValue (sd_normality diag)) 4 ++ ").")%string].

(** The recommendation merged from both diagnostics: too many outliers or
    failed normality, on either side, force [use_nonparametric]; failing
    that, outliers present on either side give [caution]. *)
Definition mergedRecommendation (diagA diagB : SampleDiagnostics)
  : Recommendation :=
  if o_tooMany (sd_outliers diagA) || o_tooMany (sd_outliers diagB)
     || negb (nt_isNormal (sd_normality diagA))
     || negb (nt_isNormal (sd_normality diagB))
  then use_nonparametric
  else if (0 <? o_count (sd_outliers diagA))%nat
          || (0 <? o_count (sd_outliers diagB))%nat
  then caution
  else proceed.

Definition qualityOf (r : Recommendation) : DataQuality :=
  match r with
  | use_nonparametric => poor
  | caution => acceptable
  | proceed => good
  end.

End CompareSpec.
End CompareSpec.

(** Samples and configurations at binary64. *)
Module Samples.

(** The end-to-end scenario of the specification: sample A carries the
    outlier 200. *)
Definition scenarioA : list float :=
  [101; 98; 105; 200; 99; 102; 97; 103; 100; 98]%float.

Definition scenarioB : list float :=
  [85; 82; 88; 84; 86; 83; 87; 85; 84; 86]%float.

Definition thresholdOnly (practicalThreshold : @number Float64)
  : @CompareConfig Float64 :=
  {| cfg_practicalThreshold := practicalThreshold;
     cfg_alpha := None;
     cfg_effectSizeMinimum := None;
     cfg_outlierThreshold := None;
     cfg_labels := None |}.

End Samples.

(** Midranks and pair counts in exact arithmetic, for the rank sums of
    mann-whitney.ts. *)
Module MidRanks.
Local Open Scope R_scope.

Definition sumR (l : list R) : R := fold_right Rplus 0 l.

(** The weight of [y] in the midrank of [v]: 1 if [y] is below [v], one
    half if it ties with [v]. *)
Definition w (v y : R) : R :=
  (if Rlt_dec y v then 1 else 0) + (if Req_dec_T y v then / 2 else 0).

(** How many elements of [l] lie below [v], ties counting for one half. *)
Definition Wsum (v : R) (l : list R) : R := sumR (map (w v) l).

(** The midrank of [v] in [l]: the mean of the 1-based positions that the
    elements equal to [v] occupy once [l] is sorted. *)
Definition rank_of (l : list R) (v : R) : R := Wsum v l + / 2.

Definition byValue (x y : R * MannWhitney.Group) : Prop := fst x <= fst y.

Definition compareValue (a b : R * MannWhitney.Group) : R := fst a - fst b.

Definition rankA (g : R -> R) (it : R * MannWhitney.Group) : R :=
  match snd it with MannWhitney.A => g (fst it) | MannWhitney.B => 0 end.

Definition rankB (g : R -> R) (it : R * MannWhitney.Group) : R :=
  match snd it with MannWhitney.A => 0 | MannWhitney.B => g (fst it) end.

(** The number of pairs [(x, y)], [x] in [a] and [y] in [b], with [y < x],
    ties counting for one half. *)
Definition pairsBelow (a b : list R) : R := sumR (map (fun x => Wsum x b) a).

End MidRanks.

(* ================================================================== *)
(** * More vocabulary: NaN, midranks, statistics over the reals *)
(* ================================================================== *)

(** How NaN and the sign behave under the comparisons and [Math.abs]; both
    instances of [JSNumber] in this file satisfy it. *)
Class JSNumberNaN (N : JSNumber) : Prop := {
  num_lt_NaN_l : forall x y, isNaN x = true -> num_lt x y = false;
  num_eq_NaN_l : forall x y, isNaN x = true -> num_eq x y = false;
  num_eq_NaN_r : forall x y, isNaN y = true -> num_eq x y = false;
  Math_abs_NaN : forall x, isNaN x = true -> isNaN (Math_abs x) = true;
  Math_abs_neg : forall x, Math_abs (num_neg x) = Math_abs x;
}.

Module RanksSpec.
Section RanksSpec.
Context {N : JSNumber}.

(** Some element of the list is NaN. *)
Definition hasNaN (l : list number) : Prop :=
  Exists (fun x => isNaN x = true) l.

End RanksSpec.
End RanksSpec.

Module MidRankSpec.
Local Open Scope R_scope.

(** How many elements of [l] lie below [v], and how many equal it. *)
Definition below (l : list R) (v : R) : nat :=
  List.length (filter (fun y => ExactR.ltb y v) l).
Definition ties (l : list R) (v : R) : nat :=
  List.length (filter (fun y => ExactR.eqb y v) l).

(** The midrank of [v] in [l]: once [l] is sorted the elements equal to [v]
    occupy the positions [below + 1 .. below + ties], whose mean this is. *)
Definition midrank (l : list R) (v : R) : R :=
  INR (below l v) + (INR (ties l v) + 1) / 2.

End MidRankSpec.

Module ErfSpec.
Local Open Scope R_scope.


End ErfSpec.

Module CoefficientSpec.
Local Open Scope R_scope.

(** The squared length of a vector of coefficients. *)
Definition sumSquares (l : list R) : R :=
  MidRanks.sumR (map (fun x => x * x) l).

End CoefficientSpec.

Module OrderSpec.
Local Open Scope R_scope.

(** The comparator [(a, b) => a - b] of the numeric sorts. *)
Definition compareNumbers (a b : R) : R := a - b.

End OrderSpec.

(** simple-statistics read over the reals: [quantileSorted] with the floor
    of the reals for the integer tests; the other functions are those of
    [SimpleStatistics7], which are written for any [JSNumber]. *)
Module SimpleStatisticsExact.
Local Open Scope R_scope.

Definition quantileSorted (x : list R) (p : R) : R :=
  let n := List.length x in
  let idx := INR n * p in
  let at_ (i : Z) := nth (Z.to_nat i) x 0 in
  if Req_dec_T p 1 then at_ (Z.of_nat n - 1)%Z
  else if Req_dec_T p 0 then at_ 0%Z
  else if negb (ExactR.eqb idx (IZR (Int_part idx))) then
    at_ (Int_part idx + 1 - 1)%Z
  else if Nat.even n then
    (at_ (Int_part idx - 1)%Z + at_ (Int_part idx)) / 2
  else at_ (Int_part idx).

End SimpleStatisticsExact.

Definition Exact_ss : SimpleStatistics Exact := {|
  ss_mean := SimpleStatistics7.mean;
  ss_sampleVariance := SimpleStatistics7.sampleVariance;
  ss_sampleStandardDeviation := SimpleStatistics7.sampleStandardDeviation;
  ss_min := SimpleStatistics7.min;
  ss_max := SimpleStatistics7.max;
  ss_quantile := SimpleStatisticsExact.quantileSorted;
|}.

Module MaskingSpec.
Local Open Scope R_scope.
Import MidRanks.

(** The mean and the sum of squared deviations of a sample, as
    mathematics has them. *)
Definition meanOf (l : list R) : R := sumR l / INR (List.length l).
Definition squaredDeviations (l : list R) : R :=
  sumR (map (fun x => (x - meanOf l) * (x - meanOf l)) l).


End MaskingSpec.

(* ================================================================== *)
(** * The laws of [JSNumber] at binary64 *)
(* ================================================================== *)

Module F64Laws.

Import F64.
Local Open Scope float_scope.

(** Comparisons are read through [Prim2SF] and the specification
    [SFcompare] of the Standard Library. *)

Lemma is_nan_false_eqb x : is_nan x = false -> (x =? x) = true.
Proof. unfold is_nan. now destruct (x =? x). Qed.

Lemma SFcompare_Gt_Lt a b : SFcompare a b = Some Gt -> SFcompare b a = Some Lt.
Proof.
  destruct a as [sa|sa| |sa ma ea], b as [sb|sb| |sb mb eb]; simpl;
    try discriminate; try (destruct sa; discriminate || reflexivity);
    try (destruct sb; discriminate || reflexivity);
    try (destruct sa, sb; discriminate || reflexivity).
  pose proof (Pos.compare_cont_antisym ma mb Eq) as P; simpl in P.
  destruct sa, sb; try discriminate; try reflexivity;
    rewrite (Z.compare_antisym ea eb);
    destruct (ea ?= eb)%Z eqn:E; simpl; try discriminate; try reflexivity;
    rewrite <- P;
    destruct (Pos.compare_cont Eq ma mb); simpl; try discriminate; reflexivity.
Qed.

Lemma SFcompare_refl a : a <> S754_nan -> SFcompare a a = Some Eq.
Proof.
  destruct a as [s|s| |s m e]; simpl; intros H; try congruence.
  - now destruct s.
  - rewrite Z.compare_refl. destruct s; f_equal.
    + now rewrite Pos.compare_cont_refl.
    + now rewrite Pos.compare_cont_refl.
Qed.

Lemma not_nan_spec x : is_nan x = false -> Prim2SF x <> S754_nan.
Proof.
  intros H E. apply is_nan_false_eqb in H.
  rewrite FloatAxioms.eqb_spec, E in H. discriminate.
Qed.

Lemma SFcompare_antisym a b :
  SFcompare b a = option_map CompOpp (SFcompare a b).
Proof.
  destruct a as [sa|sa| |sa ma ea], b as [sb|sb| |sb mb eb]; simpl;
    try reflexivity; try (destruct sa; reflexivity);
    try (destruct sb; reflexivity);
    try (destruct sa, sb; reflexivity).
  pose proof (Pos.compare_cont_antisym ma mb Eq) as P; simpl in P.
  destruct sa, sb; try reflexivity;
    rewrite (Z.compare_antisym ea eb);
    destruct (ea ?= eb)%Z eqn:E; simpl; try reflexivity;
    rewrite ?P; rewrite ?CompOpp_involutive; try reflexivity.
  all: rewrite <- P; now rewrite CompOpp_involutive.
Qed.

(** Between two numbers, [x >= y] is the negation of [x < y]. *)
Lemma not_lt_ge x y :
  is_nan x = false -> is_nan y = false ->
  (x <? y) = false <-> (y <=? x) = true.
Proof.
  intros Hx Hy. rewrite ltb_spec, leb_spec. unfold SFltb, SFleb.
  rewrite (SFcompare_antisym (Prim2SF x) (Prim2SF y)).
  pose proof (not_nan_spec _ Hx) as Nx.
  pose proof (not_nan_spec _ Hy) as Ny.
  destruct (SFcompare (Prim2SF x) (Prim2SF y)) as [[]|] eqn:E; simpl;
    try (split; congruence).
  destruct (Prim2SF x), (Prim2SF y); simpl in E; congruence.
Qed.

Lemma lt_le x y : (x <? y) = true -> (x <=? y) = true.
Proof.
  rewrite ltb_spec, leb_spec. unfold SFltb, SFleb.
  destruct (SFcompare _ _) as [[]|]; auto; discriminate.
Qed.

Lemma le_refl x : is_nan x = false -> (x <=? x) = true.
Proof.
  intros H. rewrite leb_spec. unfold SFleb.
  now rewrite (SFcompare_refl _ (not_nan_spec _ H)).
Qed.

(** Two numbers neither of which is below the other compare equal. *)
Lemma not_lt_le x y :
  is_nan x = false -> is_nan y = false ->
  (x <? y) = false -> (y <? x) = false ->
  (x <=? y) = true /\ (y <=? x) = true.
Proof.
  intros Hx Hy. rewrite !ltb_spec, !leb_spec. unfold SFltb, SFleb.
  pose proof (not_nan_spec _ Hx) as Nx. pose proof (not_nan_spec _ Hy) as Ny.
  pose proof (SFcompare_Gt_Lt (Prim2SF x) (Prim2SF y)) as A.
  pose proof (SFcompare_Gt_Lt (Prim2SF y) (Prim2SF x)) as B.
  destruct (SFcompare (Prim2SF x) (Prim2SF y)) as [[]|] eqn:E1;
  destruct (SFcompare (Prim2SF y) (Prim2SF x)) as [[]|] eqn:E2;
    intros; try discriminate; auto;
    try (specialize (A eq_refl); discriminate);
    try (specialize (B eq_refl); discriminate).
  all: destruct (Prim2SF x), (Prim2SF y); simpl in *; congruence.
Qed.

Lemma neg_pos x :
  (of_lit (mkLit 0 0) <? x) = true -> (of_lit (mkLit 0 0) <=? - x) = false.
Proof.
  change (of_lit (mkLit 0 0)) with zero.
  rewrite ltb_spec, leb_spec, opp_spec.
  change (Prim2SF zero) with (S754_zero false).
  unfold SFltb, SFleb.
  destruct (Prim2SF x) as [s|s| |s m e]; simpl; try discriminate.
  - now destruct s.
  - now destruct s.
Qed.

Lemma mul_neg_neg x y : (- x) * (- y) = x * y.
Proof.
  apply Prim2SF_inj. rewrite !mul_spec, !opp_spec.
  destruct (Prim2SF x) as [s|s| |s m e], (Prim2SF y) as [s'|s'| |s' m' e'];
    simpl; try reflexivity; now destruct s, s'.
Qed.

Lemma max_spec x y :
  is_nan (max x y) = true \/
  ((max x y = x \/ max x y = y) /\
   (x <=? max x y) = true /\ (y <=? max x y) = true).
Proof.
  unfold max.
  destruct (is_nan x) eqn:Nx; [now left|].
  destruct (is_nan y) eqn:Ny; [now left|]. simpl. right.
  destruct (x <? y) eqn:Lxy.
  { repeat split; auto using lt_le, le_refl. }
  destruct (y <? x) eqn:Lyx.
  { repeat split; auto using lt_le, le_refl. }
  destruct (not_lt_le x y Nx Ny Lxy Lyx) as [A B].
  destruct (is_zero x && get_sign x); repeat split; auto using le_refl.
Qed.

Lemma min_spec x y :
  is_nan (min x y) = true \/
  ((min x y = x \/ min x y = y) /\
   (min x y <=? x) = true /\ (min x y <=? y) = true).
Proof.
  unfold min.
  destruct (is_nan x) eqn:Nx; [now left|].
  destruct (is_nan y) eqn:Ny; [now left|]. simpl. right.
  destruct (x <? y) eqn:Lxy.
  { repeat split; auto using lt_le, le_refl. }
  destruct (y <? x) eqn:Lyx.
  { repeat split; auto using lt_le, le_refl. }
  destruct (not_lt_le x y Nx Ny Lxy Lyx) as [A B].
  destruct (is_zero x && get_sign x); repeat split; auto using le_refl.
Qed.

End F64Laws.

#[global] Instance Float64_laws : JSNumberLaws Float64.
Proof.
  constructor.
  - exact F64Laws.is_nan_false_eqb.
  - exact F64Laws.lt_le.
  - exact F64Laws.le_refl.
  - exact F64Laws.not_lt_ge.
  - reflexivity.
  - reflexivity.
  - reflexivity.
  - exact F64Laws.neg_pos.
  - exact F64Laws.mul_neg_neg.
  - exact F64Laws.max_spec.
  - exact F64Laws.min_spec.
Qed.

(* ================================================================== *)
(** * The laws of [JSNumber] in exact arithmetic *)
(* ================================================================== *)

Module ExactLaws.

Local Open Scope R_scope.

Lemma ltb_true x y : ExactR.ltb x y = true <-> x < y.
Proof. unfold ExactR.ltb. destruct (Rlt_dec x y); split; auto; discriminate. Qed.

Lemma ltb_false x y : ExactR.ltb x y = false <-> y <= x.
Proof.
  unfold ExactR.ltb. destruct (Rlt_dec x y); split; auto; try discriminate; lra.
Qed.

Lemma leb_true x y : ExactR.leb x y = true <-> x <= y.
Proof. unfold ExactR.leb. destruct (Rle_dec x y); split; auto; discriminate. Qed.

Lemma leb_false x y : ExactR.leb x y = false <-> y < x.
Proof.
  unfold ExactR.leb. destruct (Rle_dec x y); split; auto; try discriminate; lra.
Qed.

Lemma eqb_true x y : ExactR.eqb x y = true <-> x = y.
Proof. unfold ExactR.eqb. destruct (Req_dec_T x y); split; auto; discriminate. Qed.

Lemma eqb_false x y : ExactR.eqb x y = false <-> x <> y.
Proof.
  unfold ExactR.eqb. destruct (Req_dec_T x y); split; auto; try discriminate.
  contradiction.
Qed.

(** An integer literal is that integer. *)
Lemma of_lit_int z : ExactR.of_lit (mkLit z 0) = IZR z.
Proof. unfold ExactR.of_lit. simpl. ring. Qed.

(** A literal with [k] decimals is its mantissa over [10 ^ k]. *)
Lemma of_lit_dec z (k : positive) :
  ExactR.of_lit (mkLit z (Zneg k)) = IZR z / 10 ^ Pos.to_nat k.
Proof. reflexivity. Qed.

End ExactLaws.

#[global] Instance Exact_laws : JSNumberLaws Exact.
Proof.
  constructor; simpl; intros.
  - now apply ExactLaws.eqb_true.
  - apply ExactLaws.leb_true. apply ExactLaws.ltb_true in H. lra.
  - apply ExactLaws.leb_true. lra.
  - rewrite ExactLaws.ltb_false, ExactLaws.leb_true. reflexivity.
  - apply ExactLaws.leb_true. rewrite !ExactLaws.of_lit_int. lra.
  - reflexivity.
  - reflexivity.
  - apply ExactLaws.leb_false. apply ExactLaws.ltb_true in H.
    rewrite ExactLaws.of_lit_int in *. lra.
  - ring.
  - right. unfold Rmax. destruct (Rle_dec x y); repeat split; auto;
      apply ExactLaws.leb_true; lra.
  - right. unfold Rmin. destruct (Rle_dec x y); repeat split; auto;
      apply ExactLaws.leb_true; lra.
Qed.

(* ================================================================== *)
(** * Facts about outliers.ts *)
(* ================================================================== *)

Module OutliersFacts.
Import OutliersSpec.
Section OutliersFacts.
Context {N : JSNumber} {SS : SimpleStatistics N}.
Local Open Scope js_scope.

Lemma splitOutliers_fold (flagged : nat -> number -> bool) :
  forall (l : list number) (k : nat) indices values cleaned,
    let p := fun ix : nat * number => flagged (fst ix) (snd ix) in
    let ixs := combine (seq k (List.length l)) l in
    fold_left
      (fun (st : list nat * list number * list number) (item : nat * number) =>
         let '(indices, values, cleaned) := st in
         let '(index, sample) := item in
         if flagged index sample
         then (indices ++ [index], values ++ [sample], cleaned)
         else (indices, values, cleaned ++ [sample]))
      ixs (indices, values, cleaned)
    = (indices ++ map fst (filter p ixs),
       values ++ map snd (filter p ixs),
       cleaned ++ map snd (filter (fun ix => negb (p ix)) ixs)).
Proof.
  induction l as [|x l IH]; intros k indices values cleaned; simpl.
  - now rewrite !app_nil_r.
  - destruct (flagged k x) eqn:E; simpl; rewrite IH; simpl;
      now rewrite <- ?app_assoc.
Qed.

(** The [forEach] of the detectors is a partition of the sample. *)
Lemma splitOutliers_spec (flagged : nat -> number -> bool) samples :
  let p := fun ix : nat * number => flagged (fst ix) (snd ix) in
  Outliers.splitOutliers flagged samples
  = (map fst (filter p (indexed samples)),
     map snd (filter p (indexed samples)),
     map snd (filter (fun ix => negb (p ix)) (indexed samples))).
Proof.
  unfold Outliers.splitOutliers, indexed.
  now rewrite splitOutliers_fold.
Qed.

Lemma combine_seq_nth_error (l : list number) :
  forall (k : nat) (ix : nat * number),
    In ix (combine (seq k (List.length l)) l) ->
    nth_error l (fst ix - k) = Some (snd ix) /\ (k <= fst ix)%nat.
Proof.
  induction l as [|x l IH]; simpl; intros k ix H; [contradiction|].
  destruct H as [<-|H]; simpl.
  - rewrite Nat.sub_diag. auto.
  - destruct (IH _ _ H) as [E L]. split; [|lia].
    replace (fst ix - k)%nat with (S (fst ix - S k)) by lia. exact E.
Qed.

Lemma indexed_nth_error (samples : list number) (ix : nat * number) :
  In ix (indexed samples) -> nth_error samples (fst ix) = Some (snd ix).
Proof.
  intros H. apply combine_seq_nth_error in H as [E _].
  now rewrite Nat.sub_0_r in E.
Qed.

Lemma filter_indexed_snd (q : number -> bool) samples :
  map snd (filter (fun ix => q (snd ix)) (indexed samples)) = filter q samples.
Proof.
  unfold indexed. generalize 0%nat as k.
  induction samples as [|x l IH]; intros k; simpl; [reflexivity|].
  destruct (q x); simpl; now rewrite IH.
Qed.

Lemma nth_error_indexed (samples : list number) (i : nat) (x : number) :
  nth_error samples i = Some x -> In (i, x) (indexed samples).
Proof.
  unfold indexed. replace i with (0 + i)%nat at 2 by reflexivity.
  generalize 0%nat as k. revert i.
  induction samples as [|y l IH]; intros [|i] k H; simpl in *; try discriminate.
  - injection H as ->. left. now rewrite Nat.add_0_r.
  - right. rewrite <- Nat.add_succ_comm. now apply IH.
Qed.

(** In the regular case the detector tests the z-score of each element. *)
Lemma flagged_by_zScore (samples : list number) (z : number -> number)
  (thr : number) :
  filter (fun ix : nat * number =>
            match nth_error (map z samples) (fst ix) with
            | Some zi => Math_abs zi >? thr
            | None => false
            end) (indexed samples)
  = filter (fun ix => Math_abs (z (snd ix)) >? thr) (indexed samples)
  /\
  filter (fun ix : nat * number =>
            negb match nth_error (map z samples) (fst ix) with
                 | Some zi => Math_abs zi >? thr
                 | None => false
                 end) (indexed samples)
  = filter (fun ix => negb (Math_abs (z (snd ix)) >? thr)) (indexed samples).
Proof.
  split; apply filter_ext_in; intros ix H;
    apply indexed_nth_error in H;
    now rewrite nth_error_map, H.
Qed.

(** C7.  [detectOutliers] on a sample of fewer than three elements, or whose
    sample standard deviation is below 1e-10, reports no outlier: count 0,
    [tooMany] false, [cleaned] the input, every z-score 0.  Otherwise the
    z-scores are [(x - mean) / stdDev], the flagged elements are exactly
    those whose [|z|] exceeds the threshold (2.5 when none is given):
    [indices] their positions, [values] the elements, [cleaned] the others,
    in order; [count] is their number and [tooMany] is [count / n > 0.1]. *)
Theorem detectOutliers_spec (samples : list number) (threshold : option number) :
  let thr := orDefault threshold (2.5 : number) in
  let n := List.length samples in
  let mean := ss_mean samples in
  let stdDev := ss_sampleStandardDeviation samples in
  let z := fun x => (x - mean) / stdDev in
  let exceeds := fun x => Math_abs (z x) >? thr in
  let r := Outliers.detectOutliers samples threshold in
  if (n <? 3)%nat || (stdDev <? 1e-10) then
    o_count r = 0%nat /\ o_indices r = [] /\ o_values r = [] /\
    o_tooMany r = false /\ o_cleaned r = samples /\
    o_zScores r = map (fun _ => 0 : number) samples
  else
    o_zScores r = map z samples /\
    (forall i x, nth_error samples i = Some x ->
                 (In i (o_indices r) <-> exceeds x = true)) /\
    o_indices r
      = map fst (filter (fun ix => exceeds (snd ix)) (indexed samples)) /\
    o_values r = filter exceeds samples /\
    o_cleaned r = filter (fun x => negb (exceeds x)) samples /\
    o_count r = List.length (o_indices r) /\
    o_tooMany r = (of_nat (o_count r) / of_nat n >? 0.1).
Proof.
  intros thr n mean stdDev z exceeds r. subst r.
  unfold Outliers.detectOutliers, Outliers.detectOutliers_scored,
    Outliers.noOutliers. fold thr n mean stdDev.
  destruct (n <? 3)%nat eqn:Hn; simpl; [repeat split|].
  destruct (stdDev <? 1e-10) eqn:Hsd; [repeat split|].
  rewrite splitOutliers_spec. cbv zeta. fold z.
  destruct (flagged_by_zScore samples z thr) as [E1 E2].
  cbn [fst snd] in *.
  rewrite E1, E2. simpl.
  rewrite (filter_indexed_snd (fun x => Math_abs (z x) >? thr)).
  rewrite (filter_indexed_snd (fun x => negb (Math_abs (z x) >? thr))).
  split; [reflexivity|]. split; [|repeat split; reflexivity].
  intros i x Hx. split; intros H.
  - apply in_map_iff in H as [ix [<- H]].
    apply filter_In in H as [H1 H2]. apply indexed_nth_error in H1.
    unfold exceeds. congruence.
  - apply in_map_iff. exists (i, x). split; [reflexivity|].
    apply filter_In. split; [now apply nth_error_indexed | exact H].
Qed.

End OutliersFacts.
End OutliersFacts.

(* ================================================================== *)
(** * Facts about Array.prototype.sort *)
(* ================================================================== *)

Section ArraySortFacts.
Context {N : JSNumber} {A : Type}.
Variable comparefn : A -> A -> number.

Lemma sort_insert_length (x : A) (l : list A) :
  List.length (sort_insert comparefn x l) = S (List.length l).
Proof.
  induction l as [|y l IH]; simpl; [reflexivity|].
  destruct (num_lt _ _); simpl; now rewrite ?IH.
Qed.

Lemma Array_sort_length (l : list A) :
  List.length (Array_sort comparefn l) = List.length l.
Proof.
  induction l as [|x l IH]; simpl; [reflexivity|].
  now rewrite sort_insert_length, IH.
Qed.

Lemma sort_insert_Forall (P : A -> Prop) (x : A) (l : list A) :
  P x -> Forall P l -> Forall P (sort_insert comparefn x l).
Proof.
  intros Hx. induction 1 as [|y l Hy Hl IH]; simpl.
  - now constructor.
  - destruct (num_lt _ _); constructor; auto.
Qed.

Lemma Array_sort_Forall (P : A -> Prop) (l : list A) :
  Forall P l -> Forall P (Array_sort comparefn l).
Proof.
  induction 1; simpl; [constructor|]. now apply sort_insert_Forall.
Qed.

End ArraySortFacts.

(* ================================================================== *)
(** * Facts about mann-whitney.ts: termination *)
(* ================================================================== *)

Module MannWhitneyFacts.
Import MannWhitneySpec.
Section MannWhitneyFacts.
Context {N : JSNumber} {L : JSNumberLaws N}.
Local Open Scope js_scope.

Lemma tie_run_le (c : number) (l : list number) :
  (MannWhitney.tie_run c l <= List.length l)%nat.
Proof.
  induction l as [|x l IH]; simpl; [lia|].
  destruct (x === c); lia.
Qed.

(** With enough fuel for one pass per element, the ranking loop returns on
    numbers: each pass advances over at least the current value. *)
Lemma assignRanks_loop_total :
  forall (fuel i : nat) (rest : list number),
    numeric rest -> (List.length rest <= fuel)%nat ->
    exists ranks,
      MannWhitney.assignRanks_loop fuel i rest = Some ranks /\
      List.length ranks = List.length rest.
Proof.
  induction fuel as [|fuel IH]; intros i rest Hn Hf.
  - destruct rest; simpl in *; [now exists [] | lia].
  - destruct rest as [|c rest]; [now exists []|].
    cbn [MannWhitney.assignRanks_loop].
    assert (Hpos : (1 <= MannWhitney.tie_run c (c :: rest))%nat).
    { simpl. inversion Hn; subst. rewrite num_eq_refl by assumption. lia. }
    pose proof (tie_run_le c (c :: rest)) as Hle.
    remember (MannWhitney.tie_run c (c :: rest)) as run eqn:Hrun. clear Hrun.
    destruct (IH (i + run)%nat (skipn run (c :: rest))) as [ranks [E Len]].
    + unfold numeric in *. rewrite <- (firstn_skipn run (c :: rest)) in Hn.
      now apply Forall_app in Hn.
    + rewrite length_skipn. cbn [List.length] in *. lia.
    + rewrite E. eexists. split; [reflexivity|].
      rewrite length_app, repeat_length, Len, length_skipn. lia.
Qed.

Lemma assignRanks_total (values : list number) :
  numeric values ->
  exists ranks, MannWhitney.assignRanks values = Some ranks /\
                List.length ranks = List.length values.
Proof. intros H. now apply assignRanks_loop_total. Qed.

(** On numbers [mannWhitneyU] returns, and its flag is [pValue < alpha]. *)
Lemma mannWhitneyU_total (sampleA sampleB : list number)
  (alpha : option number) :
  numeric sampleA -> numeric sampleB ->
  exists r, MannWhitney.mannWhitneyU sampleA sampleB alpha = Some r /\
            mw_significant r = (mw_pValue r <? orDefault alpha (0.05 : number)).
Proof.
  intros HA HB. unfold MannWhitney.mannWhitneyU, MannWhitney.mannWhitneyU_ranked.
  match goal with
  | |- context [MannWhitney.assignRanks ?v] =>
      destruct (assignRanks_total v) as [ranks [E _]]
  end.
  - unfold numeric. apply Forall_map. apply Array_sort_Forall.
    apply Forall_app. split; apply Forall_map; simpl.
    + exact HA.
    + exact HB.
  - rewrite E. destruct (MannWhitney.rankSums _ ranks) as [R1 R2].
    eexists. split; reflexivity.
Qed.

End MannWhitneyFacts.
End MannWhitneyFacts.

(* ================================================================== *)
(** * Facts about compare.ts *)
(* ================================================================== *)

Module CompareFacts.
Import CompareSpec.
Section CompareFacts.
Context {N : JSNumber} {NF : JSNonFinite N} {F : JSFormat N}
        {SS : SimpleStatistics N}.
Local Open Scope js_scope.

Lemma assessDataQuality_spec (diagA diagB : SampleDiagnostics)
  (labels : string * string) :
  Compare.assessDataQuality diagA diagB labels
  = (qualityOf (mergedRecommendation diagA diagB),
     outlierWarning (fst labels) diagA ++ outlierWarning (snd labels) diagB
     ++ normalityWarning (fst labels) diagA
     ++ normalityWarning (snd labels) diagB,
     mergedRecommendation diagA diagB).
Proof.
  unfold Compare.assessDataQuality, mergedRecommendation, outlierWarning,
    normalityWarning, Compare.listValues.
  destruct (o_tooMany (sd_outliers diagA)), (o_tooMany (sd_outliers diagB)),
    (nt_isNormal (sd_normality diagA)), (nt_isNormal (sd_normality diagB)),
    (0 <? o_count (sd_outliers diagA))%nat,
    (0 <? o_count (sd_outliers diagB))%nat; reflexivity.
Qed.

(** The verdict is [significant] exactly when the three gates pass, and
    [not_significant] otherwise. *)
Lemma determineVerdict_spec (sig : bool) (absEffectSize absDifference : number)
  (config : FullConfig) (isRankBiserial : bool) :
  let effectThreshold : number :=
    if isRankBiserial then 0.3 else effectSizeMinimum config in
  let v := Compare.determineVerdict sig absEffectSize absDifference config
             isRankBiserial in
  (v = significant <->
   sig = true /\ (absEffectSize <? effectThreshold) = false /\
   (absDifference <? practicalThreshold config) = false) /\
  (v = significant \/ v = not_significant).
Proof.
  unfold Compare.determineVerdict.
  destruct sig; simpl.
  2:{ split; [split; [discriminate | intros [? _]; discriminate] | now right]. }
  destruct (absEffectSize <? _).
  { split; [split; [discriminate | intros [_ [? _]]; discriminate] | now right]. }
  destruct (absDifference <? _).
  { split; [split; [discriminate | intros [_ [_ ?]]; discriminate] | now right]. }
  split; [split; auto | now left].
Qed.

(** C3.  When either sample has fewer than three elements,
    [compareConditions] returns the insufficient-data result: verdict
    [insufficient_data], recommendation [caution], one warning citing both
    actual sizes and the required three, and placeholder evidence.  Neither
    test is run: the result is the same whatever the two imported tests
    are. *)
Theorem insufficient_data_gate
  (welch : list number -> list number -> option number -> WelchTestResult)
  (mw : list number -> list number -> option number -> option MannWhitneyResult)
  (sampleA sampleB : list number) (config : CompareConfig) :
  (List.length sampleA < 3 \/ List.length sampleB < 3)%nat ->
  let fullConfig := Compare.mergeConfig config in
  exists r,
    Compare.compareConditions_with welch mw sampleA sampleB config = Some r /\
    r = Compare.createInsufficientDataResult sampleA sampleB fullConfig /\
    verdict r = insufficient_data /\
    recommendation r = caution /\
    cd_warnings (diagnostics r)
    = [("Insufficient data: " ++ fst (labels fullConfig) ++ " has "
        ++ string_of_nat (List.length sampleA) ++ " samples, "
        ++ snd (labels fullConfig) ++ " has "
        ++ string_of_nat (List.length sampleB)
        ++ " samples. Need at least 3 each.")%string] /\
    ev_pValue (evidence r) = 1 /\
    ev_testStatistic (evidence r) = 0 /\
    ev_degreesOfFreedom (evidence r) = 0 /\
    ev_effectSize (evidence r) = 0 /\
    ev_ci95 (evidence r) = None.
Proof.
  intros H fullConfig. unfold Compare.compareConditions_with.
  fold fullConfig.
  assert (G : (List.length sampleA <? 3)%nat || (List.length sampleB <? 3)%nat
              = true).
  { apply orb_true_iff. destruct H; [left | right]; now apply Nat.ltb_lt. }
  rewrite G. eexists. repeat split.
Qed.

Section WithLaws.
Context {L : JSNumberLaws N}.

(** On two samples of numbers, of at least three elements each,
    [compareConditions] returns, and what it returns is decided by the
    merged recommendation. *)
Lemma compareConditions_returns (sampleA sampleB : list number)
  (config : CompareConfig) :
  (3 <= List.length sampleA)%nat -> (3 <= List.length sampleB)%nat ->
  MannWhitneySpec.numeric sampleA -> MannWhitneySpec.numeric sampleB ->
  let fullConfig := Compare.mergeConfig config in
  let diagA :=
    SampleQuality.getSampleDiagnostics sampleA
      (Some (outlierThreshold fullConfig)) in
  let diagB :=
    SampleQuality.getSampleDiagnostics sampleB
      (Some (outlierThreshold fullConfig)) in
  let rec := mergedRecommendation diagA diagB in
  exists (r : CompareResult) (sig : bool) (effect : number),
    Compare.compareConditions sampleA sampleB config = Some r /\
    recommendation r = rec /\
    cd_overallQuality (diagnostics r) = qualityOf rec /\
    cd_warnings (diagnostics r)
    = outlierWarning (fst (labels fullConfig)) diagA
      ++ outlierWarning (snd (labels fullConfig)) diagB
      ++ normalityWarning (fst (labels fullConfig)) diagA
      ++ normalityWarning (snd (labels fullConfig)) diagB /\
    ev_testUsed (evidence r)
    = match rec with
      | use_nonparametric => mann_whitney_u
      | _ => welch_t_test
      end /\
    ev_meanA (evidence r) = ss_mean sampleA /\
    ev_meanB (evidence r) = ss_mean sampleB /\
    sig = (ev_pValue (evidence r) <? alpha fullConfig) /\
    effect = ev_effectSize (evidence r) /\
    verdict r
    = Compare.determineVerdict sig (Math_abs effect)
        (Math_abs (ss_mean sampleA - ss_mean sampleB)) fullConfig
        match rec with
        | use_nonparametric => true
        | _ => false
        end.
Proof.
  intros HA HB NA NB fullConfig diagA diagB rec.
  unfold Compare.compareConditions, Compare.compareConditions_with.
  fold fullConfig.
  replace (List.length sampleA <? 3)%nat with false
    by (symmetry; apply Nat.ltb_ge; lia).
  replace (List.length sampleB <? 3)%nat with false
    by (symmetry; apply Nat.ltb_ge; lia).
  cbn [orb]. unfold Compare.getSampleDiagnostics. fold diagA diagB.
  rewrite assessDataQuality_spec. fold rec.
  assert (MA : sd_mean diagA = ss_mean sampleA).
  { subst diagA. unfold SampleQuality.getSampleDiagnostics.
    replace (List.length sampleA =? 0)%nat with false
      by (symmetry; apply Nat.eqb_neq; lia). reflexivity. }
  assert (MB : sd_mean diagB = ss_mean sampleB).
  { subst diagB. unfold SampleQuality.getSampleDiagnostics.
    replace (List.length sampleB =? 0)%nat with false
      by (symmetry; apply Nat.eqb_neq; lia). reflexivity. }
  destruct rec eqn:E.
  - do 3 eexists. split; [reflexivity|]. cbn. rewrite MA, MB.
    repeat split; reflexivity.
  - do 3 eexists. split; [reflexivity|]. cbn. rewrite MA, MB.
    repeat split; reflexivity.
  - destruct (MannWhitneyFacts.mannWhitneyU_total
                sampleA sampleB (Some (alpha fullConfig)) NA NB)
      as [res [Emw Esig]].
    rewrite Emw. do 3 eexists. split; [reflexivity|]. cbn.
    rewrite MA, MB, Esig. repeat split; reflexivity.
Qed.

(** C2.  On two samples of at least three numbers each, the overall
    recommendation of [compareConditions] is [use_nonparametric] as soon as
    either sample has too many outliers or fails normality; failing that it
    is [caution] when either sample has an outlier, and [proceed] otherwise
    (so an outlier count never lowers [use_nonparametric]).  The overall
    quality is [poor] exactly for [use_nonparametric], [acceptable] exactly
    for [caution], [good] otherwise.  The warnings are those of the
    outlier check of A, then of B, then of the normality check of A, then
    of B. *)
Theorem data_quality_merge (sampleA sampleB : list number)
  (config : CompareConfig) :
  (3 <= List.length sampleA)%nat -> (3 <= List.length sampleB)%nat ->
  MannWhitneySpec.numeric sampleA -> MannWhitneySpec.numeric sampleB ->
  let fullConfig := Compare.mergeConfig config in
  let diagA :=
    SampleQuality.getSampleDiagnostics sampleA
      (Some (outlierThreshold fullConfig)) in
  let diagB :=
    SampleQuality.getSampleDiagnostics sampleB
      (Some (outlierThreshold fullConfig)) in
  let tooManyA := o_tooMany (sd_outliers diagA) in
  let tooManyB := o_tooMany (sd_outliers diagB) in
  let countA := o_count (sd_outliers diagA) in
  let countB := o_count (sd_outliers diagB) in
  let normalA := nt_isNormal (sd_normality diagA) in
  let normalB := nt_isNormal (sd_normality diagB) in
  exists r : CompareResult,
    Compare.compareConditions sampleA sampleB config = Some r /\
    (recommendation r = use_nonparametric <->
     tooManyA = true \/ tooManyB = true \/
     normalA = false \/ normalB = false) /\
    (recommendation r = caution <->
     (tooManyA = false /\ tooManyB = false /\
      normalA = true /\ normalB = true) /\
     (0 < countA \/ 0 < countB)%nat) /\
    (recommendation r = proceed <->
     (tooManyA = false /\ tooManyB = false /\
      normalA = true /\ normalB = true) /\
     (countA = 0 /\ countB = 0)%nat) /\
    (cd_overallQuality (diagnostics r) = poor <->
     recommendation r = use_nonparametric) /\
    (cd_overallQuality (diagnostics r) = acceptable <->
     recommendation r = caution) /\
    (cd_overallQuality (diagnostics r) = good <->
     recommendation r = proceed) /\
    cd_warnings (diagnostics r)
    = outlierWarning (fst (labels fullConfig)) diagA
      ++ outlierWarning (snd (labels fullConfig)) diagB
      ++ normalityWarning (fst (labels fullConfig)) diagA
      ++ normalityWarning (snd (labels fullConfig)) diagB.
Proof.
  intros HA HB NA NB fullConfig diagA diagB
    tooManyA tooManyB countA countB normalA normalB.
  destruct (compareConditions_returns sampleA sampleB config HA HB NA NB)
    as [r [sig [effect [E [Hrec [Hq [Hw _]]]]]]].
  fold fullConfig diagA diagB in Hrec, Hq, Hw.
  exists r. split; [exact E|]. rewrite Hq, Hrec. clear E Hq Hrec.
  split; [|split; [|split; [|split; [|split; [|split]]]]]; try exact Hw.
  all: unfold mergedRecommendation, qualityOf.
  all: fold tooManyA tooManyB countA countB normalA normalB.
  all: destruct (Nat.ltb_spec 0 countA), (Nat.ltb_spec 0 countB).
  all: destruct tooManyA, tooManyB, normalA, normalB; cbn.
  all: split; intros; intuition (try discriminate; try lia; auto).
Qed.

(** What [compareConditions] returns on such samples, in terms of the two
    tests run on the samples themselves: the evidence and the verdict are
    those of the Welch branch applied to [welchTTest sampleA sampleB alpha]
    unless the merged recommendation is [use_nonparametric], and those of
    the Mann-Whitney branch applied to the result of
    [mannWhitneyU sampleA sampleB alpha] when it is. *)
Lemma compareConditions_tests (sampleA sampleB : list number)
  (config : CompareConfig) :
  (3 <= List.length sampleA)%nat -> (3 <= List.length sampleB)%nat ->
  MannWhitneySpec.numeric sampleA -> MannWhitneySpec.numeric sampleB ->
  let fullConfig := Compare.mergeConfig config in
  let diagA :=
    SampleQuality.getSampleDiagnostics sampleA
      (Some (outlierThreshold fullConfig)) in
  let diagB :=
    SampleQuality.getSampleDiagnostics sampleB
      (Some (outlierThreshold fullConfig)) in
  let rec := mergedRecommendation diagA diagB in
  exists r : CompareResult,
    Compare.compareConditions sampleA sampleB config = Some r /\
    recommendation r = rec /\
    sd_mean diagA = ss_mean sampleA /\
    sd_mean diagB = ss_mean sampleB /\
    (rec <> use_nonparametric ->
     (evidence r, verdict r)
     = Compare.welchBranch fullConfig diagA diagB
         (Welch.welchTTest sampleA sampleB (Some (alpha fullConfig)))) /\
    (rec = use_nonparametric ->
     exists mw : MannWhitneyResult,
       MannWhitney.mannWhitneyU sampleA sampleB (Some (alpha fullConfig))
       = Some mw /\
       mw_significant mw = (mw_pValue mw <? alpha fullConfig) /\
       (evidence r, verdict r)
       = Compare.mannWhitneyBranch fullConfig diagA diagB mw).
Proof.
  intros HA HB NA NB fullConfig diagA diagB rec.
  unfold Compare.compareConditions, Compare.compareConditions_with.
  fold fullConfig.
  replace (List.length sampleA <? 3)%nat with false
    by (symmetry; apply Nat.ltb_ge; lia).
  replace (List.length sampleB <? 3)%nat with false
    by (symmetry; apply Nat.ltb_ge; lia).
  cbn [orb]. unfold Compare.getSampleDiagnostics. fold diagA diagB.
  rewrite assessDataQuality_spec. fold rec.
  assert (MA : sd_mean diagA = ss_mean sampleA).
  { subst diagA. unfold SampleQuality.getSampleDiagnostics.
    replace (List.length sampleA =? 0)%nat with false
      by (symmetry; apply Nat.eqb_neq; lia). reflexivity. }
  assert (MB : sd_mean diagB = ss_mean sampleB).
  { subst diagB. unfold SampleQuality.getSampleDiagnostics.
    replace (List.length sampleB =? 0)%nat with false
      by (symmetry; apply Nat.eqb_neq; lia). reflexivity. }
  destruct rec eqn:E.
  - eexists. split; [reflexivity|]. cbn [recommendation Compare.buildResult].
    repeat split; auto. discriminate.
  - eexists. split; [reflexivity|]. cbn [recommendation Compare.buildResult].
    repeat split; auto. discriminate.
  - destruct (MannWhitneyFacts.mannWhitneyU_total
                sampleA sampleB (Some (alpha fullConfig)) NA NB)
      as [res [Emw Esig]].
    rewrite Emw. eexists. split; [reflexivity|].
    cbn [recommendation Compare.buildResult].
    repeat split; auto. { intros K; now elim K. }
    intros _. exists res. repeat split; auto.
Qed.

(** C1.  On two samples of at least three numbers each, the verdict of
    [compareConditions] is [significant] exactly when the three gates pass:
    the p-value of the test that ran is below alpha; the absolute effect
    size is not below the effect threshold, which is the configured
    [effectSizeMinimum] (0.5 when absent) after Welch's t-test and the fixed
    0.3 after Mann-Whitney; and the absolute difference of the two means is
    not below the practical threshold.  Any failure gives
    [not_significant]; [data_quality_issue] is never the verdict.  "Not
    below" is the test the code makes, [!(x < t)]; the sixth part states the
    gates with [x >= t], which is the same whenever neither side is NaN.

    The quantities gated are those of the samples: the recommendation is
    the merged recommendation of the two samples' diagnostics; the means in
    the evidence are [ss.mean] of the two samples; unless the
    recommendation is [use_nonparametric], the p-value, statistic, degrees
    of freedom, effect size, label and interval in the evidence are those of
    [welchTTest sampleA sampleB alpha], whose own [significant] flag is
    [pValue < alpha], and the verdict is [significant] exactly when that
    flag is set, [|effectSize|] of that result is not below
    [effectSizeMinimum] and [|mean A - mean B|] is not below the practical
    threshold; when the recommendation is [use_nonparametric],
    [mannWhitneyU sampleA sampleB alpha] returns, the evidence holds its
    p-value, U and effect size, and the verdict is [significant] exactly
    when its [significant] flag is set, its [|effectSize|] is not below 0.3
    and [|mean A - mean B|] is not below the practical threshold. *)
Theorem three_gates (sampleA sampleB : list number) (config : CompareConfig) :
  (3 <= List.length sampleA)%nat -> (3 <= List.length sampleB)%nat ->
  MannWhitneySpec.numeric sampleA -> MannWhitneySpec.numeric sampleB ->
  let fullConfig := Compare.mergeConfig config in
  let diagA :=
    SampleQuality.getSampleDiagnostics sampleA
      (Some (outlierThreshold fullConfig)) in
  let diagB :=
    SampleQuality.getSampleDiagnostics sampleB
      (Some (outlierThreshold fullConfig)) in
  let welch := Welch.welchTTest sampleA sampleB (Some (alpha fullConfig)) in
  let absDifference := Math_abs (ss_mean sampleA - ss_mean sampleB) in
  exists r : CompareResult,
    Compare.compareConditions sampleA sampleB config = Some r /\
    let ev := evidence r in
    let effectThreshold : number :=
      match ev_testUsed ev with
      | welch_t_test => orDefault (cfg_effectSizeMinimum config) (0.5 : number)
      | mann_whitney_u => 0.3
      end in
    (ev_testUsed ev = mann_whitney_u <-> recommendation r = use_nonparametric) /\
    (verdict r = significant <->
     (ev_pValue ev <? alpha fullConfig) = true /\
     (Math_abs (ev_effectSize ev) <? effectThreshold) = false /\
     (Math_abs (ev_meanA ev - ev_meanB ev) <? cfg_practicalThreshold config)
     = false) /\
    (verdict r <> significant -> verdict r = not_significant) /\
    verdict r <> data_quality_issue /\
    verdict r <> insufficient_data /\
    (isNaN (Math_abs (ev_effectSize ev)) = false ->
     isNaN effectThreshold = false ->
     isNaN (Math_abs (ev_meanA ev - ev_meanB ev)) = false ->
     isNaN (cfg_practicalThreshold config) = false ->
     (verdict r = significant <->
      (ev_pValue ev <? alpha fullConfig) = true /\
      (Math_abs (ev_effectSize ev) >=? effectThreshold) = true /\
      (Math_abs (ev_meanA ev - ev_meanB ev) >=? cfg_practicalThreshold config)
      = true)) /\
    recommendation r = mergedRecommendation diagA diagB /\
    ev_meanA ev = ss_mean sampleA /\
    ev_meanB ev = ss_mean sampleB /\
    ev_difference ev = ss_mean sampleA - ss_mean sampleB /\
    (recommendation r <> use_nonparametric ->
     ev_testUsed ev = welch_t_test /\
     ev_pValue ev = w_pValue welch /\
     ev_testStatistic ev = w_t welch /\
     ev_degreesOfFreedom ev = w_df welch /\
     ev_effectSize ev = w_effectSize welch /\
     ev_effectSizeLabel ev = w_effectSizeLabel welch /\
     ev_ci95 ev = Some (w_ci95 welch) /\
     w_significant welch = (w_pValue welch <? alpha fullConfig) /\
     (verdict r = significant <->
      w_significant welch = true /\
      (Math_abs (w_effectSize welch)
       <? orDefault (cfg_effectSizeMinimum config) (0.5 : number)) = false /\
      (absDifference <? cfg_practicalThreshold config) = false)) /\
    (recommendation r = use_nonparametric ->
     exists mw : MannWhitneyResult,
       MannWhitney.mannWhitneyU sampleA sampleB (Some (alpha fullConfig))
       = Some mw /\
       ev_testUsed ev = mann_whitney_u /\
       ev_pValue ev = mw_pValue mw /\
       ev_testStatistic ev = mw_U mw /\
       ev_effectSize ev = mw_effectSize mw /\
       ev_effectSizeLabel ev = mw_effectSizeLabel mw /\
       ev_ci95 ev = None /\
       mw_significant mw = (mw_pValue mw <? alpha fullConfig) /\
       (verdict r = significant <->
        mw_significant mw = true /\
        (Math_abs (mw_effectSize mw) <? (0.3 : number)) = false /\
        (absDifference <? cfg_practicalThreshold config) = false)).
Proof.
  intros HA HB NA NB fullConfig diagA diagB welch absDifference.
  destruct (compareConditions_tests sampleA sampleB config HA HB NA NB)
    as [r [E [Hrec [MA [MB [HW HM]]]]]].
  fold fullConfig diagA diagB in Hrec, MA, MB, HW, HM. fold welch in HW.
  exists r. split; [exact E|]. cbv zeta. rewrite Hrec.
  set (rec := mergedRecommendation diagA diagB) in *. clearbody rec.
  assert (Hev : exists sig effect rank,
    (rec = use_nonparametric <-> rank = true) /\
    ev_testUsed (evidence r) = (if rank then mann_whitney_u else welch_t_test) /\
    ev_meanA (evidence r) = ss_mean sampleA /\
    ev_meanB (evidence r) = ss_mean sampleB /\
    ev_difference (evidence r) = ss_mean sampleA - ss_mean sampleB /\
    sig = (ev_pValue (evidence r) <? alpha fullConfig) /\
    effect = ev_effectSize (evidence r) /\
    verdict r = Compare.determineVerdict sig (Math_abs effect) absDifference
                  fullConfig rank).
  { assert (D : rec = use_nonparametric \/ rec <> use_nonparametric)
      by (destruct rec; [right | right | left]; congruence).
    destruct D as [K | K].
    - destruct (HM K) as [mw [_ [Esig Hb]]].
      pose proof (f_equal fst Hb) as Hb1. pose proof (f_equal snd Hb) as Hb2.
      cbn [fst snd] in Hb1, Hb2. rewrite Hb1, Hb2. clear Hb1 Hb2.
      unfold Compare.mannWhitneyBranch. cbn [fst snd]. cbn [ev_meanA ev_meanB ev_difference ev_differencePercent ev_pValue ev_testStatistic ev_degreesOfFreedom ev_effectSize ev_effectSizeLabel ev_ci95 ev_testUsed].
      rewrite MA, MB, Esig. fold absDifference.
      exists (mw_pValue mw <? alpha fullConfig), (mw_effectSize mw), true.
      repeat split; auto.
    - specialize (HW K).
      pose proof (f_equal fst HW) as Hb1. pose proof (f_equal snd HW) as Hb2.
      cbn [fst snd] in Hb1, Hb2. rewrite Hb1, Hb2. clear Hb1 Hb2.
      unfold Compare.welchBranch. cbn [fst snd]. cbn [ev_meanA ev_meanB ev_difference ev_differencePercent ev_pValue ev_testStatistic ev_degreesOfFreedom ev_effectSize ev_effectSizeLabel ev_ci95 ev_testUsed].
      rewrite MA, MB.
      exists (w_pValue welch <? alpha fullConfig), (w_effectSize welch), false.
      repeat split; try reflexivity.
      + intros K'. now elim K.
      + discriminate. }
  destruct Hev as [sig [effect [rank [Hrank [Hused [HmA [HmB [Hd [Hsig [Heff Hv]]]]]]]]]].
  destruct (determineVerdict_spec sig (Math_abs effect) absDifference
              fullConfig rank) as [Hiff Hor].
  cbv zeta in Hiff. rewrite <- Hv in Hiff, Hor.
  assert (Hth : (if rank then (0.3 : number) else effectSizeMinimum fullConfig)
                = match (if rank then mann_whitney_u else welch_t_test) with
                  | welch_t_test =>
                      orDefault (cfg_effectSizeMinimum config) (0.5 : number)
                  | mann_whitney_u => 0.3
                  end) by (destruct rank; reflexivity).
  rewrite Hth in Hiff.
  change (practicalThreshold fullConfig) with (cfg_practicalThreshold config)
    in Hiff.
  split; [|split; [|split; [|split; [|split; [|split]]]]].
  1-6: rewrite ?HmA, ?HmB, ?Hused, <- ?Hsig, <- ?Heff; fold absDifference.
  - destruct rank; split; intros K; try discriminate; try reflexivity.
    + now apply Hrank.
    + apply Hrank in K. discriminate.
  - exact Hiff.
  - destruct Hor as [K | K]; rewrite K; congruence.
  - destruct Hor as [K | K]; rewrite K; congruence.
  - destruct Hor as [K | K]; rewrite K; congruence.
  - intros N1 N2 N3 N4. rewrite Hiff.
    rewrite (num_not_lt_ge _ _ N1 N2), (num_not_lt_ge _ _ N3 N4).
    reflexivity.
  - clear Hiff Hth Hor Hv Hsig Heff Hused Hrank.
    split; [reflexivity|]. split; [exact HmA|]. split; [exact HmB|].
    split; [exact Hd|]. split.
    + intros K. specialize (HW K).
      pose proof (f_equal fst HW) as Hb1. pose proof (f_equal snd HW) as Hb2.
      cbn [fst snd] in Hb1, Hb2. rewrite Hb1, Hb2. clear Hb1 Hb2.
      unfold Compare.welchBranch. cbn [fst snd]. cbn [ev_meanA ev_meanB ev_difference ev_differencePercent ev_pValue ev_testStatistic ev_degreesOfFreedom ev_effectSize ev_effectSizeLabel ev_ci95 ev_testUsed].
      destruct (determineVerdict_spec (w_significant welch)
                  (Math_abs (w_effectSize welch)) (Math_abs (w_meanDiff welch))
                  fullConfig false) as [Hiff _].
      cbv zeta in Hiff.
      repeat split; try reflexivity; apply Hiff; assumption.
    + intros K. destruct (HM K) as [mw [Emw [Esig Hb]]].
      exists mw.
      pose proof (f_equal fst Hb) as Hb1. pose proof (f_equal snd Hb) as Hb2.
      cbn [fst snd] in Hb1, Hb2. rewrite Hb1, Hb2. clear Hb1 Hb2.
      unfold Compare.mannWhitneyBranch. cbn [fst snd]. cbn [ev_meanA ev_meanB ev_difference ev_differencePercent ev_pValue ev_testStatistic ev_degreesOfFreedom ev_effectSize ev_effectSizeLabel ev_ci95 ev_testUsed].
      rewrite MA, MB. fold absDifference.
      destruct (determineVerdict_spec (mw_significant mw)
                  (Math_abs (mw_effectSize mw)) absDifference
                  fullConfig true) as [Hiff _].
      cbv zeta in Hiff.
      repeat split; auto; apply Hiff; assumption.
Qed.

End WithLaws.

End CompareFacts.
End CompareFacts.

(* ================================================================== *)
(** * The claims at concrete inputs (binary64) *)
(* ================================================================== *)

Module Scenarios.
Import Samples.

Lemma three_gates_scenario :
  (3 <= List.length scenarioA)%nat /\ (3 <= List.length scenarioB)%nat /\
  MannWhitneySpec.numeric (N := Float64) scenarioA /\
  MannWhitneySpec.numeric (N := Float64) scenarioB /\
  exists r : @CompareResult Float64,
    Compare.compareConditions (N := Float64) scenarioA scenarioB (thresholdOnly 10) = Some r /\
    (verdict r = significant <->
     PrimFloat.ltb (ev_pValue (evidence r)) (F64.of_lit 0.05%js) = true /\
     PrimFloat.ltb (PrimFloat.abs (ev_effectSize (evidence r)))
       match ev_testUsed (evidence r) with
       | welch_t_test => F64.of_lit 0.5%js
       | mann_whitney_u => F64.of_lit 0.3%js
       end = false /\
     PrimFloat.ltb
       (PrimFloat.abs
          (PrimFloat.sub (ev_meanA (evidence r)) (ev_meanB (evidence r))))
       10%float = false) /\
    verdict r <> data_quality_issue.
Proof.
  assert (HA : (3 <= List.length scenarioA)%nat) by (simpl; lia).
  assert (HB : (3 <= List.length scenarioB)%nat) by (simpl; lia).
  assert (NA : MannWhitneySpec.numeric (N := Float64) scenarioA)
    by (repeat constructor).
  assert (NB : MannWhitneySpec.numeric (N := Float64) scenarioB)
    by (repeat constructor).
  repeat split; try assumption.
  destruct (CompareFacts.three_gates (N := Float64) scenarioA scenarioB (thresholdOnly 10)
              HA HB NA NB) as [r [E [_ [Hiff [_ [Hdq _]]]]]].
  exists r. split; [exact E|]. split; [exact Hiff | exact Hdq].
Defined.

Lemma data_quality_scenario :
  (3 <= List.length scenarioA)%nat /\ (3 <= List.length scenarioB)%nat /\
  MannWhitneySpec.numeric (N := Float64) scenarioA /\
  MannWhitneySpec.numeric (N := Float64) scenarioB /\
  exists r : @CompareResult Float64,
    Compare.compareConditions (N := Float64) scenarioA scenarioB (thresholdOnly 10) = Some r /\
    (cd_overallQuality (diagnostics r) = poor <->
     recommendation r = use_nonparametric).
Proof.
  assert (HA : (3 <= List.length scenarioA)%nat) by (simpl; lia).
  assert (HB : (3 <= List.length scenarioB)%nat) by (simpl; lia).
  assert (NA : MannWhitneySpec.numeric (N := Float64) scenarioA)
    by (repeat constructor).
  assert (NB : MannWhitneySpec.numeric (N := Float64) scenarioB)
    by (repeat constructor).
  repeat split; try assumption.
  destruct (CompareFacts.data_quality_merge (N := Float64) scenarioA scenarioB
              (thresholdOnly 10) HA HB NA NB)
    as [r [E [_ [_ [_ [Hq _]]]]]].
  exists r. split; assumption.
Defined.

(** The insufficient-data example of the specification. *)
Lemma insufficient_data_scenario :
  (List.length [1; 2]%float < 3 \/ List.length [3; 4]%float < 3)%nat /\
  exists r : @CompareResult Float64,
    Compare.compareConditions (N := Float64) [1; 2]%float [3; 4]%float (thresholdOnly 1)
    = Some r /\
    verdict r = insufficient_data /\
    recommendation r = caution /\
    cd_warnings (diagnostics r)
    = ["Insufficient data: A has 2 samples, B has 2 samples. Need at least 3 each."%string].
Proof.
  assert (H : (List.length [1; 2]%float < 3 \/ List.length [3; 4]%float < 3)%nat)
    by (left; simpl; lia).
  split; [exact H|].
  destruct (CompareFacts.insufficient_data_gate (N := Float64)
              Welch.welchTTest MannWhitney.mannWhitneyU
              [1; 2]%float [3; 4]%float (thresholdOnly 1) H)
    as [r [E [_ [Hv [Hr [Hw _]]]]]].
  exists r. repeat split; assumption.
Defined.

End Scenarios.

(* ================================================================== *)
(** * Facts about welch-t-test.ts *)
(* ================================================================== *)

Module WelchFacts.

Section Symmetry.
Context {N : JSNumber} {L : JSNumberLaws N}.
Local Open Scope js_scope.


End Symmetry.



(** C6 (defect of the code).  On two samples without variance the standard
    error is 0, the statistic and the degrees of freedom are [0/0], and the
    confidence interval comes out as [(NaN, NaN)]: the mean difference 0 is
    not within it. *)
Lemma welchTTest_zero_variance :
  let r := Welch.welchTTest (N := Float64) [5; 5; 5]%float [5; 5; 5]%float None in
  w_meanDiff r = 0%float /\
  PrimFloat.is_nan (fst (w_ci95 r)) = true /\
  PrimFloat.is_nan (snd (w_ci95 r)) = true /\
  PrimFloat.leb (fst (w_ci95 r)) (w_meanDiff r) = false /\
  PrimFloat.leb (w_meanDiff r) (snd (w_ci95 r)) = false.
Proof. vm_compute. repeat split. Qed.

End WelchFacts.

(* ================================================================== *)
(** * Facts about mann-whitney.ts at binary64 *)
(* ================================================================== *)

Module MannWhitneyEval.

(** C5 (defect of the code).  With ties in both samples, [1; 2; 3] against
    [1; 2; 4] gives [U = 4], hence [z = (4 - 4.5 + 0.5) / stdU = 0], and
    the p-value [2 * normalCDF (-0) = 1 + erf 0] is 1.000000001: above 1. *)
Lemma mannWhitneyU_pValue_above_one :
  match
    MannWhitney.mannWhitneyU (N := Float64) [1; 2; 3]%float [1; 2; 4]%float None
  with
  | Some r =>
      PrimFloat.eqb (mw_U r) 4 && PrimFloat.ltb 1 (mw_pValue r)
      && PrimFloat.ltb (mw_pValue r) (F64.of_lit 1.0000001%js)
  | None => false
  end = true.
Proof. vm_compute. reflexivity. Qed.

(** The other end: two well separated samples of sixty give a p-value that
    is exactly 0, [exp] having underflowed against 1. *)
Lemma mannWhitneyU_pValue_zero :
  match
    MannWhitney.mannWhitneyU (N := Float64)
      (map F64.of_nat (seq 1 60)) (map F64.of_nat (seq 100 60)) None
  with
  | Some r => PrimFloat.eqb (mw_pValue r) 0
  | None => false
  end = true.
Proof. vm_compute. reflexivity. Qed.

End MannWhitneyEval.

(* ================================================================== *)
(** * Facts about normality.ts *)
(* ================================================================== *)

Module NormalityFacts.
Import NormalitySpec.

Section Range.
Context {N : JSNumber} {NF : JSNonFinite N} {F : JSFormat N}
        {SS : SimpleStatistics N} {L : JSNumberLaws N}.
Local Open Scope js_scope.

Lemma zero_in_unit : unit_or_NaN 0.
Proof.
  right. split; [apply num_le_refl, num_lit_0_number | apply num_le_0_1].
Qed.

Lemma one_in_unit : unit_or_NaN 1.
Proof.
  right. split; [apply num_le_0_1 | apply num_le_refl, num_lit_1_number].
Qed.

(** What the clamp [Math.max(0, Math.min(1, x))] achieves: a result in
    [0, 1] unless it is NaN. *)
Lemma clamp_in_unit (x : number) : unit_or_NaN (Math_max 0 (Math_min 1 x)).
Proof.
  unfold unit_or_NaN.
  destruct (Math_max_spec 0 (Math_min 1 x)) as [Hn | [[E | E] [H0 Hm]]];
    [now left | |].
  - rewrite E. apply zero_in_unit.
  - destruct (Math_min_spec 1 x) as [Hn | [_ [H1 _]]].
    + left. now rewrite E.
    + right. rewrite E in *. split; assumption.
Qed.

Lemma shapiroWilkPValue_in_unit (W : number) (n : nat) :
  unit_or_NaN (Normality.shapiroWilkPValue W n).
Proof.
  unfold Normality.shapiroWilkPValue.
  destruct (W >=? 1); [apply one_in_unit|].
  destruct (W <=? 0); [apply zero_in_unit|].
  destruct (n <=? 11)%nat.
  - match goal with |- context [if ?c then _ else _] => destruct c end;
      [apply zero_in_unit | apply clamp_in_unit].
  - apply clamp_in_unit.
Qed.

(** The part of C4 that holds at every input: the three early returns are
    as stated, and beyond them [W] and the p-value lie in [0, 1] unless
    they are NaN. *)
Lemma shapiroWilkTest_range (samples : list number) :
  let n := List.length samples in
  let r := Normality.shapiroWilkTest samples in
  let sorted := Array_sort (fun a b => a - b) samples in
  let sumSquaredDev :=
    fold_left (fun sum x => sum + (x - ss_mean sorted) ** 2) sorted (0 : number) in
  ((n < 3)%nat -> nt_W r = 1 /\ nt_pValue r = 1 /\ nt_isNormal r = true) /\
  ((5000 < n)%nat ->
   nt_W r = 0 /\ nt_pValue r = 0 /\ nt_isNormal r = false) /\
  ((3 <= n <= 5000)%nat -> (sumSquaredDev <? 1e-10) = true ->
   nt_W r = 1 /\ nt_pValue r = 1 /\ nt_isNormal r = true) /\
  unit_or_NaN (nt_W r) /\ unit_or_NaN (nt_pValue r).
Proof.
  intros n r sorted sumSquaredDev. subst r.
  unfold Normality.shapiroWilkTest, Normality.shapiroWilkTest_guard,
    Normality.shapiroWilkTest_sorted.
  fold n sorted. cbv zeta. fold sumSquaredDev.
  destruct (Nat.ltb_spec n 3).
  { repeat split; try lia; try apply one_in_unit. }
  destruct (Nat.ltb_spec 5000 n).
  { repeat split; try lia; try apply zero_in_unit. }
  destruct (sumSquaredDev <? 1e-10) eqn:Hs.
  { repeat split; try lia; try apply one_in_unit. }
  cbn [nt_W nt_pValue nt_isNormal].
  repeat split; try lia; try discriminate.
  - apply clamp_in_unit.
  - apply shapiroWilkPValue_in_unit.
Qed.

End Range.

(** C4 (defect of the code).  The clamp lets NaN through.  On the finite
    sample [-1e200, 0, 1e200] the sum of squared deviations overflows to
    infinity, and so does [b * b]: [W] is infinity over infinity, NaN, and
    the p-value computed from it is NaN as well; neither is in [0, 1]. *)
Lemma shapiroWilkTest_overflow :
  let r :=
    Normality.shapiroWilkTest (N := Float64)
      [F64.of_lit (-1e200)%js; 0%float; F64.of_lit 1e200%js] in
  PrimFloat.is_nan (nt_W r) = true /\
  PrimFloat.is_nan (nt_pValue r) = true /\
  PrimFloat.leb 0 (nt_W r) = false /\
  PrimFloat.leb (nt_W r) 1 = false /\
  PrimFloat.leb 0 (nt_pValue r) = false /\
  PrimFloat.leb (nt_pValue r) 1 = false /\
  nt_isNormal r = false.
Proof. vm_compute. repeat split. Qed.

End NormalityFacts.

(* ================================================================== *)
(** * Facts about mann-whitney.ts in exact arithmetic *)
(* ================================================================== *)

Section ArraySortPermutation.
Context {N : JSNumber} {A : Type}.
Variable comparefn : A -> A -> number.

Lemma sort_insert_perm (x : A) (l : list A) :
  Permutation (sort_insert comparefn x l) (x :: l).
Proof.
  induction l as [|y l IH]; simpl; [reflexivity|].
  destruct (num_lt _ _); [|reflexivity].
  rewrite IH. apply perm_swap.
Qed.

Lemma Array_sort_perm (l : list A) : Permutation (Array_sort comparefn l) l.
Proof.
  induction l as [|x l IH]; simpl; [reflexivity|].
  rewrite sort_insert_perm. now constructor.
Qed.

End ArraySortPermutation.

Module MannWhitneyExact.
Import MidRanks.

Local Open Scope R_scope.

(** ** Sums *)

Lemma sumR_app l1 l2 : sumR (l1 ++ l2) = sumR l1 + sumR l2.
Proof. induction l1 as [|x l1 IH]; simpl; [ring | rewrite IH; ring]. Qed.

Lemma sumR_perm l1 l2 : Permutation l1 l2 -> sumR l1 = sumR l2.
Proof. induction 1; simpl; lra. Qed.

Lemma sumR_repeat x n : sumR (repeat x n) = INR n * x.
Proof.
  induction n as [|n IH]; [simpl; ring|].
  rewrite S_INR. simpl. rewrite IH. ring.
Qed.

Lemma sumR_map_const {A} (l : list A) c :
  sumR (map (fun _ => c) l) = INR (List.length l) * c.
Proof.
  induction l as [|x l IH]; [simpl; ring|].
  cbn [List.length map sumR fold_right]. fold (sumR (map (fun _ => c) l)).
  rewrite IH, S_INR. ring.
Qed.

Lemma sumR_map_plus {A} (f g : A -> R) (l : list A) :
  sumR (map (fun x => f x + g x) l) = sumR (map f l) + sumR (map g l).
Proof.
  induction l as [|x l IH]; simpl; [ring|].
  fold (sumR (map (fun x => f x + g x) l)) (sumR (map f l)) (sumR (map g l)).
  rewrite IH. ring.
Qed.

Lemma sumR_map_ext {A} (f g : A -> R) (l : list A) :
  (forall x, In x l -> f x = g x) -> sumR (map f l) = sumR (map g l).
Proof.
  intros H. f_equal. apply map_ext_in. exact H.
Qed.

Lemma sumR_map_nonneg {A} (f : A -> R) (l : list A) :
  (forall x, 0 <= f x) -> 0 <= sumR (map f l).
Proof.
  intros H. induction l as [|x l IH]; simpl; [lra|].
  specialize (H x). fold (sumR (map f l)). lra.
Qed.


(** Unfolds the operations of [JSNumber] at the instance [Exact]. *)
Ltac exact_ops :=
  cbn [number of_lit of_nat num_add num_sub num_mul num_div num_neg num_lt
       num_le num_eq isNaN Math_abs Math_sqrt Math_min Math_max Exact] in *.

(** ** Midranks *)


Lemma w_sym v y : w v y + w y v = 1.
Proof.
  unfold w.
  destruct (Rlt_dec y v), (Req_dec_T y v), (Rlt_dec v y), (Req_dec_T v y); lra.
Qed.

Lemma w_lt v y : y < v -> w v y = 1.
Proof. intros H. unfold w. destruct (Rlt_dec y v), (Req_dec_T y v); lra. Qed.

Lemma w_eq v : w v v = / 2.
Proof. unfold w. destruct (Rlt_dec v v), (Req_dec_T v v); lra. Qed.

Lemma w_gt v y : v < y -> w v y = 0.
Proof. intros H. unfold w. destruct (Rlt_dec y v), (Req_dec_T y v); lra. Qed.

Lemma Wsum_app v l1 l2 : Wsum v (l1 ++ l2) = Wsum v l1 + Wsum v l2.
Proof. unfold Wsum. now rewrite map_app, sumR_app. Qed.

Lemma Wsum_below v l : Forall (fun y => y < v) l -> Wsum v l = INR (List.length l).
Proof.
  unfold Wsum. induction 1 as [|y l Hy Hl IH]; [reflexivity|].
  cbn [map sumR fold_right List.length]. fold (sumR (map (w v) l)).
  rewrite IH, S_INR, w_lt by assumption. ring.
Qed.

Lemma Wsum_equal v l : Forall (fun y => y = v) l -> Wsum v l = INR (List.length l) / 2.
Proof.
  unfold Wsum. induction 1 as [|y l Hy Hl IH]; [simpl; lra|].
  cbn [map sumR fold_right List.length]. fold (sumR (map (w v) l)).
  subst y. rewrite IH, S_INR, w_eq. lra.
Qed.

Lemma Wsum_above v l : Forall (fun y => v < y) l -> Wsum v l = 0.
Proof.
  unfold Wsum. induction 1 as [|y l Hy Hl IH]; [reflexivity|].
  cbn [map sumR fold_right]. fold (sumR (map (w v) l)).
  rewrite IH, w_gt by assumption. ring.
Qed.

Lemma Wsum_perm v l1 l2 : Permutation l1 l2 -> Wsum v l1 = Wsum v l2.
Proof. intros H. apply sumR_perm. now apply Permutation_map. Qed.

(** ** Ties in a sorted array *)
Lemma tie_run_firstn (c : R) (l : list R) :
  Forall (fun y => y = c) (firstn (MannWhitney.tie_run (N := Exact) c l) l).
Proof.
  induction l as [|x l IH]; simpl; [constructor|].
  destruct (ExactR.eqb x c) eqn:E; simpl; constructor; auto.
  now apply ExactLaws.eqb_true.
Qed.

Lemma tie_run_skipn (c : R) (l : list R) :
  StronglySorted Rle l -> Forall (fun y => c <= y) l ->
  Forall (fun y => c < y) (skipn (MannWhitney.tie_run (N := Exact) c l) l).
Proof.
  induction 1 as [|x l Hs IH Hx]; intros Hc; simpl; [constructor|].
  inversion Hc as [|? ? Hcx Hcl]; subst.
  destruct (ExactR.eqb x c) eqn:E; simpl.
  - now apply IH.
  - apply ExactLaws.eqb_false in E.
    constructor; [lra|].
    eapply Forall_impl; [|exact Hx]. simpl. intros. lra.
Qed.

Lemma StronglySorted_skipn (l : list R) n :
  StronglySorted Rle l -> StronglySorted Rle (skipn n l).
Proof.
  revert l. induction n as [|n IH]; intros l H; simpl; [exact H|].
  destruct l; [constructor|]. apply IH. now inversion H.
Qed.

Lemma map_all_equal {B} (g : R -> B) (c : R) (l : list R) :
  Forall (fun y => y = c) l -> map g l = repeat (g c) (List.length l).
Proof. induction 1 as [|y l -> _ IH]; simpl; [reflexivity | now rewrite IH]. Qed.

(** On a sorted array the ranking loop computes midranks: at position
    [length pre], with every element of [pre] below every element of
    [rest]. *)
Lemma assignRanks_loop_sorted :
  forall (fuel : nat) (pre rest : list R),
    StronglySorted Rle rest ->
    Forall (fun y => Forall (fun x => x < y) pre) rest ->
    (List.length rest <= fuel)%nat ->
    MannWhitney.assignRanks_loop (N := Exact) fuel (List.length pre) rest
    = Some (map (rank_of (pre ++ rest)) rest).
Proof.
  induction fuel as [|fuel IH]; intros pre rest Hs Hsep Hf.
  - destruct rest; [reflexivity | simpl in Hf; lia].
  - destruct rest as [|c rest']; [reflexivity|].
    cbn [MannWhitney.assignRanks_loop].
    assert (Hge : Forall (fun y => c <= y) (c :: rest')).
    { inversion Hs; subst. constructor; [lra | assumption]. }
    pose proof (tie_run_firstn c (c :: rest')) as F1.
    pose proof (tie_run_skipn c (c :: rest') Hs Hge) as F2.
    assert (Hpos : (1 <= MannWhitney.tie_run (N := Exact) c (c :: rest'))%nat).
    { simpl. replace (ExactR.eqb c c) with true
        by (symmetry; now apply ExactLaws.eqb_true). lia. }
    pose proof (MannWhitneyFacts.tie_run_le (N := Exact) c (c :: rest')) as Hle.
    remember (MannWhitney.tie_run (N := Exact) c (c :: rest')) as k eqn:Hk.
    clear Hk.
    remember (c :: rest') as rest eqn:Hrest.
    assert (Lf : List.length (firstn k rest) = k). { apply firstn_length_le. exact Hle. }
    specialize (IH (pre ++ firstn k rest) (skipn k rest)).
    rewrite length_app, Lf in IH.
    rewrite <- app_assoc, firstn_skipn in IH.
    exact_ops. rewrite IH; clear IH.
    + set (g := rank_of (pre ++ rest)).
      assert (E : map g rest = map g (firstn k rest) ++ map g (skipn k rest))
        by (now rewrite <- map_app, firstn_skipn).
      rewrite E, (map_all_equal g c _ F1), Lf. do 3 f_equal.
      subst g. unfold rank_of. rewrite Wsum_app.
      replace (Wsum c rest)
        with (Wsum c (firstn k rest) + Wsum c (skipn k rest))
        by (now rewrite <- Wsum_app, firstn_skipn).
      rewrite (Wsum_equal c _ F1), Lf, (Wsum_above c _ F2).
      rewrite Wsum_below.
      2:{ rewrite Hrest in Hsep. now inversion Hsep. }
      rewrite ExactLaws.of_lit_int.
      rewrite !plus_INR. simpl INR. lra.
    + now apply StronglySorted_skipn.
    + rewrite <- (firstn_skipn k rest) in Hsep.
      apply Forall_app in Hsep as [_ Hsep].
      apply Forall_forall. intros y Hy.
      apply Forall_app. split.
      * revert y Hy. now apply Forall_forall.
      * apply Forall_forall. intros x Hx.
        replace x with c
          by (symmetry; revert x Hx; now apply Forall_forall).
        revert y Hy. now apply Forall_forall.
    + rewrite length_skipn. subst rest. cbn [List.length] in *. lia.
Qed.

(** ** The combined array is sorted by value *)

Lemma sort_insert_sorted (x : R * MannWhitney.Group) l :
  StronglySorted byValue l ->
  StronglySorted byValue (sort_insert (N := Exact) compareValue x l).
Proof.
  induction 1 as [|y l Hs IH Hy]; simpl; [repeat constructor|].
  unfold compareValue at 1.
  destruct (ExactR.ltb _ _) eqn:E.
  - apply ExactLaws.ltb_true in E. rewrite ExactLaws.of_lit_int in E.
    constructor; [exact IH|].
    eapply Permutation_Forall.
    + symmetry. apply (sort_insert_perm (N := Exact)).
    + constructor; [unfold byValue; lra | exact Hy].
  - apply ExactLaws.ltb_false in E. rewrite ExactLaws.of_lit_int in E.
    constructor; [now constructor|].
    constructor; [unfold byValue; lra|].
    eapply Forall_impl; [|exact Hy]. unfold byValue. intros. lra.
Qed.

Lemma Array_sort_sorted l :
  StronglySorted byValue (Array_sort (N := Exact) compareValue l).
Proof.
  induction l as [|x l IH]; simpl; [constructor|].
  now apply sort_insert_sorted.
Qed.

Lemma sorted_values l :
  StronglySorted byValue l -> StronglySorted Rle (map fst l).
Proof.
  induction 1 as [|x l Hs IH Hx]; simpl; constructor; auto.
  apply Forall_map. exact Hx.
Qed.

(** ** Rank sums *)

Lemma combine_map_values {A} (g : R -> R) (l : list (R * A)) :
  combine l (map g (map fst l)) = map (fun it => (it, g (fst it))) l.
Proof. induction l as [|x l IH]; simpl; [reflexivity | now rewrite IH]. Qed.

Lemma rankSums_sum (g : R -> R) (combined : list (R * MannWhitney.Group)) :
  MannWhitney.rankSums (N := Exact) combined (map g (map fst combined))
  = (sumR (map (rankA g) combined), sumR (map (rankB g) combined)).
Proof.
  unfold MannWhitney.rankSums. rewrite combine_map_values.
  exact_ops. rewrite !ExactLaws.of_lit_int.
  replace (sumR (map (rankA g) combined)) with (0 + sumR (map (rankA g) combined)) by ring.
  replace (sumR (map (rankB g) combined)) with (0 + sumR (map (rankB g) combined)) by ring.
  generalize 0 at 1 3 as r1. generalize 0 as r2.
  induction combined as [|[v gr] l IH]; intros r2 r1; simpl.
  - apply (f_equal2 (@pair R R)); ring.
  - destruct gr; rewrite IH; unfold rankA, rankB; simpl;
      apply (f_equal2 (@pair R R)); ring.
Qed.

Lemma sum_rankA_tagged g a b :
  sumR (map (rankA g) (map (fun v => (v, MannWhitney.A)) a
                       ++ map (fun v => (v, MannWhitney.B)) b))
  = sumR (map g a).
Proof.
  rewrite map_app, sumR_app, !map_map. unfold rankA. simpl.
  rewrite (sumR_map_const b 0), Rmult_0_r, Rplus_0_r. reflexivity.
Qed.

Lemma sum_rankB_tagged g a b :
  sumR (map (rankB g) (map (fun v => (v, MannWhitney.A)) a
                       ++ map (fun v => (v, MannWhitney.B)) b))
  = sumR (map g b).
Proof.
  rewrite map_app, sumR_app, !map_map. unfold rankB. simpl.
  rewrite (sumR_map_const a 0), Rmult_0_r, Rplus_0_l. reflexivity.
Qed.

Lemma values_tagged (a b : list R) :
  map fst (map (fun v => (v, MannWhitney.A)) a
           ++ map (fun v => (v, MannWhitney.B)) b) = a ++ b.
Proof. rewrite map_app, !map_map. simpl. now rewrite !map_id. Qed.

(** ** The algebra of midranks *)
Lemma Wsum_self (a : list R) :
  sumR (map (fun x => Wsum x a) a) = INR (List.length a) * INR (List.length a) / 2.
Proof.
  induction a as [|z a IH]; [simpl; lra|].
  cbn [map sumR fold_right List.length].
  fold (sumR (map (fun x => Wsum x (z :: a)) a)).
  unfold Wsum at 1 2. cbn [map sumR fold_right].
  fold (sumR (map (w z) a)).
  rewrite (sumR_map_ext (fun x => w x z + sumR (map (w x) a))
                        (fun x => w x z + Wsum x a)) by reflexivity.
  rewrite sumR_map_plus, IH, w_eq, S_INR.
  assert (E : sumR (map (w z) a) + sumR (map (fun x => w x z) a)
              = INR (List.length a)).
  { rewrite <- sumR_map_plus.
    rewrite (sumR_map_ext _ (fun _ => 1)) by (intros; apply w_sym).
    rewrite sumR_map_const. ring. }
  lra.
Qed.



(** The rank sum of one sample inside the pooled sample. *)
Lemma rank_sum (a b pooled : list R) :
  Permutation pooled (a ++ b) ->
  sumR (map (rank_of pooled) a)
  = INR (List.length a) * (INR (List.length a) + 1) / 2
    + sumR (map (fun x => Wsum x b) a).
Proof.
  intros P. unfold rank_of.
  rewrite (sumR_map_ext _ (fun x => (Wsum x a + / 2) + Wsum x b)).
  - rewrite sumR_map_plus, sumR_map_plus, Wsum_self, sumR_map_const. lra.
  - intros x _. rewrite (Wsum_perm x _ _ P), Wsum_app. ring.
Qed.


Lemma assignRanks_sorted (values : list R) :
  StronglySorted Rle values ->
  MannWhitney.assignRanks (N := Exact) values
  = Some (map (rank_of values) values).
Proof.
  intros H. unfold MannWhitney.assignRanks.
  apply (assignRanks_loop_sorted (List.length values) [] values H).
  - apply Forall_forall. intros. constructor.
  - apply Nat.le_refl.
Qed.




End MannWhitneyExact.

(* ================================================================== *)
(** * Facts about the store: the arguments are left alone *)
(* ================================================================== *)

Module StoreFacts.
Section StoreFacts.
Context {N : JSNumber} {NF : JSNonFinite N} {F : JSFormat N}
        {SS : SimpleStatistics N}.
Local Open Scope js_scope.

Lemma numbers_at_old (h new : Store.Heap) (r : Store.Ref) :
  r < List.length h -> Store.numbers_at (h ++ new) r = Store.numbers_at h r.
Proof. intros H. unfold Store.numbers_at. now rewrite nth_error_app1. Qed.

Lemma numbers_at_fresh (h new : Store.Heap) (l : list number) :
  Store.numbers_at (h ++ Store.Numbers l :: new) (List.length h) = l.
Proof.
  unfold Store.numbers_at. rewrite nth_error_app2, Nat.sub_diag by lia. reflexivity.
Qed.

Lemma items_at_fresh (h new : Store.Heap) (l : list (number * MannWhitney.Group)) :
  Store.items_at (h ++ Store.Items l :: new) (List.length h) = l.
Proof.
  unfold Store.items_at. rewrite nth_error_app2, Nat.sub_diag by lia. reflexivity.
Qed.

Lemma update_fresh (h new : Store.Heap) (c c' : Store.Cell) :
  Store.update (h ++ c :: new) (List.length h) c' = h ++ c' :: new.
Proof. induction h as [|d h IH]; simpl; [reflexivity | now rewrite IH]. Qed.

Lemma runs_bind {T U : Type} (m : Store.M T) (k : T -> Store.M U) (h : Store.Heap) (x : T) (y : U) :
  Store.runs m h x ->
  (forall new, Store.runs (k x) (h ++ new) y) ->
  Store.runs (Store.bind m k) h y.
Proof.
  unfold Store.runs, Store.bind. destruct (m h) as [x' h']. cbn [fst snd].
  intros [E [new Hn]] Hk. subst x' h'.
  destruct (Hk new) as [E' [new' Hn']]. split; [exact E'|].
  exists (new ++ new'). now rewrite Hn', app_assoc.
Qed.

Lemma items_at_old (h new : Store.Heap) (r : Store.Ref) :
  r < List.length h -> Store.items_at (h ++ new) r = Store.items_at h r.
Proof. intros H. unfold Store.items_at. now rewrite nth_error_app1. Qed.

Lemma runs_ret {T : Type} (x : T) (h : Store.Heap) : Store.runs (Store.ret x) h x.
Proof. split; [reflexivity|]. exists []. cbn. now rewrite app_nil_r. Qed.

Ltac valid_ref := rewrite ?length_app; cbn [List.length]; lia.

Ltac store_step :=
  first
    [ rewrite numbers_at_fresh
    | rewrite items_at_fresh
    | rewrite update_fresh
    | rewrite numbers_at_old by valid_ref
    | rewrite items_at_old by valid_ref ].

Ltac run_store :=
  cbv [Store.bind Store.ret Store.alloc Store.read_numbers Store.read_items Store.write Store.spread Store.spread2 Store.Array_map
       Store.Array_map_tag Store.Array_map_value Store.Array_sort_numbers Store.Array_sort_items];
  cbn [fst snd];
  repeat store_step.

Ltac fresh_only :=
  eexists; rewrite <- ?app_assoc; reflexivity.

Lemma welchTTest_runs (h : Store.Heap) (sampleA sampleB : Store.Ref) (alpha : option number) :
  Store.runs (Store.welchTTest sampleA sampleB alpha) h
    (Welch.welchTTest (Store.numbers_at h sampleA) (Store.numbers_at h sampleB) alpha).
Proof. apply runs_ret. Qed.

Lemma shapiroWilkTest_runs (h : Store.Heap) (samples : Store.Ref) :
  samples < List.length h ->
  Store.runs (Store.shapiroWilkTest samples) h
    (Normality.shapiroWilkTest (Store.numbers_at h samples)).
Proof.
  intros Hs. unfold Store.runs, Store.shapiroWilkTest, Normality.shapiroWilkTest.
  run_store.
  destruct (Normality.shapiroWilkTest_guard _).
  - apply runs_ret.
  - run_store. split; [reflexivity | fresh_only].
Qed.

Lemma runs_read_numbers (h : Store.Heap) (r : Store.Ref) :
  Store.runs (Store.read_numbers r) h (Store.numbers_at h r).
Proof. apply runs_ret. Qed.

Lemma noOutliers_runs (h : Store.Heap) (samples : Store.Ref) :
  samples < List.length h ->
  Store.runs (Store.noOutliers samples) h
    (Outliers.noOutliers (Store.numbers_at h samples)
       (map (fun _ => 0 : number) (Store.numbers_at h samples))).
Proof.
  intros Hs. unfold Store.runs, Store.noOutliers. run_store.
  split; [reflexivity | fresh_only].
Qed.

Lemma detectOutliers_runs (h : Store.Heap) (samples : Store.Ref) (threshold : option number) :
  samples < List.length h ->
  Store.runs (Store.detectOutliers samples threshold) h
    (Outliers.detectOutliers (Store.numbers_at h samples) threshold).
Proof.
  intros Hs. unfold Store.detectOutliers, Outliers.detectOutliers.
  eapply runs_bind; [apply runs_read_numbers|]. intros new. cbv zeta.
  destruct (_ <? 3)%nat.
  { rewrite <- (numbers_at_old h new) by exact Hs.
    apply noOutliers_runs. valid_ref. }
  destruct (_ <? _).
  { rewrite <- (numbers_at_old h new) by exact Hs.
    apply noOutliers_runs. valid_ref. }
  unfold Store.runs. run_store. split; [reflexivity | fresh_only].
Qed.

Lemma detectOutliersIQR_runs (h : Store.Heap) (samples : Store.Ref)
  (multiplier : option number) :
  samples < List.length h ->
  Store.runs (Store.detectOutliersIQR samples multiplier) h
    (Outliers.detectOutliersIQR (Store.numbers_at h samples) multiplier).
Proof.
  intros Hs. unfold Store.detectOutliersIQR, Outliers.detectOutliersIQR.
  eapply runs_bind; [apply runs_read_numbers|]. intros new. cbv zeta.
  destruct (_ <? 4)%nat; unfold Store.runs; run_store;
    (split; [reflexivity | fresh_only]).
Qed.

Lemma mannWhitneyU_runs (h : Store.Heap) (sampleA sampleB : Store.Ref)
  (alpha : option number) :
  sampleA < List.length h -> sampleB < List.length h ->
  Store.runs (Store.mannWhitneyU sampleA sampleB alpha) h
    (MannWhitney.mannWhitneyU (Store.numbers_at h sampleA) (Store.numbers_at h sampleB)
       alpha).
Proof.
  intros Ha Hb. unfold Store.runs, Store.mannWhitneyU, MannWhitney.mannWhitneyU.
  run_store. split; [reflexivity | fresh_only].
Qed.

Lemma runDiagnostics_runs (h : Store.Heap) (samples : Store.Ref)
  (config : option DiagnosticsConfig) :
  samples < List.length h ->
  Store.runs (Store.runDiagnostics samples config) h
    (SampleQuality.runDiagnostics (Store.numbers_at h samples) config).
Proof.
  intros Hs. unfold Store.runDiagnostics, SampleQuality.runDiagnostics.
  eapply runs_bind; [apply runs_read_numbers|]. intros new. cbv zeta.
  destruct (_ <? 3)%nat.
  { unfold Store.runs. run_store. split; [reflexivity | fresh_only]. }
  eapply runs_bind; [apply detectOutliers_runs; valid_ref|]. intros new1.
  eapply runs_bind; [apply shapiroWilkTest_runs; valid_ref|]. intros new2.
  rewrite !numbers_at_old by valid_ref.
  apply runs_ret.
Qed.

Lemma getSampleDiagnostics_runs (h : Store.Heap) (samples : Store.Ref)
  (outlierThreshold : option number) :
  samples < List.length h ->
  Store.runs (Store.getSampleDiagnostics samples outlierThreshold) h
    (SampleQuality.getSampleDiagnostics (Store.numbers_at h samples) outlierThreshold).
Proof.
  intros Hs. unfold Store.getSampleDiagnostics, SampleQuality.getSampleDiagnostics.
  eapply runs_bind; [apply runs_read_numbers|]. intros new. cbv zeta.
  destruct (_ =? 0)%nat; [apply runs_ret|].
  eapply runs_bind; [apply detectOutliers_runs; valid_ref|]. intros new1.
  eapply runs_bind; [apply shapiroWilkTest_runs; valid_ref|]. intros new2.
  rewrite !numbers_at_old by valid_ref.
  apply runs_ret.
Qed.

Lemma createInsufficientDataResult_runs (h : Store.Heap) (sampleA sampleB : Store.Ref)
  (config : FullConfig) :
  sampleA < List.length h -> sampleB < List.length h ->
  Store.runs (Store.createInsufficientDataResult sampleA sampleB config) h
    (Compare.createInsufficientDataResult
       (Store.numbers_at h sampleA) (Store.numbers_at h sampleB) config).
Proof.
  intros Ha Hb.
  unfold Store.createInsufficientDataResult, Compare.createInsufficientDataResult.
  eapply runs_bind; [apply getSampleDiagnostics_runs; valid_ref|]. intros new1.
  eapply runs_bind; [apply getSampleDiagnostics_runs; valid_ref|]. intros new2.
  eapply runs_bind; [apply runs_read_numbers|]. intros new3.
  eapply runs_bind; [apply runs_read_numbers|]. intros new4.
  rewrite !numbers_at_old by valid_ref.
  apply runs_ret.
Qed.

Lemma compareConditions_runs (h : Store.Heap) (sampleA sampleB : Store.Ref)
  (config : CompareConfig) :
  sampleA < List.length h -> sampleB < List.length h ->
  Store.runs (Store.compareConditions sampleA sampleB config) h
    (Compare.compareConditions (Store.numbers_at h sampleA) (Store.numbers_at h sampleB) config).
Proof.
  intros Ha Hb.
  unfold Store.compareConditions, Compare.compareConditions,
    Compare.compareConditions_with.
  eapply runs_bind; [apply runs_read_numbers|]. intros new1.
  eapply runs_bind; [apply runs_read_numbers|]. intros new2.
  rewrite !numbers_at_old by valid_ref. cbv zeta.
  destruct (_ || _).
  { eapply runs_bind; [apply createInsufficientDataResult_runs; valid_ref|].
    intros new3. rewrite !numbers_at_old by valid_ref. apply runs_ret. }
  eapply runs_bind; [apply getSampleDiagnostics_runs; valid_ref|]. intros new3.
  eapply runs_bind; [apply getSampleDiagnostics_runs; valid_ref|]. intros new4.
  rewrite !numbers_at_old by valid_ref.
  unfold Compare.getSampleDiagnostics.
  destruct (Compare.assessDataQuality _ _ _) as [[overallQuality warnings] recommendation].
  destruct recommendation.
  - eapply runs_bind; [apply welchTTest_runs|]. intros new5.
    rewrite !numbers_at_old by valid_ref. apply runs_ret.
  - eapply runs_bind; [apply welchTTest_runs|]. intros new5.
    rewrite !numbers_at_old by valid_ref. apply runs_ret.
  - eapply runs_bind; [apply mannWhitneyU_runs; valid_ref|]. intros new5.
    rewrite !numbers_at_old by valid_ref. apply runs_ret.
Qed.

Lemma runs_call {T : Type} (m : Store.M T) (h : Store.Heap)
  (sampleA sampleB : Store.Ref) (x : T) :
  sampleA < List.length h -> sampleB < List.length h ->
  Store.runs m h x -> Store.call m h sampleA sampleB x.
Proof.
  unfold Store.runs, Store.call. destruct (m h) as [result h']. cbn [fst snd].
  intros Ha Hb [E [new Hn]]. subst h'.
  repeat split; [exact E | now exists new | |]; now apply nth_error_app1.
Qed.

(** C9.  Run on a store in which [sampleA] and [sampleB] are arrays of
    numbers, each of the seven public operations returns what it returns on
    the elements of its arguments, allocates arrays and writes to none that
    was there before the call: every sort is applied to an array allocated
    in the call, and both input arrays are element for element what they
    were.  [sampleA] and [sampleB] may be the same array. *)
Theorem inputs_not_mutated (h : Store.Heap) (sampleA sampleB : Store.Ref)
  (a b : list number) (config : CompareConfig)
  (alpha threshold multiplier : option number)
  (diagnosticsConfig : option DiagnosticsConfig) :
  nth_error h sampleA = Some (Store.Numbers a) ->
  nth_error h sampleB = Some (Store.Numbers b) ->
  Store.call (Store.compareConditions sampleA sampleB config) h sampleA sampleB
    (Compare.compareConditions a b config) /\
  Store.call (Store.welchTTest sampleA sampleB alpha) h sampleA sampleB
    (Welch.welchTTest a b alpha) /\
  Store.call (Store.mannWhitneyU sampleA sampleB alpha) h sampleA sampleB
    (MannWhitney.mannWhitneyU a b alpha) /\
  Store.call (Store.shapiroWilkTest sampleA) h sampleA sampleB
    (Normality.shapiroWilkTest a) /\
  Store.call (Store.detectOutliers sampleA threshold) h sampleA sampleB
    (Outliers.detectOutliers a threshold) /\
  Store.call (Store.detectOutliersIQR sampleA multiplier) h sampleA sampleB
    (Outliers.detectOutliersIQR a multiplier) /\
  Store.call (Store.runDiagnostics sampleA diagnosticsConfig) h sampleA sampleB
    (SampleQuality.runDiagnostics a diagnosticsConfig).
Proof.
  intros Ea Eb.
  assert (Ha : sampleA < List.length h) by (apply nth_error_Some; congruence).
  assert (Hb : sampleB < List.length h) by (apply nth_error_Some; congruence).
  assert (Na : Store.numbers_at h sampleA = a)
    by (unfold Store.numbers_at; now rewrite Ea).
  assert (Nb : Store.numbers_at h sampleB = b)
    by (unfold Store.numbers_at; now rewrite Eb).
  rewrite <- Na, <- Nb.
  repeat match goal with |- _ /\ _ => split end;
    apply runs_call; try assumption.
  - now apply compareConditions_runs.
  - apply welchTTest_runs.
  - now apply mannWhitneyU_runs.
  - now apply shapiroWilkTest_runs.
  - now apply detectOutliers_runs.
  - now apply detectOutliersIQR_runs.
  - now apply runDiagnostics_runs.
Qed.

End StoreFacts.

Lemma inputs_not_mutated_example :
  (nth_error
     [Store.Numbers (N := Float64) [3; 1; 2; 0]%float;
      Store.Numbers (N := Float64) [7; 5; 6; 4]%float] 0
   = Some (Store.Numbers (N := Float64) [3; 1; 2; 0]%float) /\
   nth_error
     [Store.Numbers (N := Float64) [3; 1; 2; 0]%float;
      Store.Numbers (N := Float64) [7; 5; 6; 4]%float] 1
   = Some (Store.Numbers (N := Float64) [7; 5; 6; 4]%float)) /\
  Store.call (Store.detectOutliersIQR (N := Float64) 0 None)
    [Store.Numbers (N := Float64) [3; 1; 2; 0]%float;
     Store.Numbers (N := Float64) [7; 5; 6; 4]%float] 0 1
    (Outliers.detectOutliersIQR (N := Float64) [3; 1; 2; 0]%float None).
Proof.
  split; [split; reflexivity|].
  apply (inputs_not_mutated (N := Float64)
           [Store.Numbers (N := Float64) [3; 1; 2; 0]%float;
            Store.Numbers (N := Float64) [7; 5; 6; 4]%float] 0 1
           [3; 1; 2; 0]%float [7; 5; 6; 4]%float
           (Samples.thresholdOnly 1%float) None None None None);
    reflexivity.
Defined.

(** The store after [detectOutliersIQR]: the input, and the sorted copy. *)
Lemma detectOutliersIQR_store :
  map (Store.numbers_at
         (snd (Store.detectOutliersIQR (N := Float64) 0 None
                 [Store.Numbers (N := Float64) [3; 1; 2; 0]%float])))
      [0; 1]
  = ([[3; 1; 2; 0]; [0; 1; 2; 3]]%float : list (list float)).
Proof. vm_compute. reflexivity. Qed.

(** [sort] on the array itself is seen by its owner: the store does tell a
    sort in place from a sort of a copy. *)
Lemma Array_sort_numbers_in_place :
  map (Store.numbers_at
         (snd (Store.Array_sort_numbers (N := Float64) (fun a b => PrimFloat.sub a b) 0
                 [Store.Numbers (N := Float64) [3; 1; 2; 0]%float])))
      [0]
  = ([[0; 1; 2; 3]]%float : list (list float)).
Proof. vm_compute. reflexivity. Qed.

End StoreFacts.

(* ================================================================== *)
(** * NaN under the comparisons *)
(* ================================================================== *)

Module F64NaNLaws.
Import F64.
Local Open Scope float_scope.

Lemma is_nan_spec x : is_nan x = true -> Prim2SF x = S754_nan.
Proof.
  unfold is_nan. rewrite FloatAxioms.eqb_spec. unfold SFeqb. intros H.
  destruct (Prim2SF x) as [s|s| |s m e] eqn:E; try reflexivity.
  all: rewrite F64Laws.SFcompare_refl in H by discriminate; discriminate.
Qed.

Lemma spec_is_nan x : Prim2SF x = S754_nan -> is_nan x = true.
Proof.
  intros E. unfold is_nan. rewrite FloatAxioms.eqb_spec, E. reflexivity.
Qed.

Lemma lt_NaN_l x y : is_nan x = true -> (x <? y) = false.
Proof. intros H. now rewrite ltb_spec, (is_nan_spec _ H). Qed.

Lemma eq_NaN_l x y : is_nan x = true -> (x =? y) = false.
Proof. intros H. now rewrite FloatAxioms.eqb_spec, (is_nan_spec _ H). Qed.

Lemma eq_NaN_r x y : is_nan y = true -> (x =? y) = false.
Proof.
  intros H. rewrite FloatAxioms.eqb_spec, (is_nan_spec _ H).
  unfold SFeqb. now destruct (Prim2SF x) as [[]|[]| |[] ? ?].
Qed.

Lemma abs_NaN x : is_nan x = true -> is_nan (abs x) = true.
Proof.
  intros H. apply spec_is_nan. now rewrite abs_spec, (is_nan_spec _ H).
Qed.

Lemma abs_neg x : abs (- x) = abs x.
Proof.
  apply Prim2SF_inj. rewrite !abs_spec, opp_spec.
  now destruct (Prim2SF x).
Qed.

End F64NaNLaws.

#[global] Instance Float64_NaN : JSNumberNaN Float64.
Proof.
  constructor.
  - exact F64NaNLaws.lt_NaN_l.
  - exact F64NaNLaws.eq_NaN_l.
  - exact F64NaNLaws.eq_NaN_r.
  - exact F64NaNLaws.abs_NaN.
  - exact F64NaNLaws.abs_neg.
Qed.

#[global] Instance Exact_NaN : JSNumberNaN Exact.
Proof.
  constructor; simpl; intros; try discriminate.
  apply Rabs_Ropp.
Qed.

(* ================================================================== *)
(** * More facts about outliers.ts *)
(* ================================================================== *)

Module OutliersMoreFacts.
Import OutliersSpec.
Section OutliersMoreFacts.
Context {N : JSNumber} {NF : JSNonFinite N} {SS : SimpleStatistics N}.
Local Open Scope js_scope.

Lemma filter_partition_perm {A : Type} (p : A -> bool) (l : list A) :
  Permutation (filter p l ++ filter (fun x => negb (p x)) l) l.
Proof.
  induction l as [|x l IH]; simpl; [constructor|].
  destruct (p x); simpl.
  - now constructor.
  - symmetry. apply Permutation_cons_app. now symmetry.
Qed.

Lemma filter_partition_length {A : Type} (p : A -> bool) (l : list A) :
  (List.length (filter p l) + List.length (filter (fun x => negb (p x)) l)
   = List.length l)%nat.
Proof.
  rewrite <- length_app. apply Permutation_length, filter_partition_perm.
Qed.

(** What every [forEach] split of the detectors keeps, whatever the test. *)
Lemma splitOutliers_partition (flagged : nat -> number -> bool)
  (samples : list number) :
  let '(indices, values, cleaned) := Outliers.splitOutliers flagged samples in
  Permutation (values ++ cleaned) samples /\
  List.length indices = List.length values /\
  (List.length values + List.length cleaned = List.length samples)%nat /\
  map (nth_error samples) indices = map Some values /\
  StronglySorted lt indices.
Proof.
  rewrite OutliersFacts.splitOutliers_spec. cbv zeta.
  set (p := fun ix : nat * number => flagged (fst ix) (snd ix)).
  assert (Esnd : map snd (indexed samples) = samples).
  { unfold indexed. clear. generalize 0%nat.
    induction samples as [|x l IH]; intros k; simpl; [reflexivity|].
    now rewrite IH. }
  split; [|split; [|split; [|split]]].
  - rewrite <- map_app. rewrite <- Esnd at 3.
    apply Permutation_map, filter_partition_perm.
  - now rewrite !length_map.
  - rewrite !length_map, filter_partition_length.
    rewrite <- Esnd at 2. now rewrite length_map.
  - rewrite !map_map. apply map_ext_in. intros ix H.
    apply filter_In in H as [H _].
    now apply OutliersFacts.indexed_nth_error.
  - unfold indexed. generalize 0%nat as k. generalize samples as l. clear.
    induction l as [|x l IH]; intros k; simpl; [constructor|].
    assert (B : Forall (lt k)
                  (map fst (filter p (combine (seq (S k) (List.length l)) l)))).
    { apply Forall_forall. intros i Hi. apply in_map_iff in Hi as [ix [<- Hi]].
      apply filter_In in Hi as [Hi _].
      apply OutliersFacts.combine_seq_nth_error in Hi as [_ Hi]. lia. }
    destruct (p (k, x)); simpl; [constructor; [apply IH | exact B] | apply IH].
Qed.

(** The values a detector flags are elements of the sample. *)
Lemma splitOutliers_values_In (flagged : nat -> number -> bool)
  (samples : list number) (x : number) :
  In x (snd (fst (Outliers.splitOutliers flagged samples))) -> In x samples.
Proof.
  pose proof (splitOutliers_partition flagged samples) as P.
  destruct (Outliers.splitOutliers flagged samples) as [[indices values] cleaned].
  destruct P as [P _]. cbn [fst snd]. intros H.
  apply (Permutation_in x P). apply in_or_app. now left.
Qed.

Lemma detectOutliers_values_In (samples : list number)
  (threshold : option number) (x : number) :
  In x (o_values (Outliers.detectOutliers samples threshold)) -> In x samples.
Proof.
  unfold Outliers.detectOutliers, Outliers.noOutliers,
    Outliers.detectOutliers_scored.
  destruct (_ <? 3)%nat; [intros []|].
  destruct (_ <? _); [intros []|].
  match goal with
  | |- context [Outliers.splitOutliers ?f samples] =>
      pose proof (splitOutliers_values_In f samples x) as P;
      destruct (Outliers.splitOutliers f samples) as [[indices values] cleaned]
  end.
  exact P.
Qed.

Lemma detectOutliersIQR_values_In (samples : list number)
  (multiplier : option number) (x : number) :
  In x (Outliers.iqr_values (Outliers.detectOutliersIQR samples multiplier))
  -> In x samples.
Proof.
  unfold Outliers.detectOutliersIQR, Outliers.detectOutliersIQR_short,
    Outliers.detectOutliersIQR_sorted.
  destruct (_ <? 4)%nat; [intros []|]. cbv zeta.
  match goal with
  | |- context [Outliers.splitOutliers ?f samples] =>
      pose proof (splitOutliers_values_In f samples x) as P;
      destruct (Outliers.splitOutliers f samples) as [[indices values] cleaned]
  end.
  exact P.
Qed.

(** X1.  [detectOutliersIQR] on fewer than four elements reports no
    outlier, [cleaned] the input, infinite fences, an IQR of 0, and as
    quartiles the first and the last element of the input as given (0 for
    an empty input).  Otherwise the quartiles are the 0.25 and 0.75
    quantiles of the sorted copy, the fences lie [multiplier] (1.5 when none
    is given) times the IQR outside them, and the flagged elements are
    exactly those below the lower or above the upper fence: [indices] their
    positions, [values] the elements, [cleaned] the others, in order. *)
Theorem detectOutliersIQR_spec (samples : list number)
  (multiplier : option number) :
  let k := orDefault multiplier (1.5 : number) in
  let n := List.length samples in
  let sorted := Array_sort (fun a b => a - b) samples in
  let Q1 := ss_quantile sorted 0.25 in
  let Q3 := ss_quantile sorted 0.75 in
  let lowerFence := Q1 - k * (Q3 - Q1) in
  let upperFence := Q3 + k * (Q3 - Q1) in
  let outside := fun x => (x <? lowerFence) || (x >? upperFence) in
  let r := Outliers.detectOutliersIQR samples multiplier in
  if (n <? 4)%nat then
    Outliers.iqr_count r = 0%nat /\ Outliers.iqr_indices r = [] /\
    Outliers.iqr_values r = [] /\ Outliers.iqr_tooMany r = false /\
    Outliers.iqr_cleaned r = samples /\
    Outliers.iqr_Q1 r = hd (0 : number) samples /\
    Outliers.iqr_Q3 r = last samples (0 : number) /\
    Outliers.iqr_IQR r = 0 /\
    Outliers.iqr_lowerFence r = - Infinity /\
    Outliers.iqr_upperFence r = Infinity
  else
    Outliers.iqr_Q1 r = Q1 /\ Outliers.iqr_Q3 r = Q3 /\
    Outliers.iqr_IQR r = Q3 - Q1 /\
    Outliers.iqr_lowerFence r = lowerFence /\
    Outliers.iqr_upperFence r = upperFence /\
    (forall i x, nth_error samples i = Some x ->
                 (In i (Outliers.iqr_indices r) <-> outside x = true)) /\
    Outliers.iqr_indices r
      = map fst (filter (fun ix => outside (snd ix)) (indexed samples)) /\
    Outliers.iqr_values r = filter outside samples /\
    Outliers.iqr_cleaned r = filter (fun x => negb (outside x)) samples /\
    Outliers.iqr_count r = List.length (Outliers.iqr_values r) /\
    Outliers.iqr_tooMany r
      = (of_nat (Outliers.iqr_count r) / of_nat n >? 0.1).
Proof.
  intros k n sorted Q1 Q3 lowerFence upperFence outside r. subst r.
  unfold Outliers.detectOutliersIQR, Outliers.detectOutliersIQR_short,
    Outliers.detectOutliersIQR_sorted.
  fold k n sorted. cbv zeta. fold Q1 Q3 lowerFence upperFence.
  destruct (n <? 4)%nat; [repeat split|].
  rewrite OutliersFacts.splitOutliers_spec. cbv zeta. cbn [fst snd].
  fold outside.
  change (fun ix : nat * number => outside (snd ix))
    with (fun ix : nat * number => outside (snd ix)).
  cbn [Outliers.iqr_Q1 Outliers.iqr_Q3 Outliers.iqr_IQR
       Outliers.iqr_lowerFence Outliers.iqr_upperFence Outliers.iqr_indices
       Outliers.iqr_values Outliers.iqr_cleaned Outliers.iqr_count
       Outliers.iqr_tooMany].
  rewrite (OutliersFacts.filter_indexed_snd outside).
  rewrite (OutliersFacts.filter_indexed_snd (fun x => negb (outside x))).
  repeat match goal with |- _ /\ _ => split end; try reflexivity.
  - intros i x Hx. split; intros H.
    + apply in_map_iff in H as [ix [<- H]].
      apply filter_In in H as [H1 H2].
      apply OutliersFacts.indexed_nth_error in H1.
      assert (E : snd ix = x) by congruence. rewrite <- E. exact H2.
    + apply in_map_iff. exists (i, x). split; [reflexivity|].
      apply filter_In. split; [now apply OutliersFacts.nth_error_indexed | exact H].
  - rewrite <- (OutliersFacts.filter_indexed_snd outside).
    now rewrite !length_map.
Qed.

(** X2.  Both detectors partition the sample.  Whatever the input, the
    flagged [values] and the [cleaned] rest are together a rearrangement of
    the sample, [count] is the number of flagged values, [indices] are
    strictly increasing positions and [values] the elements found there;
    [detectOutliers] returns one z-score per element. *)
Theorem detectors_partition (samples : list number)
  (threshold multiplier : option number) :
  let z := Outliers.detectOutliers samples threshold in
  let q := Outliers.detectOutliersIQR samples multiplier in
  (Permutation (o_values z ++ o_cleaned z) samples /\
   o_count z = List.length (o_values z) /\
   (o_count z + List.length (o_cleaned z) = List.length samples)%nat /\
   map (nth_error samples) (o_indices z) = map Some (o_values z) /\
   StronglySorted lt (o_indices z) /\
   List.length (o_zScores z) = List.length samples) /\
  (Permutation (Outliers.iqr_values q ++ Outliers.iqr_cleaned q) samples /\
   Outliers.iqr_count q = List.length (Outliers.iqr_values q) /\
   (Outliers.iqr_count q + List.length (Outliers.iqr_cleaned q)
    = List.length samples)%nat /\
   map (nth_error samples) (Outliers.iqr_indices q)
   = map Some (Outliers.iqr_values q) /\
   StronglySorted lt (Outliers.iqr_indices q)).
Proof.
  intros z q. subst z q.
  assert (Trivial : forall l : list number,
             Permutation ([] ++ l) l /\ 0%nat = @List.length number [] /\
             (0 + List.length l = List.length l)%nat /\
             map (nth_error l) [] = @map number _ Some [] /\
             StronglySorted lt []).
  { intros l. split; [reflexivity|]. repeat split. constructor. }
  split.
  - unfold Outliers.detectOutliers, Outliers.noOutliers,
      Outliers.detectOutliers_scored.
    destruct (_ <? 3)%nat.
    { cbn. destruct (Trivial samples) as (?&?&?&?&?).
      repeat split; auto. now rewrite length_map. }
    destruct (_ <? _).
    { cbn. destruct (Trivial samples) as (?&?&?&?&?).
      repeat split; auto. now rewrite length_map. }
    match goal with
    | |- context [Outliers.splitOutliers ?f samples] =>
        pose proof (splitOutliers_partition f samples) as P;
        destruct (Outliers.splitOutliers f samples) as [[indices values] cleaned]
    end.
    destruct P as (P1 & P2 & P3 & P4 & P5). cbn.
    repeat split; auto; try lia. now rewrite length_map.
  - unfold Outliers.detectOutliersIQR, Outliers.detectOutliersIQR_short,
      Outliers.detectOutliersIQR_sorted.
    destruct (_ <? 4)%nat.
    { cbn. destruct (Trivial samples) as (?&?&?&?&?). repeat split; auto. }
    cbv zeta.
    match goal with
    | |- context [Outliers.splitOutliers ?f samples] =>
        pose proof (splitOutliers_partition f samples) as P;
        destruct (Outliers.splitOutliers f samples) as [[indices values] cleaned]
    end.
    destruct P as (P1 & P2 & P3 & P4 & P5). cbn.
    repeat split; auto; lia.
Qed.

(** X3.  [detectOutliersCombined] returns what the two detectors return
    on their own, and recommends the z-score only for a sample of at least
    twenty elements on which the IQR method flags nothing, or on which the
    z-score flags something but at most twice as many values as the IQR
    method; otherwise it recommends the IQR method.  The [outliers] it
    reports are the values of the recommended method, all of them elements
    of the sample. *)
Theorem detectOutliersCombined_spec (samples : list number)
  (zThreshold iqrMultiplier : option number) :
  let r := Outliers.detectOutliersCombined samples zThreshold iqrMultiplier in
  let zc := o_count (Outliers.co_zScore r) in
  let ic := Outliers.iqr_count (Outliers.co_iqr r) in
  Outliers.co_zScore r = Outliers.detectOutliers samples zThreshold /\
  Outliers.co_iqr r = Outliers.detectOutliersIQR samples iqrMultiplier /\
  (Outliers.co_recommended r = Outliers.z_score <->
   (20 <= List.length samples)%nat /\
   (ic = 0 \/ (0 < zc /\ zc <= 2 * ic))%nat) /\
  ((List.length samples < 20)%nat ->
   Outliers.co_recommended r = Outliers.iqr) /\
  Outliers.co_outliers r
  = match Outliers.co_recommended r with
    | Outliers.z_score => o_values (Outliers.co_zScore r)
    | Outliers.iqr => Outliers.iqr_values (Outliers.co_iqr r)
    end /\
  (forall x, In x (Outliers.co_outliers r) -> In x samples).
Proof.
  intros r zc ic. subst zc ic r.
  assert (Ez : Outliers.detectOutliers samples
                 (Some (orDefault zThreshold (2.5 : number)))
               = Outliers.detectOutliers samples zThreshold)
    by (destruct zThreshold; reflexivity).
  assert (Eq : Outliers.detectOutliersIQR samples
                 (Some (orDefault iqrMultiplier (1.5 : number)))
               = Outliers.detectOutliersIQR samples iqrMultiplier)
    by (destruct iqrMultiplier; reflexivity).
  pose proof (detectOutliers_values_In samples zThreshold) as Iz.
  pose proof (detectOutliersIQR_values_In samples iqrMultiplier) as Iq.
  unfold Outliers.detectOutliersCombined. cbv zeta.
  rewrite Ez, Eq. clear Ez Eq.
  set (z := Outliers.detectOutliers samples zThreshold) in *.
  set (q := Outliers.detectOutliersIQR samples iqrMultiplier) in *.
  destruct (Nat.eqb_spec (o_count z) 0), (Nat.ltb_spec 0 (Outliers.iqr_count q)),
    (Nat.ltb_spec (Outliers.iqr_count q * 2) (o_count z)),
    (Nat.ltb_spec (List.length samples) 20);
    cbn; repeat split; auto; try discriminate; try lia;
    try (intros [? ?]; lia); try (intros; lia).
Qed.

End OutliersMoreFacts.
End OutliersMoreFacts.

(* ================================================================== *)
(** * Effect-size labels *)
(* ================================================================== *)

Module LabelFacts.
Section LabelFacts.
Context {N : JSNumber} {NF : JSNonFinite N} {SS : SimpleStatistics N}
        {L : JSNumberNaN N}.
Local Open Scope js_scope.

(** X4.  The two effect-size labels depend on the magnitude of the effect
    only: an effect and its opposite get the same label. *)
Theorem labels_ignore_sign (d : number) :
  Welch.getEffectSizeLabel (- d) = Welch.getEffectSizeLabel d /\
  MannWhitney.getEffectSizeLabelRankBiserial (- d)
  = MannWhitney.getEffectSizeLabelRankBiserial d.
Proof.
  unfold Welch.getEffectSizeLabel, MannWhitney.getEffectSizeLabelRankBiserial.
  now rewrite Math_abs_neg.
Qed.

(** X5.  An effect size that is NaN is labelled [large] by both label
    functions, every comparison with NaN being false; so the result of
    [welchTTest] carries the label [large] whenever its effect size is
    NaN. *)
Theorem labels_of_NaN (d : number) :
  isNaN d = true ->
  Welch.getEffectSizeLabel d = large /\
  MannWhitney.getEffectSizeLabelRankBiserial d = large /\
  (forall (sampleA sampleB : list number) (alpha : option number),
     w_effectSize (Welch.welchTTest sampleA sampleB alpha) = d ->
     w_effectSizeLabel (Welch.welchTTest sampleA sampleB alpha) = large).
Proof.
  intros H.
  assert (A : forall y, (Math_abs d <? y) = false)
    by (intros y; apply num_lt_NaN_l, Math_abs_NaN, H).
  assert (W : Welch.getEffectSizeLabel d = large)
    by (unfold Welch.getEffectSizeLabel; now rewrite !A).
  split; [exact W|]. split.
  - unfold MannWhitney.getEffectSizeLabelRankBiserial. now rewrite !A.
  - intros sampleA sampleB alpha E.
    cbn [w_effectSize w_effectSizeLabel Welch.welchTTest] in *.
    now rewrite E.
Qed.

End LabelFacts.

Lemma labels_ignore_sign_example :
  Welch.getEffectSizeLabel (N := Float64) (PrimFloat.opp 0.25%float)
  = Welch.getEffectSizeLabel (N := Float64) 0.25%float /\
  MannWhitney.getEffectSizeLabelRankBiserial (N := Float64)
    (PrimFloat.opp 0.25%float)
  = MannWhitney.getEffectSizeLabelRankBiserial (N := Float64) 0.25%float.
Proof. exact (labels_ignore_sign (N := Float64) 0.25%float). Defined.

Lemma labels_of_NaN_zero_variance :
  PrimFloat.is_nan
    (w_effectSize (Welch.welchTTest (N := Float64) [5; 5; 5]%float [5; 5; 5]%float None))
  = true /\
  w_effectSizeLabel (Welch.welchTTest (N := Float64) [5; 5; 5]%float [5; 5; 5]%float None)
  = large.
Proof.
  assert (H : PrimFloat.is_nan
                (w_effectSize (Welch.welchTTest (N := Float64)
                                 [5; 5; 5]%float [5; 5; 5]%float None)) = true)
    by (vm_compute; reflexivity).
  split; [exact H|].
  destruct (labels_of_NaN (N := Float64) _ H) as [_ [_ W]].
  apply W. reflexivity.
Defined.

End LabelFacts.

(* ================================================================== *)
(** * Facts about mann-whitney.ts: NaN *)
(* ================================================================== *)

Module RanksFacts.
Import MannWhitneySpec RanksSpec.
Section RanksFacts.
Context {N : JSNumber} {L : JSNumberLaws N} {LN : JSNumberNaN N}.
Local Open Scope js_scope.

Lemma hasNaN_skip_ties (c : number) (l : list number) :
  hasNaN l -> hasNaN (skipn (MannWhitney.tie_run c l) l).
Proof.
  unfold hasNaN. induction l as [|v l IH]; intros H; simpl; [exact H|].
  destruct (v === c) eqn:E; [|exact H].
  simpl. apply IH. inversion H as [? ? Hv|]; subst; [|assumption].
  now rewrite (num_eq_NaN_l v c Hv) in E.
Qed.

(** With a NaN among the values still to rank, the loop of [assignRanks]
    has no result, whatever the number of passes allowed. *)
Lemma assignRanks_loop_NaN (fuel i : nat) (rest : list number) :
  hasNaN rest -> MannWhitney.assignRanks_loop fuel i rest = None.
Proof.
  revert i rest. induction fuel as [|fuel IH]; intros i rest H.
  - destruct rest; [inversion H | reflexivity].
  - destruct rest as [|c rest']; [inversion H|].
    cbn [MannWhitney.assignRanks_loop].
    now rewrite IH by (now apply hasNaN_skip_ties).
Qed.

Lemma not_hasNaN_numeric (l : list number) : ~ hasNaN l -> numeric l.
Proof.
  unfold hasNaN, numeric. intros H. apply Forall_forall. intros x Hx.
  destruct (isNaN x) eqn:E; [|reflexivity].
  exfalso. apply H. apply Exists_exists. now exists x.
Qed.

(** X6.  [mannWhitneyU] returns exactly when neither sample contains NaN.
    A NaN is [===] to nothing, itself included: the inner [while] of
    [assignRanks] stops at once on it, [j] stays at [i], and the outer
    [while] repeats the same pass for ever; no number of passes gives the
    ranks of the sorted values. *)
Theorem mannWhitneyU_returns_iff (sampleA sampleB : list number)
  (alpha : option number) :
  let combined :=
    Array_sort (fun a b => fst a - fst b)
      (map (fun value => (value, MannWhitney.A)) sampleA
       ++ map (fun value => (value, MannWhitney.B)) sampleB) in
  (MannWhitney.mannWhitneyU sampleA sampleB alpha = None
   <-> hasNaN (sampleA ++ sampleB)) /\
  (hasNaN (sampleA ++ sampleB) ->
   forall fuel,
     MannWhitney.assignRanks_loop fuel 0 (map fst combined) = None).
Proof.
  intros combined.
  assert (D : hasNaN (sampleA ++ sampleB) -> hasNaN (map fst combined)).
  { unfold hasNaN. intros H. apply Exists_exists in H as [x [Hx Hn]].
    apply Exists_exists. exists x. split; [|exact Hn].
    apply in_map_iff. apply in_app_or in Hx as [Hx | Hx].
    - exists (x, MannWhitney.A). split; [reflexivity|].
      apply (Permutation_in _ (Permutation_sym (Array_sort_perm _ _))).
      apply in_or_app. left. apply in_map_iff. now exists x.
    - exists (x, MannWhitney.B). split; [reflexivity|].
      apply (Permutation_in _ (Permutation_sym (Array_sort_perm _ _))).
      apply in_or_app. right. apply in_map_iff. now exists x. }
  split; [split|].
  - intros E.
    destruct (Exists_dec (fun x => isNaN x = true) (sampleA ++ sampleB))
      as [H | H]; [intros x; destruct (isNaN x); auto; right; discriminate | exact H |].
    exfalso. apply not_hasNaN_numeric in H. unfold numeric in H.
    apply Forall_app in H as [HA HB].
    destruct (MannWhitneyFacts.mannWhitneyU_total sampleA sampleB alpha HA HB)
      as [r [Er _]].
    congruence.
  - intros H. unfold MannWhitney.mannWhitneyU, MannWhitney.mannWhitneyU_ranked,
      MannWhitney.assignRanks.
    fold combined. now rewrite assignRanks_loop_NaN by (now apply D).
  - intros H fuel. apply assignRanks_loop_NaN. now apply D.
Qed.

End RanksFacts.

Lemma mannWhitneyU_returns_iff_NaN :
  hasNaN (N := Float64) ([1; PrimFloat.nan] ++ [2])%float /\
  MannWhitney.mannWhitneyU (N := Float64) [1; PrimFloat.nan]%float [2]%float None
  = None.
Proof.
  assert (H : hasNaN (N := Float64) ([1; PrimFloat.nan] ++ [2])%float)
    by (apply Exists_cons_tl, Exists_cons_hd; reflexivity).
  split; [exact H|].
  exact (proj2 (proj1 (mannWhitneyU_returns_iff (N := Float64)
                         [1; PrimFloat.nan]%float [2]%float None)) H).
Defined.

End RanksFacts.

(* ================================================================== *)
(** * Facts about mann-whitney.ts: ranks and symmetry *)
(* ================================================================== *)

Module RanksExact.
Import MidRanks MidRankSpec MannWhitneyExact.
Local Open Scope R_scope.

Lemma Wsum_counts (v : R) (l : list R) :
  Wsum v l = INR (below l v) + INR (ties l v) / 2.
Proof.
  unfold Wsum, below, ties.
  induction l as [|y l IH]; [simpl; lra|].
  cbn [map sumR fold_right filter]. fold (sumR (map (w v) l)). rewrite IH.
  unfold w, ExactR.ltb, ExactR.eqb.
  destruct (Rlt_dec y v), (Req_dec_T y v); cbn [List.length];
    rewrite ?S_INR; lra.
Qed.

Lemma rank_of_midrank (l : list R) (v : R) : rank_of l v = midrank l v.
Proof. unfold rank_of, midrank. rewrite Wsum_counts. lra. Qed.

Lemma tie_run_head (c : R) (l : list R) :
  (1 <= MannWhitney.tie_run (N := Exact) c (c :: l))%nat.
Proof.
  simpl. replace (ExactR.eqb c c) with true
    by (symmetry; now apply ExactLaws.eqb_true). lia.
Qed.

(** The ranks given from position [i] on are as many as the values and add
    up to [(i + 1) + ... + (i + n)], ties or not. *)
Lemma assignRanks_loop_sum :
  forall (fuel i : nat) (rest : list R),
    (List.length rest <= fuel)%nat ->
    exists ranks,
      MannWhitney.assignRanks_loop (N := Exact) fuel i rest = Some ranks /\
      List.length ranks = List.length rest /\
      sumR ranks
      = INR (List.length rest) * INR i
        + INR (List.length rest) * (INR (List.length rest) + 1) / 2.
Proof.
  induction fuel as [|fuel IH]; intros i rest Hf.
  - destruct rest; [|simpl in Hf; lia].
    exists []. simpl. repeat split; lra.
  - destruct rest as [|c rest']; [exists []; simpl; repeat split; lra|].
    cbn [MannWhitney.assignRanks_loop].
    pose proof (tie_run_head c rest') as Hpos.
    pose proof (MannWhitneyFacts.tie_run_le (N := Exact) c (c :: rest')) as Hle.
    remember (MannWhitney.tie_run (N := Exact) c (c :: rest')) as k eqn:Hk.
    clear Hk.
    remember (c :: rest') as rest eqn:Hrest.
    assert (Hn : (List.length rest <= S fuel)%nat) by exact Hf.
    assert (Ls : List.length (skipn k rest) = (List.length rest - k)%nat)
      by apply length_skipn.
    destruct (IH (i + k)%nat (skipn k rest)) as [ranks [E [Hl Hs]]].
    { rewrite Ls. subst rest. cbn [List.length] in *. lia. }
    exact_ops. rewrite E.
    eexists. split; [reflexivity|]. split.
    + rewrite length_app, repeat_length, Hl, Ls. lia.
    + rewrite sumR_app, sumR_repeat, Hs, Ls.
      rewrite ExactLaws.of_lit_int.
      rewrite minus_INR by exact Hle.
      rewrite !plus_INR. simpl INR. field.
Qed.

(** X7.  In exact arithmetic [assignRanks] returns one rank per value, and
    the ranks of [n] values add up to [n (n + 1) / 2] whatever the ties
    and whatever the order of the values. *)
Theorem assignRanks_sum (values : list R) :
  exists ranks,
    MannWhitney.assignRanks (N := Exact) values = Some ranks /\
    List.length ranks = List.length values /\
    sumR ranks
    = INR (List.length values) * (INR (List.length values) + 1) / 2.
Proof.
  destruct (assignRanks_loop_sum (List.length values) 0 values (Nat.le_refl _))
    as [ranks [E [Hl Hs]]].
  exists ranks. split; [exact E|]. split; [exact Hl|].
  rewrite Hs. simpl INR. lra.
Qed.

(** X8.  On sorted values, in exact arithmetic, [assignRanks] gives every
    value its midrank: the number of values below it, plus the mean of
    [1 .. t] when [t] values tie with it. *)
Theorem assignRanks_midranks (values : list R) :
  StronglySorted Rle values ->
  MannWhitney.assignRanks (N := Exact) values
  = Some (map (midrank values) values).
Proof.
  intros H. rewrite (assignRanks_sorted values H). f_equal.
  apply map_ext. intros v. apply rank_of_midrank.
Qed.

Lemma assignRanks_midranks_ties :
  StronglySorted Rle [1; 2; 2; 5] /\
  MannWhitney.assignRanks (N := Exact) [1; 2; 2; 5]
  = Some (map (midrank [1; 2; 2; 5]) [1; 2; 2; 5]).
Proof.
  assert (H : StronglySorted Rle [1; 2; 2; 5])
    by (repeat constructor; lra).
  split; [exact H|]. exact (assignRanks_midranks [1; 2; 2; 5] H).
Defined.


Lemma pairsBelow_perm (a a' b b' : list R) :
  Permutation a a' -> Permutation b b' -> pairsBelow a b = pairsBelow a' b'.
Proof.
  intros Pa Pb. unfold pairsBelow.
  rewrite (sumR_map_ext (fun x => Wsum x b) (fun x => Wsum x b'))
    by (intros; now apply Wsum_perm).
  apply sumR_perm. now apply Permutation_map.
Qed.

(** Every field of the result of [mannWhitneyU], in exact arithmetic, from
    the smaller pair count and the two sizes. *)
Lemma mannWhitneyU_exact_fields (a b : list R) (alpha : option R) :
  let n1 := INR (List.length a) in
  let n2 := INR (List.length b) in
  exists r,
    MannWhitney.mannWhitneyU (N := Exact) a b alpha = Some r /\
    mw_U r = Rmin (pairsBelow a b) (pairsBelow b a) /\
    mw_pValue r
    = 2 * Welch.normalCDF (N := Exact)
            (- Rabs ((mw_U r - n1 * n2 / 2 + / 2)
                     / sqrt (n1 * n2 * (n1 + n2 + 1) / 12)))%R /\
    mw_significant r
    = ExactR.ltb (mw_pValue r) (orDefault alpha (/ 20)) /\
    mw_effectSize r = 1 - 2 * mw_U r / (n1 * n2) /\
    mw_effectSizeLabel r
    = MannWhitney.getEffectSizeLabelRankBiserial (N := Exact) (mw_effectSize r).
Proof.
  intros n1 n2.
  unfold MannWhitney.mannWhitneyU, MannWhitney.mannWhitneyU_ranked. exact_ops.
  set (combined0 := map (fun value => (value, MannWhitney.A)) a
                    ++ map (fun value => (value, MannWhitney.B)) b).
  change (Array_sort _ combined0)
    with (Array_sort (N := Exact) compareValue combined0).
  set (combined := Array_sort (N := Exact) compareValue combined0).
  assert (P : Permutation combined combined0)
    by apply (Array_sort_perm (N := Exact)).
  assert (S : StronglySorted byValue combined) by apply Array_sort_sorted.
  assert (Pv : Permutation (map fst combined) (a ++ b)).
  { rewrite <- (values_tagged a b). now apply Permutation_map. }
  rewrite (assignRanks_sorted _ (sorted_values _ S)).
  rewrite rankSums_sum.
  rewrite (sumR_perm _ _ (Permutation_map (rankA _) P)).
  rewrite (sumR_perm _ _ (Permutation_map (rankB _) P)).
  unfold combined0. rewrite sum_rankA_tagged, sum_rankB_tagged.
  rewrite (rank_sum a b _ Pv).
  rewrite (rank_sum b a _ (Permutation_trans Pv (Permutation_app_comm a b))).
  eexists. split; [reflexivity|].
  cbn [mw_U mw_pValue mw_significant mw_effectSize mw_effectSizeLabel].
  exact_ops. unfold MannWhitney.normalCDF.
  fold (pairsBelow a b) (pairsBelow b a). fold n1 n2.
  assert (E5 : ExactR.of_lit 0.5%js = / 2).
  { change (ExactR.of_lit 0.5%js) with (ExactR.of_lit (mkLit 5 (-1))).
    rewrite (ExactLaws.of_lit_dec 5 1). simpl. lra. }
  assert (E05 : ExactR.of_lit 0.05%js = / 20).
  { change (ExactR.of_lit 0.05%js) with (ExactR.of_lit (mkLit 5 (-2))).
    rewrite (ExactLaws.of_lit_dec 5 2). simpl. lra. }
  rewrite E5, E05, !ExactLaws.of_lit_int.
  replace (n1 * (n1 + 1) / 2 + pairsBelow a b - n1 * (n1 + 1) / 2)
    with (pairsBelow a b) by lra.
  replace (n2 * (n2 + 1) / 2 + pairsBelow b a - n2 * (n2 + 1) / 2)
    with (pairsBelow b a) by lra.
  repeat split; reflexivity.
Qed.

Lemma mw_result_eq (r r' : MannWhitneyResult (N := Exact)) :
  mw_U r = mw_U r' -> mw_pValue r = mw_pValue r' ->
  mw_significant r = mw_significant r' ->
  mw_effectSize r = mw_effectSize r' ->
  mw_effectSizeLabel r = mw_effectSizeLabel r' -> r = r'.
Proof. destruct r, r'; simpl; intros; subst; reflexivity. Qed.

(** X9.  In exact arithmetic the result of [mannWhitneyU] depends neither
    on the order of the values inside a sample nor on which sample comes
    first: [U] is the smaller of the two pair counts, and the p-value and
    the effect size are computed from [U], [n1 * n2] and [n1 + n2].  The
    result carries no direction. *)
Theorem mannWhitneyU_symmetric (a a' b b' : list R) (alpha : option R) :
  a <> [] -> b <> [] ->
  Permutation a a' -> Permutation b b' ->
  exists r,
    MannWhitney.mannWhitneyU (N := Exact) a b alpha = Some r /\
    MannWhitney.mannWhitneyU (N := Exact) a' b' alpha = Some r /\
    MannWhitney.mannWhitneyU (N := Exact) b a alpha = Some r.
Proof.
  intros _ _ Pa Pb.
  destruct (mannWhitneyU_exact_fields a b alpha) as [r [E [U [P [S [Z Lb]]]]]].
  exists r. split; [exact E|].
  assert (Same : forall x y : list R,
             Rmin (pairsBelow x y) (pairsBelow y x)
             = Rmin (pairsBelow a b) (pairsBelow b a) ->
             INR (List.length x) * INR (List.length y)
             = INR (List.length a) * INR (List.length b) ->
             INR (List.length x) + INR (List.length y)
             = INR (List.length a) + INR (List.length b) ->
             MannWhitney.mannWhitneyU (N := Exact) x y alpha = Some r).
  { intros x y HU Hm Hs.
    destruct (mannWhitneyU_exact_fields x y alpha)
      as [r' [E' [U' [P' [S' [Z' Lb']]]]]].
    cbv zeta in *.
    rewrite E'. f_equal.
    assert (EU : mw_U r' = mw_U r) by congruence.
    assert (EP : mw_pValue r' = mw_pValue r).
    { rewrite P', P, EU, Hm, Hs. reflexivity. }
    assert (EZ : mw_effectSize r' = mw_effectSize r)
      by (rewrite Z', Z, EU, Hm; reflexivity).
    apply mw_result_eq; congruence. }
  split.
  - apply Same.
    + now rewrite (pairsBelow_perm a' a b' b), (pairsBelow_perm b' b a' a)
        by (now symmetry).
    + now rewrite <- (Permutation_length Pa), <- (Permutation_length Pb).
    + now rewrite <- (Permutation_length Pa), <- (Permutation_length Pb).
  - apply Same; [apply Rmin_comm | apply Rmult_comm | apply Rplus_comm].
Qed.

Lemma mannWhitneyU_symmetric_example :
  ([1; 2; 3] <> [] /\ [1; 2; 4] <> [] /\
   Permutation [1; 2; 3] [2; 1; 3] /\ Permutation [1; 2; 4] [1; 4; 2]) /\
  exists r,
    MannWhitney.mannWhitneyU (N := Exact) [1; 2; 3] [1; 2; 4] None = Some r /\
    MannWhitney.mannWhitneyU (N := Exact) [2; 1; 3] [1; 4; 2] None = Some r /\
    MannWhitney.mannWhitneyU (N := Exact) [1; 2; 4] [1; 2; 3] None = Some r.
Proof.
  assert (Pa : Permutation [1; 2; 3] [2; 1; 3]) by apply perm_swap.
  assert (Pb : Permutation [1; 2; 4] [1; 4; 2]) by (apply perm_skip, perm_swap).
  split; [repeat split; try discriminate; assumption|].
  apply (mannWhitneyU_symmetric [1; 2; 3] [2; 1; 3] [1; 2; 4] [1; 4; 2] None);
    try discriminate; assumption.
Defined.

End RanksExact.

(* ================================================================== *)
(** * The approximation of erf in exact arithmetic *)
(* ================================================================== *)

Module ErfExact.
Import ErfSpec.
Local Open Scope R_scope.

(** Decimal literals as fractions. *)
Ltac lits :=
  unfold ExactR.of_lit; cbn [lit_mant lit_expo powerRZ Pos.to_nat Pos.iter_op
                             Init.Nat.add pow].













End ErfExact.

Module PValueExact.
Import MidRanks MannWhitneyExact RanksExact ErfExact.
Local Open Scope R_scope.




End PValueExact.

(* ================================================================== *)
(** * Facts about sample-quality.ts *)
(* ================================================================== *)

Module DiagnosticsFacts.
Section DiagnosticsFacts.
Context {N : JSNumber} {NF : JSNonFinite N} {F : JSFormat N}
        {SS : SimpleStatistics N}.
Local Open Scope js_scope.

(** X12.  [runDiagnostics] and [getSampleDiagnostics] against each other.
    From three elements on, the [sample] part of [runDiagnostics] is what
    [getSampleDiagnostics] returns for the same threshold.  Below three
    elements the two still agree on [n], [mean], [stdDev], [min] and [max]
    and on an empty list of outliers, but not on the z-scores:
    [runDiagnostics] reports none, [getSampleDiagnostics] one 0 per
    element. *)
Theorem runDiagnostics_sample (samples : list number)
  (config : option DiagnosticsConfig) :
  let outlierThreshold :=
    dc_outlierThreshold (orDefault config {| dc_outlierThreshold := None |}) in
  let r := dr_sample (SampleQuality.runDiagnostics samples config) in
  let g := SampleQuality.getSampleDiagnostics samples outlierThreshold in
  ((3 <= List.length samples)%nat -> r = g) /\
  (sd_n r = sd_n g /\ sd_mean r = sd_mean g /\ sd_stdDev r = sd_stdDev g /\
   sd_min r = sd_min g /\ sd_max r = sd_max g) /\
  ((List.length samples < 3)%nat ->
   o_zScores (sd_outliers r) = [] /\
   o_zScores (sd_outliers g) = map (fun _ => 0 : number) samples /\
   o_count (sd_outliers r) = 0%nat /\ o_count (sd_outliers g) = 0%nat /\
   o_cleaned (sd_outliers r) = samples /\
   o_cleaned (sd_outliers g) = samples /\
   nt_isNormal (sd_normality r) = true /\
   nt_isNormal (sd_normality g) = true).
Proof.
  intros thr r g. subst r g.
  unfold SampleQuality.runDiagnostics, SampleQuality.getSampleDiagnostics.
  fold thr. cbv zeta.
  destruct samples as [|x0 [|x1 [|x2 rest]]].
  1-3: cbn; repeat split; auto; lia.
  split; [reflexivity|].
  split; [repeat split|].
  cbn [List.length]. intros H. exfalso. lia.
Qed.

(** X13.  The recommendation of [runDiagnostics] is [caution] exactly for
    a sample of fewer than three elements, for which nothing is tested: no
    outlier, [W = 1], [p = 1].  From three elements on it is
    [use_nonparametric] when the outliers are too many or normality fails,
    and [proceed] otherwise: outliers that are not too many do not lower
    it. *)
Theorem runDiagnostics_recommendation (samples : list number)
  (config : option DiagnosticsConfig) :
  let r := SampleQuality.runDiagnostics samples config in
  let n := List.length samples in
  (dr_recommendation r = caution <-> (n < 3)%nat) /\
  (dr_recommendation r = use_nonparametric <->
   (3 <= n)%nat /\
   (o_tooMany (sd_outliers (dr_sample r)) = true \/
    nt_isNormal (sd_normality (dr_sample r)) = false)) /\
  (dr_recommendation r = proceed <->
   (3 <= n)%nat /\
   o_tooMany (sd_outliers (dr_sample r)) = false /\
   nt_isNormal (sd_normality (dr_sample r)) = true) /\
  ((n < 3)%nat ->
   o_count (sd_outliers (dr_sample r)) = 0%nat /\
   o_cleaned (sd_outliers (dr_sample r)) = samples /\
   o_zScores (sd_outliers (dr_sample r)) = [] /\
   nt_W (sd_normality (dr_sample r)) = 1 /\
   nt_pValue (sd_normality (dr_sample r)) = 1 /\
   nt_isNormal (sd_normality (dr_sample r)) = true).
Proof.
  intros r n. subst r.
  unfold SampleQuality.runDiagnostics. fold n. cbv zeta.
  destruct (Nat.ltb_spec n 3) as [H | H].
  - cbn. repeat split; intros; try discriminate; try lia; auto.
  - cbn [dr_recommendation dr_sample sd_outliers sd_normality].
    unfold SampleQuality.determineRecommendation.
    destruct (o_tooMany _), (nt_isNormal _); cbn;
      repeat split; intros; try discriminate; try lia; auto;
      try (destruct H0 as [_ [? | ?]]; discriminate);
      try (destruct H0 as [_ [? ?]]; discriminate).
Qed.

End DiagnosticsFacts.
End DiagnosticsFacts.

(* ================================================================== *)
(** * The evidence of compare.ts *)
(* ================================================================== *)

Module EvidenceFacts.
Section EvidenceFacts.
Context {N : JSNumber} {NF : JSNonFinite N} {F : JSFormat N}
        {SS : SimpleStatistics N}.
Local Open Scope js_scope.

Lemma mean_of_diagnostics (samples : list number) (thr : option number) :
  (3 <= List.length samples)%nat ->
  sd_mean (SampleQuality.getSampleDiagnostics samples thr) = ss_mean samples.
Proof.
  intros H. unfold SampleQuality.getSampleDiagnostics.
  replace (List.length samples =? 0)%nat with false
    by (symmetry; apply Nat.eqb_neq; lia).
  reflexivity.
Qed.

Lemma determineVerdict_cases sig e d c b :
  Compare.determineVerdict sig e d c b = significant \/
  Compare.determineVerdict sig e d c b = not_significant.
Proof.
  unfold Compare.determineVerdict.
  destruct sig; cbn; [|now right].
  destruct (_ <? _); [now right|]. destruct (_ <? _); [now right | now left].
Qed.

(** X14.  What every result of [compareConditions] keeps in its evidence,
    whichever path produced it: [difference] is [meanA - meanB];
    [differencePercent] is [difference / meanB * 100], or 0 when [meanB] is
    0 and in the insufficient-data result, so that no percentage is a
    quotient by zero; a confidence interval is present exactly when
    Welch's test ran; the verdict is [insufficient_data] exactly when a
    sample has fewer than three elements, in which case the evidence names
    Welch's test although no test ran; and [config] is the configuration
    with its defaults filled in. *)
Theorem evidence_invariants (sampleA sampleB : list number)
  (cfg : CompareConfig) (r : CompareResult) :
  Compare.compareConditions sampleA sampleB cfg = Some r ->
  let ev := evidence r in
  let short := (List.length sampleA < 3 \/ List.length sampleB < 3)%nat in
  config r = Compare.mergeConfig cfg /\
  ev_difference ev = ev_meanA ev - ev_meanB ev /\
  ((ev_meanB ev === 0) = true -> ev_differencePercent ev = 0) /\
  (short -> ev_differencePercent ev = 0) /\
  (~ short -> (ev_meanB ev === 0) = false ->
   ev_differencePercent ev = ev_difference ev / ev_meanB ev * 100) /\
  (verdict r = insufficient_data <-> short) /\
  (short -> ev_testUsed ev = welch_t_test /\ ev_ci95 ev = None) /\
  (~ short -> (ev_ci95 ev = None <-> ev_testUsed ev = mann_whitney_u)) /\
  (~ short -> ev_meanA ev = ss_mean sampleA /\ ev_meanB ev = ss_mean sampleB).
Proof.
  unfold Compare.compareConditions, Compare.compareConditions_with.
  cbv zeta.
  destruct (Nat.ltb_spec (List.length sampleA) 3) as [HA | HA];
    [|destruct (Nat.ltb_spec (List.length sampleB) 3) as [HB | HB]];
    cbn [orb].
  1,2: intros E; injection E as <-;
    unfold Compare.createInsufficientDataResult, Compare.insufficientDataResult;
    cbn; repeat split; intros; auto; try discriminate; try lia;
    exfalso; lia.
  unfold Compare.getSampleDiagnostics.
  set (thr := Some _).
  pose proof (mean_of_diagnostics sampleA thr HA) as MA.
  pose proof (mean_of_diagnostics sampleB thr HB) as MB.
  set (diagA := SampleQuality.getSampleDiagnostics sampleA thr) in *.
  set (diagB := SampleQuality.getSampleDiagnostics sampleB thr) in *.
  destruct (Compare.assessDataQuality _ _ _) as [[quality warnings] rec].
  assert (NS : ~ (List.length sampleA < 3 \/ List.length sampleB < 3)%nat) by lia.
  destruct rec.
  - intros E; injection E as <-.
    unfold Compare.buildResult, Compare.welchBranch.
    cbn [evidence verdict config fst snd ev_difference ev_meanA
         ev_meanB ev_differencePercent ev_ci95 ev_testUsed w_meanDiff
         w_ci95 Welch.welchTTest].
    rewrite MA, MB.
    match goal with
    | |- context [Compare.determineVerdict ?s ?e ?d ?c ?b] =>
        destruct (determineVerdict_cases s e d c b) as [V | V]; rewrite V
    end.
    all: repeat split; intros; auto; try discriminate; try contradiction;
      try (exfalso; lia).
    all: try (match goal with H : _ = true |- _ => rewrite H end; reflexivity).
    all: try (match goal with H : _ = false |- _ => rewrite H end; reflexivity).
  - intros E; injection E as <-.
    unfold Compare.buildResult, Compare.welchBranch.
    cbn [evidence verdict config fst snd ev_difference ev_meanA
         ev_meanB ev_differencePercent ev_ci95 ev_testUsed w_meanDiff
         w_ci95 Welch.welchTTest].
    rewrite MA, MB.
    match goal with
    | |- context [Compare.determineVerdict ?s ?e ?d ?c ?b] =>
        destruct (determineVerdict_cases s e d c b) as [V | V]; rewrite V
    end.
    all: repeat split; intros; auto; try discriminate; try contradiction;
      try (exfalso; lia).
    all: try (match goal with H : _ = true |- _ => rewrite H end; reflexivity).
    all: try (match goal with H : _ = false |- _ => rewrite H end; reflexivity).
  - destruct (MannWhitney.mannWhitneyU _ _ _) as [result|]; [|discriminate].
    intros E; injection E as <-.
    unfold Compare.buildResult, Compare.mannWhitneyBranch.
    cbn [evidence verdict config fst snd ev_difference ev_meanA
         ev_meanB ev_differencePercent ev_ci95 ev_testUsed].
    rewrite MA, MB.
    match goal with
    | |- context [Compare.determineVerdict ?s ?e ?d ?c ?b] =>
        destruct (determineVerdict_cases s e d c b) as [V | V]; rewrite V
    end.
    all: repeat split; intros; auto; try discriminate; try contradiction;
      try (exfalso; lia).
    all: try (match goal with H : _ = true |- _ => rewrite H end; reflexivity).
    all: try (match goal with H : _ = false |- _ => rewrite H end; reflexivity).
Qed.

End EvidenceFacts.

Lemma evidence_invariants_scenario :
  exists r : @CompareResult Float64,
    Compare.compareConditions (N := Float64) Samples.scenarioA Samples.scenarioB
      (Samples.thresholdOnly 10) = Some r /\
    ev_difference (evidence r)
    = PrimFloat.sub (ev_meanA (evidence r)) (ev_meanB (evidence r)) /\
    verdict r <> insufficient_data.
Proof.
  assert (HA : (3 <= List.length Samples.scenarioA)%nat) by (simpl; lia).
  assert (HB : (3 <= List.length Samples.scenarioB)%nat) by (simpl; lia).
  assert (NA : MannWhitneySpec.numeric (N := Float64) Samples.scenarioA)
    by (repeat constructor).
  assert (NB : MannWhitneySpec.numeric (N := Float64) Samples.scenarioB)
    by (repeat constructor).
  destruct (CompareFacts.compareConditions_returns (N := Float64)
              Samples.scenarioA Samples.scenarioB (Samples.thresholdOnly 10)
              HA HB NA NB) as [r [sig [effect [E _]]]].
  exists r. split; [exact E|].
  destruct (evidence_invariants (N := Float64) _ _ _ r E)
    as [_ [D [_ [_ [_ [V _]]]]]].
  split; [exact D|]. intros H. apply V in H.
  unfold Samples.scenarioA, Samples.scenarioB in H. simpl in H. lia.
Defined.

End EvidenceFacts.

(* ================================================================== *)
(** * The normal quantile in exact arithmetic *)
(* ================================================================== *)

Module QuantileExact.
Local Open Scope R_scope.

Section Quantile.
Context {NF : JSNonFinite Exact}.

Lemma normalQuantile_unfold (p : R) :
  Welch.normalQuantile (N := Exact) p
  = if Rle_dec p 0 then - Infinity
    else if Rle_dec 1 p then Infinity
    else if Rlt_dec (1 / 2) p then
      - Welch.normalQuantile_lower (N := Exact) (1 - p)%R
    else Welch.normalQuantile_lower (N := Exact) p.
Proof.
  unfold Welch.normalQuantile.
  cbn [number of_lit num_sub num_neg num_lt num_le Exact].
  rewrite !ExactLaws.of_lit_int.
  change (ExactR.of_lit 0.5%js) with (ExactR.of_lit (mkLit 5 (-1))).
  rewrite (ExactLaws.of_lit_dec 5 1).
  replace (5 / 10 ^ Pos.to_nat 1) with (1 / 2) by (simpl; lra).
  unfold ExactR.leb, ExactR.ltb.
  destruct (Rle_dec p 0); [reflexivity|].
  destruct (Rle_dec 1 p); [reflexivity|].
  destruct (Rlt_dec (1 / 2) p); [|reflexivity].
  destruct (Rle_dec (1 - p) 0); [exfalso; lra|].
  destruct (Rle_dec 1 (1 - p)); [exfalso; lra|].
  reflexivity.
Qed.


End Quantile.
End QuantileExact.

(* ================================================================== *)
(** * The coefficients of normality.ts *)
(* ================================================================== *)

Module CoefficientFacts.
Section CoefficientFacts.
Context {N : JSNumber} {NF : JSNonFinite N} {F : JSFormat N}
        {SS : SimpleStatistics N}.
Local Open Scope js_scope.

Lemma div2_bounds (n i : nat) :
  (i < Nat.div2 n)%nat -> (i < n)%nat /\ (n - 1 - i < n)%nat.
Proof.
  intros H. pose proof (Nat.div2_odd n) as E.
  destruct (Nat.odd n); simpl in E; lia.
Qed.

Lemma pairs_length {A B : Type} (m : list A) (f : A -> A -> B) (n k : nat) :
  List.length m = n -> (k <= Nat.div2 n)%nat ->
  List.length
    (flat_map (fun i =>
                 match nth_error m i, nth_error m (n - 1 - i) with
                 | Some mLow, Some mHigh => [f mLow mHigh]
                 | _, _ => []
                 end) (seq 0 k)) = k.
Proof.
  intros Hm. induction k as [|k IH]; intros Hk; [reflexivity|].
  rewrite seq_S, flat_map_app, length_app, IH by lia.
  cbn [flat_map Nat.add]. rewrite app_nil_r.
  destruct (div2_bounds n k) as [H1 H2]; [lia|].
  destruct (nth_error m k) eqn:E1;
    [|apply nth_error_None in E1; lia].
  destruct (nth_error m (n - 1 - k)) eqn:E2;
    [|apply nth_error_None in E2; lia].
  simpl. lia.
Qed.

(** X15.  [getShapiroWilkCoefficients n] has [floor(n / 2)] coefficients
    for every [n], tabulated or approximated: one for each pair
    [(x[i], x[n-1-i])] that the numerator of [W] sums over. *)
Theorem coefficients_length (n : nat) :
  List.length (Normality.getShapiroWilkCoefficients n) = Nat.div2 n.
Proof.
  assert (A : List.length (Normality.approximateCoefficients n) = Nat.div2 n).
  { unfold Normality.approximateCoefficients. cbv zeta.
    match goal with
    | |- context [if ?c then _ else _] => destruct c
    end; rewrite ?length_map;
      (apply (pairs_length _ (fun mLow mHigh => (mHigh - mLow) / _));
       [now rewrite length_map, length_seq | apply Nat.le_refl]). }
  unfold Normality.getShapiroWilkCoefficients.
  do 12 (destruct n as [|n]; [first [exact A | reflexivity]|]).
  exact A.
Qed.

End CoefficientFacts.
End CoefficientFacts.

Module CoefficientExact.
Import MidRanks MannWhitneyExact CoefficientSpec.
Local Open Scope R_scope.

Lemma fold_sumSquares (l : list R) (acc : R) :
  fold_left (fun sum x => sum + x * x) l acc = acc + sumSquares l.
Proof.
  unfold sumSquares. revert acc.
  induction l as [|x l IH]; intros acc; simpl; [lra|].
  rewrite IH. lra.
Qed.

Lemma sumSquares_nonneg (l : list R) : 0 <= sumSquares l.
Proof.
  unfold sumSquares. apply sumR_map_nonneg. intros x. nra.
Qed.

Lemma sumSquares_scale (l : list R) (c : R) :
  sumSquares (map (fun x => x / c) l) = sumSquares l / (c * c).
Proof.
  unfold sumSquares.
  destruct (Req_dec_T c 0) as [-> | Hc].
  - induction l as [|x l IH]; simpl; unfold Rdiv in *;
      rewrite ?Rmult_0_l, ?Rinv_0 in *; [lra|].
    rewrite IH. rewrite !Rmult_0_r. lra.
  - induction l as [|x l IH]; simpl; [unfold Rdiv; lra|].
    rewrite IH. field. exact Hc.
Qed.

Section Approximate.
Context {NF : JSNonFinite Exact} {F : JSFormat Exact}
        {SS : SimpleStatistics Exact}.

(** Below 0.28 the rational approximation of the quantile is negative. *)
Lemma normalQuantile_lower_negative (p : R) :
  0 < p <= 7 / 25 -> Welch.normalQuantile_lower (N := Exact) p < 0.
Proof.
  intros [H0 H1]. unfold Welch.normalQuantile_lower.
  cbn [number of_lit num_add num_sub num_mul num_div num_neg Math_sqrt
       Math_log Exact].
  ErfExact.lits.
  assert (L : ln p < - (18 / 25)).
  { rewrite <- (ln_exp (- (18 / 25))). apply ln_increasing; [exact H0|].
    pose proof (exp_ineq1 (- (18 / 25))) as E. lra. }
  assert (S : (6 / 5) * (6 / 5) < -2 * 1 * ln p) by lra.
  assert (Sq : sqrt (-2 * 1 * ln p) * sqrt (-2 * 1 * ln p) = -2 * 1 * ln p)
    by (apply sqrt_sqrt; lra).
  pose proof (sqrt_pos (-2 * 1 * ln p)) as Sp.
  set (t := sqrt (-2 * 1 * ln p)) in *.
  assert (T : 6 / 5 < t) by nra.
  simpl.
  set (num := _ + _ * t + _ * t * t).
  set (den := _ + _ * t + _ * t * t + _ * t * t * t).
  assert (D : 0 < den) by (unfold den; nra).
  assert (Nm : num < t * den).
  { unfold num, den.
    assert (T2 : 36 / 25 < t * t) by nra.
    assert (T3 : 0 < t * t * t) by nra.
    nra. }
  assert (Q : num / den < t).
  { apply (Rmult_lt_reg_r den); [exact D|].
    unfold Rdiv. rewrite Rmult_assoc, Rinv_l, Rmult_1_r by lra. exact Nm. }
  lra.
Qed.

(** Blom's points: the first is below 0.28, the last is one minus the
    first. *)
Lemma blom_points (n : nat) :
  (2 <= n)%nat ->
  let p1 := (INR 1 - 3 / 8) / (INR n + 1 / 4) in
  0 < p1 <= 7 / 25 /\ (INR n - 3 / 8) / (INR n + 1 / 4) = 1 - p1.
Proof.
  intros H p1. subst p1.
  assert (N2 : 2 <= INR n).
  { replace 2 with (INR 2) by (simpl; lra). now apply le_INR. }
  simpl INR. split; [split|].
  - apply Rdiv_lt_0_compat; lra.
  - apply (Rmult_le_reg_r (INR n + 1 / 4)); [lra|].
    unfold Rdiv at 1. rewrite Rmult_assoc, Rinv_l by lra. lra.
  - field. lra.
Qed.

Lemma literal_points (i n : nat) :
  ((@of_nat Exact i - 0.375) / (@of_nat Exact n + 0.25))%js
  = (INR i - 3 / 8) / (INR n + 1 / 4).
Proof.
  cbn [number of_lit of_nat num_add num_sub num_div Exact].
  ErfExact.lits. simpl. f_equal; lra.
Qed.

Lemma sumSquares_cons (x : R) (l : list R) :
  sumSquares (x :: l) = x * x + sumSquares l.
Proof. reflexivity. Qed.

Lemma approximateCoefficients_unit (n : nat) :
  (2 <= n)%nat ->
  sumSquares (Normality.approximateCoefficients (N := Exact) n) = 1.
Proof.
  intros H.
  destruct (blom_points n H) as [[P0 P1] Pn]. cbv zeta in *.
  set (p1 := (INR 1 - 3 / 8) / (INR n + 1 / 4)) in *.
  set (q := fun i : nat =>
              Normality.normalQuantile (N := Exact)
                ((@of_nat Exact i - 0.375) / (@of_nat Exact n + 0.25))%js).
  assert (Q1 : q 1%nat = Welch.normalQuantile_lower (N := Exact) p1).
  { unfold q, Normality.normalQuantile. rewrite literal_points. fold p1.
    rewrite QuantileExact.normalQuantile_unfold.
    destruct (Rle_dec p1 0); [lra|].
    destruct (Rle_dec 1 p1); [lra|].
    destruct (Rlt_dec (1 / 2) p1); [lra | reflexivity]. }
  assert (Qn : q n = - q 1%nat).
  { rewrite Q1. unfold q, Normality.normalQuantile.
    rewrite literal_points, Pn.
    rewrite QuantileExact.normalQuantile_unfold.
    destruct (Rle_dec (1 - p1) 0); [lra|].
    destruct (Rle_dec 1 (1 - p1)); [lra|].
    destruct (Rlt_dec (1 / 2) (1 - p1)); [|lra].
    replace (1 - (1 - p1)) with p1 by ring. reflexivity. }
  pose proof (normalQuantile_lower_negative p1 (conj P0 P1)) as Neg.
  rewrite <- Q1 in Neg.
  unfold Normality.approximateCoefficients. cbv zeta.
  fold q.
  set (m := map q (seq 1 n)).
  assert (M0 : nth_error m 0 = Some (q 1%nat)).
  { unfold m. destruct n as [|n']; [lia|]. reflexivity. }
  assert (Mn : nth_error m (n - 1 - 0) = Some (q n)).
  { unfold m. rewrite nth_error_map.
    rewrite (nth_error_nth' _ 0%nat) by (rewrite length_seq; lia).
    rewrite seq_nth by lia. cbn [option_map]. f_equal. f_equal. lia. }
  cbn [number of_lit of_nat num_add num_sub num_mul num_div num_lt
       Math_sqrt Exact].
  rewrite (fold_sumSquares m), !ExactLaws.of_lit_int, Rplus_0_l.
  assert (Ms : 0 < sumSquares m).
  { unfold m. destruct n as [|n']; [lia|].
    cbn [seq map]. rewrite sumSquares_cons.
    pose proof (sumSquares_nonneg (map q (seq 2 n'))). nra. }
  assert (Mp : 0 < sqrt (sumSquares m)) by (now apply sqrt_lt_R0).
  set (mNorm := sqrt (sumSquares m)) in *.
  destruct (Nat.div2 n) as [|k] eqn:Ek.
  { exfalso. do 2 (destruct n as [|n]; [lia|]). discriminate. }
  cbn [seq flat_map]. change (@number Exact) with R in *. rewrite M0, Mn.
  set (rest := flat_map _ (seq 1 k)).
  set (a0 := (q n - q 1%nat) / (2 * mNorm)).
  change ([a0] ++ rest) with (a0 :: rest).
  rewrite (fold_sumSquares (a0 :: rest)), Rplus_0_l.
  assert (A0 : 0 < a0).
  { unfold a0. rewrite Qn. apply Rdiv_lt_0_compat; lra. }
  pose proof (sumSquares_nonneg rest) as R0.
  assert (As : 0 < sumSquares (a0 :: rest))
    by (rewrite sumSquares_cons; nra).
  assert (Ap : 0 < sqrt (sumSquares (a0 :: rest))) by (now apply sqrt_lt_R0).
  replace (ExactR.ltb 0 (sqrt (sumSquares (a0 :: rest)))) with true
    by (symmetry; now apply ExactLaws.ltb_true).
  rewrite sumSquares_scale, sqrt_sqrt by lra.
  field. lra.
Qed.

(** X16.  The scale of the coefficients, in exact arithmetic.  For every
    [n >= 2] the coefficients that [approximateCoefficients] returns have
    unit length: their squares add up to 1 (no divisor of the computation
    being 0); for [n < 2] there is none.  The squares of a tabulated row
    add up to one half, within 0.0005.  So from [n = 12] on
    [getShapiroWilkCoefficients] returns a vector of twice the squared
    length of those it returns up to [n = 11]. *)
Theorem coefficients_scale (n : nat) :
  ((2 <= n)%nat ->
   sumSquares (Normality.approximateCoefficients (N := Exact) n) = 1) /\
  ((n < 2)%nat -> Normality.approximateCoefficients (N := Exact) n = []) /\
  ((3 <= n <= 11)%nat ->
   4995 / 10000
   < sumSquares (Normality.getShapiroWilkCoefficients (N := Exact) n)
   < 5005 / 10000) /\
  ((12 <= n)%nat ->
   sumSquares (Normality.getShapiroWilkCoefficients (N := Exact) n) = 1).
Proof.
  split; [apply approximateCoefficients_unit|]. split; [|split].
  - intros H. unfold Normality.approximateCoefficients. cbv zeta.
    assert (E : Nat.div2 n = 0%nat)
      by (do 2 (destruct n as [|n]; [reflexivity|]); lia).
    rewrite E. cbn [seq flat_map fold_left map].
    now destruct (_ >? _)%js.
  - intros H. unfold Normality.getShapiroWilkCoefficients.
    do 3 (destruct n as [|n]; [lia|]).
    do 9 (destruct n as [|n];
          [unfold sumSquares, sumR; cbn [map fold_right of_lit Exact];
           unfold ExactR.of_lit; simpl; lra|]).
    lia.
  - intros H.
    replace (Normality.getShapiroWilkCoefficients (N := Exact) n)
      with (Normality.approximateCoefficients (N := Exact) n).
    + apply approximateCoefficients_unit. lia.
    + unfold Normality.getShapiroWilkCoefficients.
      do 12 (destruct n as [|n]; [lia|]). reflexivity.
Qed.

End Approximate.

End CoefficientExact.

Module OrderExact.
Import MidRanks MannWhitneyExact OrderSpec.
Local Open Scope R_scope.

Lemma sort_insert_sorted_numbers (x : R) (l : list R) :
  StronglySorted Rle l ->
  StronglySorted Rle (sort_insert (N := Exact) compareNumbers x l).
Proof.
  induction 1 as [|y l Hs IH Hy]; simpl; [repeat constructor|].
  unfold compareNumbers at 1.
  destruct (ExactR.ltb _ _) eqn:E.
  - apply ExactLaws.ltb_true in E. rewrite ExactLaws.of_lit_int in E.
    constructor; [exact IH|].
    eapply Permutation_Forall.
    + symmetry. apply (sort_insert_perm (N := Exact)).
    + constructor; [lra | exact Hy].
  - apply ExactLaws.ltb_false in E. rewrite ExactLaws.of_lit_int in E.
    constructor; [now constructor|].
    constructor; [lra|].
    eapply Forall_impl; [|exact Hy]. simpl. intros. lra.
Qed.

Lemma Array_sort_sorted_numbers (l : list R) :
  StronglySorted Rle (Array_sort (N := Exact) compareNumbers l).
Proof.
  induction l as [|x l IH]; simpl; [constructor|].
  now apply sort_insert_sorted_numbers.
Qed.

Lemma sorted_unique (l l' : list R) :
  StronglySorted Rle l -> StronglySorted Rle l' -> Permutation l l' -> l = l'.
Proof.
  intros Hl. revert l'. induction Hl as [|x l Hs IH Hx]; intros l' Hl' P.
  - apply Permutation_nil in P. now subst.
  - destruct Hl' as [|y l' Hs' Hy].
    + symmetry in P. apply Permutation_nil in P. discriminate.
    + assert (E : x = y).
      { assert (I1 : In x (y :: l')) by (apply (Permutation_in x P); now left).
        assert (I2 : In y (x :: l))
          by (apply (Permutation_in y (Permutation_sym P)); now left).
        destruct I1 as [-> | I1]; [reflexivity|].
        destruct I2 as [<- | I2]; [reflexivity|].
        pose proof (proj1 (Forall_forall _ _) Hy x I1).
        pose proof (proj1 (Forall_forall _ _) Hx y I2). simpl in *. lra. }
      subst y. f_equal. apply IH; [exact Hs'|].
      now apply Permutation_cons_inv with x.
Qed.

(** In exact arithmetic the sorted copy of a sample is the same for every
    order of the sample. *)
Lemma Array_sort_canonical (l l' : list R) :
  Permutation l l' ->
  Array_sort (N := Exact) (fun a b => a - b)%js l
  = Array_sort (N := Exact) (fun a b => a - b)%js l'.
Proof.
  intros P.
  change (Array_sort (N := Exact) compareNumbers l
          = Array_sort (N := Exact) compareNumbers l').
  apply sorted_unique; try apply Array_sort_sorted_numbers.
  rewrite (Array_sort_perm (N := Exact) compareNumbers l).
  rewrite (Array_sort_perm (N := Exact) compareNumbers l').
  exact P.
Qed.

Lemma filter_perm {A : Type} (p : A -> bool) (l l' : list A) :
  Permutation l l' -> Permutation (filter p l) (filter p l').
Proof.
  induction 1 as [|x l l' P IH|x y l|l l' l'' P1 IH1 P2 IH2]; simpl.
  - constructor.
  - destruct (p x); [now apply perm_skip | assumption].
  - destruct (p x), (p y); try reflexivity. apply perm_swap.
  - now transitivity (filter p l').
Qed.

Lemma swap_perm {A : Type} (l1 l2 : list A) (x y : A) :
  Permutation (l1 ++ x :: y :: l2) (l1 ++ y :: x :: l2).
Proof. apply Permutation_app_head, perm_swap. Qed.

Section Order.
Context {NF : JSNonFinite Exact} {F : JSFormat Exact}
        {SS : SimpleStatistics Exact}.

Lemma shapiroWilkTest_perm (samples samples' : list R) :
  Permutation samples samples' ->
  Normality.shapiroWilkTest (N := Exact) samples
  = Normality.shapiroWilkTest (N := Exact) samples'.
Proof.
  intros P.
  pose proof (Permutation_length P) as L.
  pose proof (Array_sort_canonical _ _ P) as S.
  unfold Normality.shapiroWilkTest. cbv zeta.
  change (@number Exact) with R in *.
  rewrite L, S.
  reflexivity.
Qed.

(** X17.  In exact arithmetic the result of [shapiroWilkTest] does not
    depend on the order of the sample, the test working on the sorted copy
    only: exchanging two neighbours, which generates every reordering,
    leaves the whole result as it is; so do reversing the sample, exchanging
    two parts of it, and sorting it beforehand. *)
Theorem shapiroWilkTest_order (l1 l2 : list R) (x y : R) :
  Normality.shapiroWilkTest (N := Exact) (l1 ++ x :: y :: l2)
  = Normality.shapiroWilkTest (N := Exact) (l1 ++ y :: x :: l2) /\
  Normality.shapiroWilkTest (N := Exact) (List.rev l1)
  = Normality.shapiroWilkTest (N := Exact) l1 /\
  Normality.shapiroWilkTest (N := Exact) (l1 ++ l2)
  = Normality.shapiroWilkTest (N := Exact) (l2 ++ l1) /\
  Normality.shapiroWilkTest (N := Exact)
    (Array_sort (N := Exact) (fun a b => a - b)%js l1)
  = Normality.shapiroWilkTest (N := Exact) l1.
Proof.
  repeat split; apply shapiroWilkTest_perm.
  - apply swap_perm.
  - symmetry. apply Permutation_rev.
  - apply Permutation_app_comm.
  - apply (Array_sort_perm (N := Exact)).
Qed.

Lemma detectOutliersIQR_perm (samples samples' : list R)
  (multiplier : option R) :
  Permutation samples samples' ->
  let r := Outliers.detectOutliersIQR (N := Exact) samples multiplier in
  let r' := Outliers.detectOutliersIQR (N := Exact) samples' multiplier in
  Outliers.iqr_IQR r = Outliers.iqr_IQR r' /\
  Outliers.iqr_lowerFence r = Outliers.iqr_lowerFence r' /\
  Outliers.iqr_upperFence r = Outliers.iqr_upperFence r' /\
  Outliers.iqr_count r = Outliers.iqr_count r' /\
  Outliers.iqr_tooMany r = Outliers.iqr_tooMany r' /\
  Permutation (Outliers.iqr_values r) (Outliers.iqr_values r') /\
  Permutation (Outliers.iqr_cleaned r) (Outliers.iqr_cleaned r') /\
  ((4 <= List.length samples)%nat ->
   Outliers.iqr_Q1 r = Outliers.iqr_Q1 r' /\
   Outliers.iqr_Q3 r = Outliers.iqr_Q3 r').
Proof.
  intros P r r'. subst r r'.
  pose proof (Permutation_length P) as L.
  pose proof (Array_sort_canonical _ _ P) as S.
  unfold Outliers.detectOutliersIQR, Outliers.detectOutliersIQR_short,
    Outliers.detectOutliersIQR_sorted.
  cbv zeta. change (@number Exact) with R in *.
  rewrite <- L, <- S.
  destruct (Nat.ltb_spec (List.length samples) 4) as [H | H].
  { cbn. repeat split; auto; lia. }
  rewrite !(OutliersFacts.splitOutliers_spec (N := Exact)). cbv zeta.
  cbn [fst snd Outliers.iqr_Q1 Outliers.iqr_Q3 Outliers.iqr_IQR
       Outliers.iqr_lowerFence Outliers.iqr_upperFence Outliers.iqr_indices
       Outliers.iqr_values Outliers.iqr_cleaned Outliers.iqr_count
       Outliers.iqr_tooMany].
  match goal with
  | |- context [filter (fun ix : nat * _ => @?p ix)
                  (OutliersSpec.indexed samples)] =>
      match p with
      | (fun ix => orb _ _) =>
          match eval cbv beta in (fun x : R => p (0%nat, x)) with
          | ?q => set (outside := q)
          end
      end
  end.
  cbn [snd] in outside.
  pose proof (OutliersFacts.filter_indexed_snd (N := Exact) outside) as V.
  pose proof (OutliersFacts.filter_indexed_snd (N := Exact)
                (fun x => negb (outside x))) as C.
  cbv beta in V, C. change (@number Exact) with R in *.
  assert (Lv : forall l : list R,
             List.length
               (map fst (filter (fun ix : nat * R => outside (snd ix))
                           (OutliersSpec.indexed l)))
             = List.length (filter outside l)).
  { intros l. rewrite <- (V l), !length_map. reflexivity. }
  unfold outside in Lv, V, C.
  rewrite !Lv, !V, !C. fold outside.
  assert (Pv : Permutation (filter outside samples) (filter outside samples'))
    by (now apply filter_perm).
  rewrite (Permutation_length Pv).
  repeat split; auto.
  now apply filter_perm.
Qed.

(** X18.  In exact arithmetic the IQR, the fences, the count and the
    [tooMany] flag of [detectOutliersIQR] do not depend on the order of the
    sample, and the flagged values and the cleaned rest are the same up to
    their order: exchanging two neighbours, which generates every
    reordering, changes none of them.  From four elements on the same holds
    of the two quartiles; below four they are the first and the last element
    as given. *)
Theorem detectOutliersIQR_order (l1 l2 : list R) (x y : R)
  (multiplier : option R) :
  let r := Outliers.detectOutliersIQR (N := Exact)
             (l1 ++ x :: y :: l2) multiplier in
  let r' := Outliers.detectOutliersIQR (N := Exact)
              (l1 ++ y :: x :: l2) multiplier in
  Outliers.iqr_IQR r = Outliers.iqr_IQR r' /\
  Outliers.iqr_lowerFence r = Outliers.iqr_lowerFence r' /\
  Outliers.iqr_upperFence r = Outliers.iqr_upperFence r' /\
  Outliers.iqr_count r = Outliers.iqr_count r' /\
  Outliers.iqr_tooMany r = Outliers.iqr_tooMany r' /\
  Permutation (Outliers.iqr_values r) (Outliers.iqr_values r') /\
  Permutation (Outliers.iqr_cleaned r) (Outliers.iqr_cleaned r') /\
  ((4 <= List.length (l1 ++ x :: y :: l2))%nat ->
   Outliers.iqr_Q1 r = Outliers.iqr_Q1 r' /\
   Outliers.iqr_Q3 r = Outliers.iqr_Q3 r').
Proof.
  exact (detectOutliersIQR_perm _ _ multiplier (swap_perm l1 l2 x y)).
Qed.

End Order.

End OrderExact.

(* ================================================================== *)
(** * Masking in the z-score detector *)
(* ================================================================== *)

Module MaskingExact.
Import MidRanks MannWhitneyExact MaskingSpec.
Local Open Scope R_scope.

Lemma sumR_scale {A} (f : A -> R) (c : R) (l : list A) :
  sumR (map (fun x => c * f x) l) = c * sumR (map f l).
Proof. induction l as [|x l IH]; simpl; [lra | rewrite IH; lra]. Qed.








Section Masking.
Context (SS : SimpleStatistics Exact).


End Masking.

(** In exact arithmetic the compensated sum of simple-statistics is the
    sum. *)
Lemma sum_exact (l : list R) : SimpleStatistics7.sum (N := Exact) l = sumR l.
Proof.
  unfold SimpleStatistics7.sum. destruct l as [|x0 rest]; [simpl; apply ExactLaws.of_lit_int|].
  cbn [sumR fold_right]. fold (sumR rest).
  cbn [number of_lit num_add num_sub num_le Math_abs Exact].
  rewrite ExactLaws.of_lit_int.
  assert (G : forall acc,
             fold_left
               (fun (st : R * R) (xi : R) =>
                  let '(sum, correction) := st in
                  let transition := sum + xi in
                  let correction :=
                    if ExactR.leb (Rabs xi) (Rabs sum)
                    then correction + (sum - transition + xi)
                    else correction + (xi - transition + sum) in
                  (transition, correction)) rest (acc, 0)
             = (acc + sumR rest, 0)).
  { induction rest as [|y rest IH]; intros acc; simpl.
    - f_equal. lra.
    - fold (sumR rest).
      replace (0 + (acc - (acc + y) + y)) with 0 by ring.
      replace (0 + (y - (acc + y) + acc)) with 0 by ring.
      destruct (ExactR.leb _ _); rewrite IH; f_equal; lra. }
  rewrite G. lra.
Qed.

Lemma mean_exact (l : list R) :
  SimpleStatistics7.mean (N := Exact) l = meanOf l.
Proof. unfold SimpleStatistics7.mean, meanOf. now rewrite sum_exact. Qed.

Lemma sampleVariance_exact (l : list R) :
  SimpleStatistics7.sampleVariance (N := Exact) l
  = squaredDeviations l / (INR (List.length l) - 1).
Proof.
  unfold SimpleStatistics7.sampleVariance,
    SimpleStatistics7.sumNthPowerDeviations2.
  cbv zeta. rewrite mean_exact.
  cbn [number of_lit of_nat num_add num_sub num_mul num_div Exact].
  rewrite !ExactLaws.of_lit_int. f_equal.
  unfold squaredDeviations.
  generalize (meanOf l). intros m.
  assert (G : forall acc,
             fold_left (fun sum xi => sum + (xi - m) * (xi - m)) l acc
             = acc + sumR (map (fun x => (x - m) * (x - m)) l)).
  { induction l as [|x l' IH]; intros acc; simpl; [lra|]. rewrite IH.
    fold (sumR (map (fun x => (x - m) * (x - m)) l')). lra. }
  rewrite G. lra.
Qed.

(** The sample variance of simple-statistics is not negative. *)
Lemma sampleVariance_nonneg (l : list R) :
  (2 <= List.length l)%nat ->
  0 <= ss_sampleVariance (SimpleStatistics := Exact_ss) l.
Proof.
  intros H. cbn [ss_sampleVariance Exact_ss]. rewrite sampleVariance_exact.
  assert (N2 : 2 <= INR (List.length l)).
  { replace 2 with (INR 2) by (simpl; lra). now apply le_INR. }
  apply Rmult_le_pos.
  - unfold squaredDeviations. apply sumR_map_nonneg.
    intros y. exact (Rle_0_sqr (y - meanOf l)).
  - left. apply Rinv_0_lt_compat. lra.
Qed.



End MaskingExact.

(* ================================================================== *)
(** * welch-t-test.ts in exact arithmetic *)
(* ================================================================== *)

Module WelchExact.
Local Open Scope R_scope.



Section Welch.
Context {NF : JSNonFinite Exact} {SS : SimpleStatistics Exact}.


End Welch.
End WelchExact.

(* ================================================================== *)
(** * compare.ts in exact arithmetic *)
(* ================================================================== *)

Module CompareExact.
Import MidRanks MannWhitneyExact RanksExact.
Local Open Scope R_scope.

Lemma mannWhitneyU_exchange (a b : list R) (alpha : option R) :
  MannWhitney.mannWhitneyU (N := Exact) b a alpha
  = MannWhitney.mannWhitneyU (N := Exact) a b alpha.
Proof.
  destruct (mannWhitneyU_exact_fields a b alpha) as [r [E [U [P [S [Z Lb]]]]]].
  destruct (mannWhitneyU_exact_fields b a alpha)
    as [r' [E' [U' [P' [S' [Z' Lb']]]]]].
  cbv zeta in *. rewrite E, E'. f_equal.
  assert (EU : mw_U r' = mw_U r) by (rewrite U', U; apply Rmin_comm).
  assert (Hm : INR (List.length b) * INR (List.length a)
               = INR (List.length a) * INR (List.length b)) by ring.
  assert (Hs : INR (List.length b) + INR (List.length a)
               = INR (List.length a) + INR (List.length b)) by ring.
  assert (EP : mw_pValue r' = mw_pValue r).
  { rewrite P', P, EU, Hm, Hs. reflexivity. }
  assert (EZ : mw_effectSize r' = mw_effectSize r)
    by (rewrite Z', Z, EU, Hm; reflexivity).
  apply mw_result_eq; congruence.
Qed.

Section Compare.
Context {NF : JSNonFinite Exact} {F : JSFormat Exact}
        {SS : SimpleStatistics Exact}.

Lemma assessDataQuality_exchange (diagA diagB : SampleDiagnostics (N := Exact))
  (labels labels' : string * string) :
  fst (fst (Compare.assessDataQuality diagB diagA labels'))
  = fst (fst (Compare.assessDataQuality diagA diagB labels)) /\
  snd (Compare.assessDataQuality diagB diagA labels')
  = snd (Compare.assessDataQuality diagA diagB labels).
Proof.
  unfold Compare.assessDataQuality.
  destruct (o_tooMany (sd_outliers diagA)),
    (0 <? o_count (sd_outliers diagA))%nat,
    (o_tooMany (sd_outliers diagB)),
    (0 <? o_count (sd_outliers diagB))%nat,
    (nt_isNormal (sd_normality diagA)),
    (nt_isNormal (sd_normality diagB)); cbn; split; reflexivity.
Qed.

Lemma welchTTest_exchange_fields (a b : list R) (alpha : option R) :
  let r := Welch.welchTTest (N := Exact) a b alpha in
  let r' := Welch.welchTTest (N := Exact) b a alpha in
  w_meanDiff r' = - w_meanDiff r /\
  w_effectSize r' = - w_effectSize r /\
  w_pValue r' = w_pValue r /\
  w_significant r' = w_significant r /\
  w_effectSizeLabel r' = w_effectSizeLabel r.
Proof.
  intros r r'. subst r r'.
  unfold Welch.welchTTest. cbv zeta.
  cbn [w_t w_df w_pValue w_significant w_effectSize w_effectSizeLabel
       w_meanDiff w_ci95 fst snd].
  cbn [number of_lit of_nat num_add num_sub num_mul num_div num_neg num_lt
       Math_abs Math_sqrt Math_pow Exact].
  set (n1 := INR (List.length a)). set (n2 := INR (List.length b)).
  set (v1 := ss_sampleVariance (N := Exact) a).
  set (v2 := ss_sampleVariance (N := Exact) b).
  set (m1 := ss_mean (N := Exact) a). set (m2 := ss_mean (N := Exact) b).
  change (@number Exact) with R in *.
  replace (v2 / n2 + v1 / n1) with (v1 / n1 + v2 / n2) by ring.
  replace (ExactR.pow (v2 / n2) (ExactR.of_lit 2%js) / (n2 - ExactR.of_lit 1%js)
           + ExactR.pow (v1 / n1) (ExactR.of_lit 2%js) / (n1 - ExactR.of_lit 1%js))
    with (ExactR.pow (v1 / n1) (ExactR.of_lit 2%js) / (n1 - ExactR.of_lit 1%js)
          + ExactR.pow (v2 / n2) (ExactR.of_lit 2%js) / (n2 - ExactR.of_lit 1%js))
    by ring.
  replace ((n2 - ExactR.of_lit 1%js) * v2 + (n1 - ExactR.of_lit 1%js) * v1)
    with ((n1 - ExactR.of_lit 1%js) * v1 + (n2 - ExactR.of_lit 1%js) * v2)
    by ring.
  replace (n2 + n1 - ExactR.of_lit 2%js) with (n1 + n2 - ExactR.of_lit 2%js)
    by ring.
  set (se := sqrt (v1 / n1 + v2 / n2)).
  set (sp := sqrt _).
  assert (T : (m2 - m1) / se = - ((m1 - m2) / se)) by (unfold Rdiv; ring).
  assert (E : (m2 - m1) / sp = - ((m1 - m2) / sp)) by (unfold Rdiv; ring).
  rewrite T, E, Rabs_Ropp.
  unfold Welch.getEffectSizeLabel.
  cbn [number Math_abs Exact]. rewrite Rabs_Ropp.
  repeat split; ring.
Qed.

(** X22.  In exact arithmetic [compareConditions] does not depend on which
    sample is given first.  Both calls return; the verdict, the
    recommendation, the overall quality, the test used, the p-value and the
    effect-size label are the same; the two sample diagnostics and the two
    means change places, and the difference changes its sign.  (When both
    sample variances are 0 the quotients of Welch's test have a zero
    divisor, for either order alike.) *)
Theorem compareConditions_exchange (sampleA sampleB : list R)
  (cfg : CompareConfig (N := Exact)) :
  exists r r',
    Compare.compareConditions (N := Exact) sampleA sampleB cfg = Some r /\
    Compare.compareConditions (N := Exact) sampleB sampleA cfg = Some r' /\
    verdict r' = verdict r /\
    recommendation r' = recommendation r /\
    cd_overallQuality (diagnostics r') = cd_overallQuality (diagnostics r) /\
    cd_sampleA (diagnostics r') = cd_sampleB (diagnostics r) /\
    cd_sampleB (diagnostics r') = cd_sampleA (diagnostics r) /\
    ev_testUsed (evidence r') = ev_testUsed (evidence r) /\
    ev_pValue (evidence r') = ev_pValue (evidence r) /\
    ev_effectSizeLabel (evidence r') = ev_effectSizeLabel (evidence r) /\
    ev_meanA (evidence r') = ev_meanB (evidence r) /\
    ev_meanB (evidence r') = ev_meanA (evidence r) /\
    ev_difference (evidence r') = - ev_difference (evidence r).
Proof.
  unfold Compare.compareConditions, Compare.compareConditions_with.
  cbv zeta. change (@number Exact) with R.
  rewrite (orb_comm (List.length sampleB <? 3)%nat).
  destruct ((List.length sampleA <? 3)%nat || (List.length sampleB <? 3)%nat).
  { eexists. eexists. split; [reflexivity|]. split; [reflexivity|].
    unfold Compare.createInsufficientDataResult, Compare.insufficientDataResult.
    cbn [verdict recommendation evidence diagnostics cd_overallQuality
         cd_sampleA cd_sampleB ev_testUsed ev_pValue ev_effectSizeLabel
         ev_meanA ev_meanB ev_difference].
    repeat match goal with |- _ /\ _ => split end; try reflexivity.
    cbn [number num_sub Exact]. ring. }
  unfold Compare.getSampleDiagnostics.
  set (thr := Some _).
  set (diagA := SampleQuality.getSampleDiagnostics (N := Exact) sampleA thr).
  set (diagB := SampleQuality.getSampleDiagnostics (N := Exact) sampleB thr).
  destruct (assessDataQuality_exchange diagA diagB
              (labels (Compare.mergeConfig cfg))
              (labels (Compare.mergeConfig cfg))) as [Q R].
  destruct (Compare.assessDataQuality diagA diagB _)
    as [[quality warnings] rec].
  destruct (Compare.assessDataQuality diagB diagA _)
    as [[quality' warnings'] rec'].
  cbn [fst snd] in Q, R. subst quality' rec'.
  pose proof (welchTTest_exchange_fields sampleA sampleB
                (Some (alpha (Compare.mergeConfig cfg)))) as W.
  cbv zeta in W. destruct W as (W1 & W2 & W3 & W4 & W5).
  assert (Welch_case :
    exists r r',
      Some (Compare.buildResult (Compare.mergeConfig cfg) diagA diagB quality
              warnings rec
              (fst (Compare.welchBranch (Compare.mergeConfig cfg) diagA diagB
                      (Welch.welchTTest (N := Exact) sampleA sampleB
                         (Some (alpha (Compare.mergeConfig cfg))))))
              (snd (Compare.welchBranch (Compare.mergeConfig cfg) diagA diagB
                      (Welch.welchTTest (N := Exact) sampleA sampleB
                         (Some (alpha (Compare.mergeConfig cfg))))))) = Some r /\
      Some (Compare.buildResult (Compare.mergeConfig cfg) diagB diagA quality
              warnings' rec
              (fst (Compare.welchBranch (Compare.mergeConfig cfg) diagB diagA
                      (Welch.welchTTest (N := Exact) sampleB sampleA
                         (Some (alpha (Compare.mergeConfig cfg))))))
              (snd (Compare.welchBranch (Compare.mergeConfig cfg) diagB diagA
                      (Welch.welchTTest (N := Exact) sampleB sampleA
                         (Some (alpha (Compare.mergeConfig cfg))))))) = Some r' /\
      verdict r' = verdict r /\
      recommendation r' = recommendation r /\
      cd_overallQuality (diagnostics r') = cd_overallQuality (diagnostics r) /\
      cd_sampleA (diagnostics r') = cd_sampleB (diagnostics r) /\
      cd_sampleB (diagnostics r') = cd_sampleA (diagnostics r) /\
      ev_testUsed (evidence r') = ev_testUsed (evidence r) /\
      ev_pValue (evidence r') = ev_pValue (evidence r) /\
      ev_effectSizeLabel (evidence r') = ev_effectSizeLabel (evidence r) /\
      ev_meanA (evidence r') = ev_meanB (evidence r) /\
      ev_meanB (evidence r') = ev_meanA (evidence r) /\
      ev_difference (evidence r') = - ev_difference (evidence r)).
  { eexists. eexists. split; [reflexivity|]. split; [reflexivity|].
    unfold Compare.buildResult, Compare.welchBranch.
    cbn [verdict recommendation evidence diagnostics cd_overallQuality
         cd_sampleA cd_sampleB ev_testUsed ev_pValue ev_effectSizeLabel
         ev_meanA ev_meanB ev_difference fst snd].
    rewrite W1, W2, W3, W4, W5.
    cbn [number Math_abs Exact]. rewrite !Rabs_Ropp.
    repeat match goal with |- _ /\ _ => split end; reflexivity. }
  destruct rec; [exact Welch_case | exact Welch_case |].
  clear Welch_case.
  rewrite (mannWhitneyU_exchange sampleA sampleB).
  destruct (mannWhitneyU_exact_fields sampleA sampleB
              (Some (alpha (Compare.mergeConfig cfg)))) as [result [E _]].
  change (@number Exact) with R in *. rewrite E.
  eexists. eexists. split; [reflexivity|]. split; [reflexivity|].
  unfold Compare.buildResult, Compare.mannWhitneyBranch.
  cbn [verdict recommendation evidence diagnostics cd_overallQuality
       cd_sampleA cd_sampleB ev_testUsed ev_pValue ev_effectSizeLabel
       ev_meanA ev_meanB ev_difference fst snd].
  cbn [number num_sub Math_abs Exact].
  replace (sd_mean diagB - sd_mean diagA)
    with (- (sd_mean diagA - sd_mean diagB)) by ring.
  rewrite Rabs_Ropp.
  repeat match goal with |- _ /\ _ => split end; reflexivity.
Qed.

End Compare.
End CompareExact.
